(** * mcp-sqlserver: the parameterised query construction layer

    A shallow embedding of [QueryBuilder] (src/database/connection.ts, second
    unit), of the batched operations of [BulkTools] (src/tools/bulk-tools.ts)
    and of the request validation in front of the UPDATE and DELETE tools
    (schemas of src/tools/bulk-tools.ts, handlers of src/index.ts), followed by
    the properties of the specification that concern them.

    Conventions of the embedding.
    - A JavaScript string is a [string], one [ascii] per character; template
      literals and [+=] are [+:+]. Numbers that reach the text (counters,
      indices, [limit], [offset]) are integers, printed as
      [Number::toString] prints them ([Js.showZ]).
    - A value of type [any] is a [Js.Value]; the builders only ever test it
      with [Array.isArray] and [!== undefined], index it and take its length.
    - A [Record<string, any>] is the list of its own properties in the order
      [Object.keys] enumerates them; reading a property it does not have
      finds what [Object.prototype] holds under that name ([Js.get]).
    - Of the two libraries between a request and the server, zod and mssql,
      the embedding keeps what decides the outcome of a call: what
      [z.record] copies and what names [request.input] refuses.
    - The parameter map of a built statement is a [gmap string Js.Value]:
      assigning [inputs[name] = v] is [<[name := v]>], so a second assignment
      to the same name overwrites the first.
    - The [mssql] request of a batched operation is the sequence of its
      [request.input] calls together with the text given to [request.query].
    - The server is a state of an arbitrary type [Db] with a transition
      [runQuery] that answers a request with an error message or a row
      count; the results of the batched operations and of the CSV import
      are stated for every such server.
    - The CSV reader ([parseCsvLine], [parseCsv]) is embedded character by
      character. It takes the reader of numbers as a parameter, [numeric];
      the one of JavaScript is [Js.numeric].

    After the properties of the specification come further properties of
    the same code (X1 to X25): the predicates and records of the builders,
    the tools and their schemas, the runs and results of the batched
    operations, the CSV reader and the import built on it. *)

From Stdlib Require Import ZArith String Ascii List Lia.
From Stdlib Require Import DecimalString DecimalNat DecimalZ.
From stdpp Require Import base option list strings gmap.

#[local] Set Warnings "-register-all,-clear-no-such-hyp".

Local Open Scope string_scope.
Local Open Scope list_scope.
Local Open Scope stdpp_scope.

(** ** The fragment of JavaScript the code relies on *)

Module Js.

(** A Number value that is not an integer: [m * 2^e] with [m] odd and [e]
    negative, an infinity, or negative zero. *)
Inductive NonInteger : Type :=
| Dyadic (m e : Z)
| Infinity (negative : bool)
| MinusZero.

(** The values of type [any] that reach the code. [Number] carries an
    integer-valued number, [Float] any other number but [NaN]; [Native k] is
    what [Object.prototype] holds under the name [k] (a built-in function,
    or under [__proto__] the prototype itself). *)
Inductive Value : Type :=
| Undefined
| Null
| Bool (b : bool)
| Number (n : Z)
| Str (s : string)
| Array (items : list Value)
| Object (props : list (string * Value))
| Float (x : NonInteger)
| Native (name : string).

(** [Array.isArray(v)] *)
Definition isArray (v : Value) : bool :=
  match v with Array _ => true | _ => false end.

(** [v !== undefined] *)
Definition isDefined (v : Value) : bool :=
  match v with Undefined => false | _ => true end.

(** Own enumerable properties, in enumeration order. *)
Definition Obj : Type := list (string * Value).

(** [Object.keys(o)] *)
Definition keys (o : Obj) : list string := o.*1.

(** The names of the properties of [Object.prototype]. *)
Definition objectPrototype : list string :=
  [ "constructor"; "hasOwnProperty"; "isPrototypeOf"; "propertyIsEnumerable";
    "toLocaleString"; "toString"; "valueOf"; "__proto__";
    "__defineGetter__"; "__defineSetter__"; "__lookupGetter__";
    "__lookupSetter__" ].

(** What an ordinary object that has no property [k] of its own answers to
    [o[k]]: the property of [Object.prototype], [undefined] when there is
    none. *)
Definition inherited (k : string) : Value :=
  if existsb (String.eqb k) objectPrototype then Native k else Undefined.

(** [o[k]] on an ordinary object: its own property, or else the inherited
    one. *)
Fixpoint get (o : Obj) (k : string) : Value :=
  match o with
  | [] => inherited k
  | (k', v) :: o' => if decide (k' = k) then v else get o' k
  end.

(** [`${n}`] for a non-negative integer counter or index. *)
Definition showNat (n : nat) : string :=
  NilEmpty.string_of_uint (Nat.to_uint n).

(** The Number value nearest to the positive integer [m], ties to even. *)
Definition nearestNumber (m : Z) : Z :=
  let e := Z.log2 m in
  if (e <=? 52)%Z then m
  else
    let ulp := (2 ^ (e - 52))%Z in
    let q := (m / ulp)%Z in
    let r := (m mod ulp)%Z in
    if (2 * r <? ulp)%Z then (q * ulp)%Z
    else if (ulp <? 2 * r)%Z then ((q + 1) * ulp)%Z
    else if Z.even q then (q * ulp)%Z else ((q + 1) * ulp)%Z.

(** The decimal numeral of a positive integer. *)
Definition numeral (x : Z) : string :=
  NilEmpty.string_of_uint (Pos.to_uint (Z.to_pos x)).

(** The integer with [k] significant digits that the Number [x] of [d]
    digits prints as, when there is one: it reads back as [x], and of two
    such the nearer to [x] is taken, the even one on a tie. *)
Definition candidate (x d k : Z) : option Z :=
  if (d <=? k)%Z then Some x
  else
    let scale := (10 ^ (d - k))%Z in
    let lo := (x / scale * scale)%Z in
    let hi := (lo + scale)%Z in
    match (nearestNumber lo =? x)%Z, (nearestNumber hi =? x)%Z with
    | true, true =>
        Some (if (x - lo <? hi - x)%Z then lo
              else if (hi - x <? x - lo)%Z then hi
              else if Z.even (x / scale) then lo else hi)
    | true, false => Some lo
    | false, true => Some hi
    | false, false => None
    end.

(** The integer with the fewest significant digits that reads back as the
    Number [x], tried from [k] digits on. *)
Fixpoint shortest (x d k : Z) (fuel : nat) : Z :=
  match fuel with
  | O => x
  | S fuel' =>
      match candidate x d k with
      | Some c => c
      | None => shortest x d (k + 1) fuel'
      end
  end.

Fixpoint dropTrailingZeros (s : string) : string :=
  match s with
  | EmptyString => EmptyString
  | String c s' =>
      match dropTrailingZeros s' with
      | EmptyString =>
          if Ascii.eqb c "0" then EmptyString else String c EmptyString
      | String _ _ as t => String c t
      end
  end.

(** The digits of [c] as [Number::toString] lays them out: in full up to 21
    digits, beyond that the significant digits with a point after the first
    and the exponent. *)
Definition layout (c : Z) : string :=
  let digits := numeral c in
  let n := String.length digits in
  if (n <=? 21)%nat then digits
  else
    match dropTrailingZeros digits with
    | EmptyString => digits
    | String first EmptyString =>
        String first EmptyString +:+ "e+" +:+ showNat (n - 1)
    | String first rest =>
        String first EmptyString +:+ "." +:+ rest +:+ "e+" +:+ showNat (n - 1)
    end.

Definition showPositive (x : Z) : string :=
  if (x <? 2 ^ 53)%Z then numeral x
  else layout (shortest x (Z.of_nat (String.length (numeral x))) 1 17).

(** [`${n}`] for an integer-valued Number ([Number::toString]): the decimal
    numeral up to [2^53]; beyond, the fewest digits that read back as the
    same Number, padded with zeros below [10^21] and in exponent form from
    there on ([1e+21]). *)
Definition showZ (z : Z) : string :=
  match z with
  | Z0 => "0"
  | Zpos _ => showPositive z
  | Zneg p => "-" +:+ showPositive (Zpos p)
  end.

(** [l.join(sep)] on an array of strings. *)
Fixpoint join (sep : string) (l : list string) : string :=
  match l with
  | [] => ""
  | x :: l' =>
      match l' with
      | [] => x
      | _ :: _ => x +:+ sep +:+ join sep l'
      end
  end.

(** [s.startsWith(needle)] *)
Fixpoint startsWith (needle s : string) : bool :=
  match needle, s with
  | EmptyString, _ => true
  | String _ _, EmptyString => false
  | String a needle', String b s' =>
      if Ascii.eqb a b then startsWith needle' s' else false
  end.

Fixpoint indexOfFrom (needle s : string) (i : nat) : Z :=
  if startsWith needle s then Z.of_nat i
  else match s with
       | EmptyString => (-1)%Z
       | String _ s' => indexOfFrom needle s' (S i)
       end.

(** [s.indexOf(needle)]: position of the first occurrence, [-1] if none. *)
Definition indexOf (s needle : string) : Z := indexOfFrom needle s 0.

Fixpoint dropChars (n : nat) (s : string) : string :=
  match n, s with
  | O, _ => s
  | S _, EmptyString => EmptyString
  | S n', String _ s' => dropChars n' s'
  end.

(** [s.substring(start)]: a negative start counts as [0], a start beyond the
    end yields the empty string. *)
Definition substring (s : string) (start : Z) : string :=
  dropChars (Z.to_nat start) s.

(** Truthiness of an optional number, as tested by [if (limit)]. *)
Definition truthy (n : option Z) : bool :=
  match n with
  | Some z => negb (z =? 0)%Z
  | None => false
  end.

(** White space and line terminators among the characters below 256: tab,
    line feed, vertical tab, form feed, carriage return, space and
    no-break space. *)
Definition isSpace (c : ascii) : bool :=
  let n := nat_of_ascii c in
  ((9 <=? n) && (n <=? 13) || (n =? 32) || (n =? 160))%nat.

Fixpoint trimStart (s : string) : string :=
  match s with
  | EmptyString => EmptyString
  | String c s' => if isSpace c then trimStart s' else s
  end.

Fixpoint trimEnd (s : string) : string :=
  match s with
  | EmptyString => EmptyString
  | String c s' =>
      match trimEnd s' with
      | EmptyString => if isSpace c then EmptyString else String c EmptyString
      | String _ _ as t => String c t
      end
  end.

(** [s.trim()] *)
Definition trim (s : string) : string := trimEnd (trimStart s).

(** The double quote character. *)
Definition quote : ascii := "034"%char.

(** The line feed character. *)
Definition lineFeed : ascii := "010"%char.

(** [s.split(sep)] for a separator of one character. *)
Fixpoint split (sep : ascii) (s : string) : list string :=
  match s with
  | EmptyString => [EmptyString]
  | String c s' =>
      if Ascii.eqb c sep then EmptyString :: split sep s'
      else match split sep s' with
           | [] => [String c EmptyString]
           | x :: l => String c x :: l
           end
  end.

(** The number a string of decimal digits denotes, after [acc]. *)
Fixpoint decimal (s : string) (acc : N) : option N :=
  match s with
  | EmptyString => Some acc
  | String c s' =>
      let n := N_of_ascii c in
      if ((48 <=? n) && (n <=? 57))%N then decimal s' (10 * acc + (n - 48))%N
      else None
  end.

(** The array index a property key denotes: the key is the decimal
    numeral, without leading zeros, of an integer below [2^32 - 1]. *)
Definition arrayIndex (k : string) : option N :=
  match k with
  | EmptyString => None
  | String c rest =>
      if Ascii.eqb c "0" && negb (String.eqb rest EmptyString) then None
      else match decimal k 0 with
           | Some n => if (n <? 4294967295)%N then Some n else None
           | None => None
           end
  end.

(** [o[k] = v] on an ordinary object, for a key other than [__proto__]. A
    new key that is an array index takes its place among the array indices,
    which are enumerated first, in ascending order; any other new key is
    enumerated last; an existing key keeps its place. *)
Fixpoint set (o : Obj) (k : string) (v : Value) : Obj :=
  match o with
  | [] => [(k, v)]
  | (k', v') :: o' =>
      if decide (k' = k) then (k, v) :: o'
      else
        match arrayIndex k, arrayIndex k' with
        | Some n, Some n' =>
            if (n <? n')%N then (k, v) :: o else (k', v') :: set o' k v
        | Some _, None => (k, v) :: o
        | None, _ => (k', v') :: set o' k v
        end
  end.

(** *** Reading a number off a string *)

Definition isDigit (c : ascii) : bool :=
  let n := nat_of_ascii c in ((48 <=? n) && (n <=? 57))%nat.

(** The decimal digits [s] starts with, and what follows them. *)
Fixpoint takeDigits (s : string) : string * string :=
  match s with
  | EmptyString => (EmptyString, EmptyString)
  | String c s' =>
      if isDigit c
      then let (d, rest) := takeDigits s' in (String c d, rest)
      else (EmptyString, s)
  end.

(** The number a string of decimal digits denotes, after [acc]. *)
Fixpoint digitsValue (s : string) (acc : Z) : Z :=
  match s with
  | EmptyString => acc
  | String c s' =>
      digitsValue s' (10 * acc + (Z.of_nat (nat_of_ascii c) - 48))%Z
  end.

(** [ExponentPart] at the end of a literal: [e] or [E], an optional sign and
    at least one digit. Nothing stands for the exponent [0]. *)
Definition exponentPart (s : string) : option Z :=
  match s with
  | EmptyString => Some 0%Z
  | String c s' =>
      if Ascii.eqb c "e" || Ascii.eqb c "E" then
        let (negative, body) :=
          match s' with
          | String sign body =>
              if Ascii.eqb sign "-" then (true, body)
              else if Ascii.eqb sign "+" then (false, body)
              else (false, s')
          | EmptyString => (false, s')
          end in
        match takeDigits body with
        | (String _ _ as ds, EmptyString) =>
            Some (if negative then (- digitsValue ds 0)%Z
                  else digitsValue ds 0)
        | _ => None
        end
      else None
  end.

(** [StrUnsignedDecimalLiteral] other than [Infinity]: the digits of the
    literal without its point, and the power of ten that scales them. *)
Definition unsignedLiteral (s : string) : option (Z * Z) :=
  let (int, afterInt) := takeDigits s in
  let (frac, afterFrac) :=
    match afterInt with
    | String c s' =>
        if Ascii.eqb c "." then takeDigits s' else (EmptyString, afterInt)
    | EmptyString => (EmptyString, afterInt)
    end in
  if (String.length int + String.length frac =? 0)%nat then None
  else
    match exponentPart afterFrac with
    | Some e =>
        Some (digitsValue (int +:+ frac) 0,
              (e - Z.of_nat (String.length frac))%Z)
    | None => None
    end.

(** [a / b] rounded to the nearest integer, ties to even. *)
Definition roundHalfEven (a b : Z) : Z :=
  let q := (a / b)%Z in
  let r := (a mod b)%Z in
  if (2 * r <? b)%Z then q
  else if (b <? 2 * r)%Z then (q + 1)%Z
  else if Z.even q then q else (q + 1)%Z.

(** [m * 2^e] with the factors of two moved out of [m] as far as [e]
    allows. *)
Fixpoint halve (fuel : nat) (m e : Z) : Z * Z :=
  match fuel with
  | O => (m, e)
  | S fuel' =>
      if (e <? 0)%Z && Z.even m then halve fuel' (m / 2)%Z (e + 1)%Z
      else (m, e)
  end.

(** The Number value for the positive rational [num / den], with the sign
    given: the nearest double, ties to even, a zero on underflow and an
    infinity on overflow. *)
Definition numberValue (negative : bool) (num den : Z) : Value :=
  let e0 := (Z.log2 num - Z.log2 den)%Z in
  let e :=
    if (num * 2 ^ Z.max 0 (- e0) <? den * 2 ^ Z.max 0 e0)%Z
    then (e0 - 1)%Z else e0 in
  let q := Z.max (e - 52) (-1074) in
  let m := roundHalfEven (num * 2 ^ Z.max 0 (- q)) (den * 2 ^ Z.max 0 q) in
  let sign := if negative then (-1)%Z else 1%Z in
  if (m =? 0)%Z then (if negative then Float MinusZero else Number 0)
  else if (2 ^ 1024 <=? m * 2 ^ Z.max 0 q)%Z then Float (Infinity negative)
  else if (0 <=? q)%Z then Number (sign * m * 2 ^ q)
  else
    let (m', q') := halve 1074 m q in
    if (q' =? 0)%Z then Number (sign * m') else Float (Dyadic (sign * m') q').

(** [StrDecimalLiteral]: the value of the whole of [s] read as one. *)
Definition decimalLiteral (s : string) : option Value :=
  let (negative, body) :=
    match s with
    | String sign body =>
        if Ascii.eqb sign "-" then (true, body)
        else if Ascii.eqb sign "+" then (false, body)
        else (false, s)
    | EmptyString => (false, s)
    end in
  if String.eqb body "Infinity" then Some (Float (Infinity negative))
  else
    match unsignedLiteral body with
    | Some (digits, e) =>
        if (digits =? 0)%Z
        then Some (if negative then Float MinusZero else Number 0)
        else Some (numberValue negative (digits * 10 ^ Z.max 0 e)
                                        (10 ^ Z.max 0 (- e)))
    | None => None
    end.

(** [NonDecimalIntegerLiteral]: [0x], [0o] or [0b] and at least one digit
    of that base. *)
Definition nonDecimalLiteral (s : string) : bool :=
  match s with
  | String zero (String base (String d ds)) =>
      let n c := nat_of_ascii c in
      let hex c := (isDigit c || (97 <=? n c) && (n c <=? 102) ||
                    (65 <=? n c) && (n c <=? 70))%nat in
      let oct c := ((48 <=? n c) && (n c <=? 55))%nat in
      let bin c := ((48 <=? n c) && (n c <=? 49))%nat in
      let all (p : ascii -> bool) :=
        forallb p (list_ascii_of_string (String d ds)) in
      Ascii.eqb zero "0" &&
      ((Ascii.eqb base "x" || Ascii.eqb base "X") && all hex ||
       (Ascii.eqb base "o" || Ascii.eqb base "O") && all oct ||
       (Ascii.eqb base "b" || Ascii.eqb base "B") && all bin)
  | _ => false
  end.

(** [!isNaN(field) && !isNaN(parseFloat(field))] on a trimmed, non-empty
    string, with the number [parseFloat(field)] when the test holds.
    [Number(field)] is a number when the whole of [field] is a decimal
    literal, whose value [parseFloat] returns too, or a hexadecimal, octal
    or binary literal, of which [parseFloat] reads the leading [0]. *)
Definition numeric (field : string) : option Value :=
  match decimalLiteral field with
  | Some v => Some v
  | None => if nonDecimalLiteral field then Some (Number 0) else None
  end.

End Js.

(** ** The libraries the tools call *)

(** zod, the validator of the tool arguments. *)
Module Zod.

(** [z.record(z.string(), z.any())] on an object: the parser copies the
    entries into a fresh object, key by key in enumeration order, and leaves
    the key [__proto__] out. A [refine] on the record sees the copy. *)
Definition record (d : Js.Obj) : Js.Obj :=
  filter (B := list (string * Js.Value))
         (fun entry => entry.1 <> "__proto__") d.

End Zod.

(** mssql, the driver behind [pool.request()]. *)
Module Mssql.

(** [s.includes(needle)] *)
Fixpoint includes (needle s : string) : bool :=
  Js.startsWith needle s ||
  match s with
  | EmptyString => false
  | String _ s' => includes needle s'
  end.

(** The test [Request.input(name, value)] starts with: the call throws, and
    binds nothing, when [name] matches [/--| |\/\*|\*\/|'/], that is when
    it contains two dashes, a space, either comment mark of SQL or a single
    quote. *)
Definition refusesName (name : string) : bool :=
  includes "--" name || includes " " name || includes "/*" name ||
  includes "*/" name || includes "'" name.

End Mssql.

(** ** QueryBuilder (src/database/connection.ts) *)

Module QueryBuilder.

Inductive Operator : Type :=
| OpEq | OpNe | OpGt | OpLt | OpGe | OpLe | OpLike
| OpIn | OpNotIn | OpIsNull | OpIsNotNull.

(** The string a member of the operator union type stands for. *)
Definition operatorText (op : Operator) : string :=
  match op with
  | OpEq => "=" | OpNe => "!=" | OpGt => ">" | OpLt => "<"
  | OpGe => ">=" | OpLe => "<=" | OpLike => "LIKE"
  | OpIn => "IN" | OpNotIn => "NOT IN"
  | OpIsNull => "IS NULL" | OpIsNotNull => "IS NOT NULL"
  end.

Record WhereCondition : Type := {
  column : string;
  operator : Operator;
  value : Js.Value  (* [value?: any]: absent is [Js.Undefined] *)
}.

Inductive JoinType : Type := INNER | LEFT | RIGHT | FULL.

Definition joinTypeText (t : JoinType) : string :=
  match t with
  | INNER => "INNER" | LEFT => "LEFT" | RIGHT => "RIGHT" | FULL => "FULL"
  end.

Record JoinCondition : Type := {
  type : JoinType;
  join_table : string;
  on : string
}.

Inductive Direction : Type := ASC | DESC.

Definition directionText (d : Direction) : string :=
  match d with ASC => "ASC" | DESC => "DESC" end.

Record OrderTerm : Type := {
  order_column : string;
  direction : Direction
}.

Record QueryParams : Type := {
  table : string;
  columns : option (list string);
  where_ : option (list WhereCondition);
  joins : option (list JoinCondition);
  orderBy : option (list OrderTerm);
  limit : option Z;
  offset : option Z
}.

Record QueryResult : Type := {
  query : string;
  inputs : gmap string Js.Value
}.

(** The callback of [condition.value.map((_, index) => ...)]: it binds the
    element at [index] under [`${paramName}_${index}`] and yields the
    placeholder; [index] is the position the callback is called at. *)
Fixpoint inParams (paramName : string) (index : nat) (items : list Js.Value)
    (inputs : gmap string Js.Value) : list string * gmap string Js.Value :=
  match items with
  | [] => ([], inputs)
  | v :: items' =>
      let inParamName := paramName +:+ "_" +:+ Js.showNat index in
      let '(rest, inputs') :=
        inParams paramName (S index) items' (<[inParamName := v]> inputs) in
      (("@" +:+ inParamName) :: rest, inputs')
  end.

(** State of the loop [for (const condition of where)]. *)
Record WhereState : Type := {
  conditions : list string;
  bound : gmap string Js.Value;
  paramCounter : nat
}.

(** One iteration of the loop over [where]. The loop is written three times
    in the source (SELECT, UPDATE, DELETE) and the three bodies are the same
    text up to the prefix of [paramName] ([param] or [where_param]). *)
Definition whereStep (prefix : string) (st : WhereState)
    (condition : WhereCondition) : WhereState :=
  let paramName := prefix +:+ Js.showNat (paramCounter st) in
  let next := S (paramCounter st) in
  match operator condition with
  | OpIsNull =>
      {| conditions := conditions st ++ ["[" +:+ column condition +:+ "] IS NULL"];
         bound := bound st;
         paramCounter := next |}
  | OpIsNotNull =>
      {| conditions :=
           conditions st ++ ["[" +:+ column condition +:+ "] IS NOT NULL"];
         bound := bound st;
         paramCounter := next |}
  | OpIn | OpNotIn =>
      match value condition with
      | Js.Array items =>
          let '(placeholders, inputs') := inParams paramName 0 items (bound st) in
          {| conditions :=
               conditions st ++
               ["[" +:+ column condition +:+ "] " +:+
                operatorText (operator condition) +:+
                " (" +:+ Js.join ", " placeholders +:+ ")"];
             bound := inputs';
             paramCounter := next |}
      | _ =>
          {| conditions := conditions st;
             bound := bound st;
             paramCounter := next |}
      end
  | _ =>
      {| conditions :=
           conditions st ++
           ["[" +:+ column condition +:+ "] " +:+
            operatorText (operator condition) +:+ " @" +:+ paramName];
         bound := <[paramName := value condition]> (bound st);
         paramCounter := next |}
  end.

(** The whole loop, from an empty [conditions] array. *)
Definition whereLoop (prefix : string) (start : nat)
    (inputs : gmap string Js.Value) (where_ : list WhereCondition) : WhereState :=
  foldl (whereStep prefix)
        {| conditions := []; bound := inputs; paramCounter := start |} where_.

Definition joinText (join : JoinCondition) : string :=
  " " +:+ joinTypeText (type join) +:+ " JOIN [" +:+ join_table join +:+
  "] ON " +:+ on join.

Definition orderText (order : OrderTerm) : string :=
  "[" +:+ order_column order +:+ "] " +:+ directionText (direction order).

Definition buildSelectQuery (params : QueryParams) : QueryResult :=
  let table := table params in
  let columns := default ["*"] (columns params) in
  let where_ := default [] (where_ params) in
  let joins := default [] (joins params) in
  let orderBy := default [] (orderBy params) in
  let query := "SELECT " +:+ Js.join ", " columns +:+ " FROM [" +:+ table +:+ "]" in
  let query :=
    if (0 <? length joins)%nat
    then foldl (fun q join => q +:+ joinText join) query joins
    else query in
  let '(query, inputs) :=
    if (0 <? length where_)%nat
    then
      let st := whereLoop "param" 1 ∅ where_ in
      (query +:+ " WHERE " +:+ Js.join " AND " (conditions st), bound st)
    else (query, ∅) in
  let query :=
    if (0 <? length orderBy)%nat
    then query +:+ " ORDER BY " +:+ Js.join ", " (map orderText orderBy)
    else query in
  let query :=
    if Js.truthy (limit params) then
      if Js.truthy (offset params) then
        query +:+ " OFFSET " +:+ Js.showZ (default 0%Z (offset params)) +:+
        " ROWS FETCH NEXT " +:+ Js.showZ (default 0%Z (limit params)) +:+
        " ROWS ONLY"
      else
        "SELECT TOP " +:+ Js.showZ (default 0%Z (limit params)) +:+ " " +:+
        Js.join ", " columns +:+ " FROM [" +:+ table +:+ "]" +:+
        Js.substring query (Js.indexOf query " FROM" + 6)
    else query in
  {| query := query; inputs := inputs |}.

Definition buildInsertQuery (table : string) (data : Js.Obj) : QueryResult :=
  let columns := Js.keys data in
  let values := map (fun col => "@" +:+ col) columns in
  let query :=
    "INSERT INTO [" +:+ table +:+ "] ([" +:+ Js.join "], [" columns +:+
    "]) VALUES (" +:+ Js.join ", " values +:+ ")" in
  {| query := query; inputs := list_to_map data |}.

Definition buildUpdateQuery (table : string) (data : Js.Obj)
    (where_ : list WhereCondition) : QueryResult :=
  let setColumns := Js.keys data in
  let setClauses := map (fun col => "[" +:+ col +:+ "] = @" +:+ col) setColumns in
  let query := "UPDATE [" +:+ table +:+ "] SET " +:+ Js.join ", " setClauses in
  let inputs : gmap string Js.Value := list_to_map data in
  if (0 <? length where_)%nat
  then
    (* paramCounter = 1000: "Start high to avoid conflicts with data params" *)
    let st := whereLoop "where_param" 1000 inputs where_ in
    {| query := query +:+ " WHERE " +:+ Js.join " AND " (conditions st);
       inputs := bound st |}
  else {| query := query; inputs := inputs |}.

Definition buildDeleteQuery (table : string) (where_ : list WhereCondition)
    : QueryResult :=
  let query := "DELETE FROM [" +:+ table +:+ "]" in
  if (0 <? length where_)%nat
  then
    let st := whereLoop "param" 1 ∅ where_ in
    {| query := query +:+ " WHERE " +:+ Js.join " AND " (conditions st);
       inputs := bound st |}
  else {| query := query; inputs := ∅ |}.

End QueryBuilder.

(** ** BulkTools (src/tools/bulk-tools.ts) *)

Module BulkTools.

Import QueryBuilder.

(** What one [pool.request()] has received when it is sent: the
    [request.input(name, value)] calls in call order and the text passed to
    [request.query]. The names the batched operations bind are generated
    from letters, digits and underscores, which the driver takes
    ([Mssql.refusesName]), so [request.input] does not throw here. *)
Record Request : Type := {
  parameters : list (string * Js.Value);
  statement : string
}.

(** [l.slice(from, to)] for [0 <= from <= to]. *)
Definition slice {A : Type} (l : list A) (from to : nat) : list A :=
  take (to - from) (drop from l).

(** [for (let i = 0; i < items.length; i += batchSize) { body }], started at
    [i]. The loop does not end when [batchSize] is [0], so the model counts
    iterations down from [fuel] and answers [None] when they run out. *)
Fixpoint forEachBatch {A B : Type} (fuel : nat) (items : list A)
    (batchSize : nat) (i : nat) (body : nat -> list A -> B) : option (list B) :=
  match fuel with
  | O => None
  | S fuel' =>
      if (i <? length items)%nat then
        match forEachBatch fuel' items batchSize (i + batchSize) body with
        | Some rest => Some (body i (slice items i (i + batchSize)) :: rest)
        | None => None
        end
      else Some []
  end.

Record BulkInsertParams : Type := {
  insert_table : string;
  insert_data : list Js.Obj;
  insert_batchSize : nat
}.

(** The body of [batch.forEach((row, batchIndex) => ...)] in [bulkInsert]:
    the parameters bound for the row and its parenthesised placeholder list. *)
Definition insertRow (i : nat) (columns : list string) (batchIndex : nat)
    (row : Js.Obj) : list (string * Js.Value) * string :=
  let cells :=
    imap (fun columnIndex column =>
            ("param_" +:+ Js.showNat (i + batchIndex) +:+ "_" +:+
             Js.showNat columnIndex,
             Js.get row column)) columns in
  (cells, "(" +:+ Js.join ", " (map (fun cell => "@" +:+ cell.1) cells) +:+ ")").

(** The [try] block of [bulkInsert] for the batch starting at [i]; [None]
    when [batch[0]] is undefined and [Object.keys] throws. *)
Definition insertBatch (table : string) (i : nat) (batch : list Js.Obj)
    : option Request :=
  match batch with
  | [] => None
  | first :: _ =>
      let columns := Js.keys first in
      let rows := imap (insertRow i columns) batch in
      Some {| parameters := concat rows.*1;
              statement :=
                "INSERT INTO [" +:+ table +:+ "] ([" +:+
                Js.join "], [" columns +:+ "]) VALUES " +:+
                Js.join ", " rows.*2 +:+
                "; SELECT @@ROWCOUNT as rowsAffected" |}
  end.

Definition bulkInsert (params : BulkInsertParams)
    : option (list (option Request)) :=
  forEachBatch (S (length (insert_data params))) (insert_data params)
    (insert_batchSize params) 0 (insertBatch (insert_table params)).

Record UpdateEntry : Type := {
  data : Js.Obj;
  where_ : list WhereCondition
}.

Record BatchUpdateParams : Type := {
  update_table : string;
  updates : list UpdateEntry;
  update_batchSize : nat
}.

(** The callback over [Object.entries(update.data)]. *)
Definition setClause (i batchIndex columnIndex : nat)
    (entry : string * Js.Value) : (string * Js.Value) * string :=
  let paramName :=
    "update_" +:+ Js.showNat (i + batchIndex) +:+ "_" +:+
    Js.showNat columnIndex in
  ((paramName, entry.2), "[" +:+ entry.1 +:+ "] = @" +:+ paramName).

(** The callback over [update.where] and over [deleteCondition.where]: the
    two are the same text. *)
Definition whereClause (i batchIndex whereIndex : nat)
    (condition : WhereCondition) : list (string * Js.Value) * string :=
  let paramName :=
    "where_" +:+ Js.showNat (i + batchIndex) +:+ "_" +:+
    Js.showNat whereIndex in
  if Js.isDefined (value condition)
  then ([(paramName, value condition)],
        "[" +:+ column condition +:+ "] " +:+
        operatorText (operator condition) +:+ " @" +:+ paramName)
  else ([],
        "[" +:+ column condition +:+ "] " +:+
        operatorText (operator condition)).

Definition updateStatement (table : string) (i batchIndex : nat)
    (update : UpdateEntry) : list (string * Js.Value) * string :=
  let sets := imap (setClause i batchIndex) (data update) in
  let wheres := imap (whereClause i batchIndex) (where_ update) in
  (sets.*1 ++ concat wheres.*1,
   "UPDATE [" +:+ table +:+ "] SET " +:+ Js.join ", " sets.*2 +:+
   " WHERE " +:+ Js.join " AND " wheres.*2).

Definition updateBatch (table : string) (i : nat) (batch : list UpdateEntry)
    : Request :=
  let queries := imap (updateStatement table i) batch in
  {| parameters := concat queries.*1;
     statement :=
       Js.join "; " queries.*2 +:+ "; SELECT @@ROWCOUNT as rowsAffected" |}.

Definition batchUpdate (params : BatchUpdateParams) : option (list Request) :=
  forEachBatch (S (length (updates params))) (updates params)
    (update_batchSize params) 0 (updateBatch (update_table params)).

Record BatchDeleteParams : Type := {
  delete_table : string;
  delete_conditions : list (list WhereCondition);
  delete_batchSize : nat
}.

Definition deleteStatement (table : string) (i batchIndex : nat)
    (where_ : list WhereCondition) : list (string * Js.Value) * string :=
  let wheres := imap (whereClause i batchIndex) where_ in
  (concat wheres.*1,
   "DELETE FROM [" +:+ table +:+ "] WHERE " +:+ Js.join " AND " wheres.*2).

Definition deleteBatch (table : string) (i : nat)
    (batch : list (list WhereCondition)) : Request :=
  let queries := imap (deleteStatement table i) batch in
  {| parameters := concat queries.*1;
     statement :=
       Js.join "; " queries.*2 +:+ "; SELECT @@ROWCOUNT as rowsAffected" |}.

Definition batchDelete (params : BatchDeleteParams) : option (list Request) :=
  forEachBatch (S (length (delete_conditions params)))
    (delete_conditions params) (delete_batchSize params) 0
    (deleteBatch (delete_table params)).

(** Names bound by a request, in binding order. *)
Definition names (r : Request) : list string := (parameters r).*1.

(** The arguments of the batched tools before validation: [batchSize] is
    optional. *)
Record BatchUpdateArgs : Type := {
  args_update_table : string;
  args_updates : list UpdateEntry;
  args_update_batchSize : option nat
}.

Record BatchDeleteArgs : Type := {
  args_delete_table : string;
  args_conditions : list (list WhereCondition);
  args_delete_batchSize : option nat
}.

(** [WhereConditionSchema] of bulk-tools.ts: [column: z.string().min(1)]. *)
Definition WhereConditionSchema (c : WhereCondition) : bool :=
  (1 <=? String.length (column c))%nat.

Definition batchSizeSchema (n : option nat) : bool :=
  match n with
  | Some n => (1 <=? n)%nat && (n <=? 100)%nat
  | None => true
  end.

(** [BatchUpdateSchema.parse]: the validated parameters, or [None] when
    [parse] throws. The record of an entry is the copy [z.record] makes, and
    the [refine] counts the keys of the copy. *)
Definition BatchUpdateSchema (args : BatchUpdateArgs)
    : option BatchUpdateParams :=
  let parsed :=
    map (fun u => {| data := Zod.record (data u); where_ := where_ u |})
        (args_updates args) in
  if (1 <=? String.length (args_update_table args))%nat &&
     forallb (fun u =>
                (0 <? length (Js.keys (data u)))%nat &&
                forallb WhereConditionSchema (where_ u) &&
                (1 <=? length (where_ u))%nat) parsed &&
     (1 <=? length (args_updates args))%nat &&
     batchSizeSchema (args_update_batchSize args)
  then Some {| update_table := args_update_table args;
               updates := parsed;
               update_batchSize := default 50 (args_update_batchSize args) |}
  else None.

Definition BatchDeleteSchema (args : BatchDeleteArgs)
    : option BatchDeleteParams :=
  if (1 <=? String.length (args_delete_table args))%nat &&
     forallb (fun w =>
                forallb WhereConditionSchema w && (1 <=? length w)%nat)
             (args_conditions args) &&
     (1 <=? length (args_conditions args))%nat &&
     batchSizeSchema (args_delete_batchSize args)
  then Some {| delete_table := args_delete_table args;
               delete_conditions := args_conditions args;
               delete_batchSize := default 50 (args_delete_batchSize args) |}
  else None.

(** Outcome of a batched tool handler of index.ts: the input error answered
    by [handleError] when [parse] throws, or the requests sent. *)
Inductive BatchOutcome : Type :=
| BatchInputError
| BatchSent (requests : option (list Request)).

(** The handler registered as [sql_batch_update]. *)
Definition sql_batch_update (args : BatchUpdateArgs) : BatchOutcome :=
  match BatchUpdateSchema args with
  | Some params => BatchSent (batchUpdate params)
  | None => BatchInputError
  end.

(** The handler registered as [sql_batch_delete]. *)
Definition sql_batch_delete (args : BatchDeleteArgs) : BatchOutcome :=
  match BatchDeleteSchema args with
  | Some params => BatchSent (batchDelete params)
  | None => BatchInputError
  end.

(** *** The results of the batched operations *)

(** The object the three batched operations return. [batchCount] is
    [Math.ceil(length / batchSize)], which is not a count ([NaN] or
    [Infinity]) when [batchSize] is [0]: [None]. [errors] is [undefined]
    when no batch failed: [None]. *)
Record BulkResult : Type := {
  success : bool;
  totalRowsAffected : Z;
  batchCount : option nat;
  batchSize : nat;
  errors : option (list string)
}.

(** [`Batch ${Math.floor(i / batchSize) + 1}: ${error.message}`], for a
    positive [batchSize]. *)
Definition batchLabel (i batchSize : nat) (message : string) : string :=
  "Batch " +:+ Js.showNat (i / batchSize + 1) +:+ ": " +:+ message.

(** [Math.ceil(n / batchSize)] *)
Definition ceilDiv (n batchSize : nat) : option nat :=
  if (batchSize =? 0)%nat then None
  else Some ((n + batchSize - 1) / batchSize).

Section Execution.

(** The server behind [pool.request()]. [runQuery db request] is what
    [await request.query(text)] and the reading of the row count off its
    result do to the server state [db]: they throw an error with a message
    ([inl]) or yield the row count ([inr]). [typeError] is the message of
    the error [Object.keys(undefined)] throws. *)
Context {Db : Type}.
Variable runQuery : Db -> Request -> Db * (string + Z).
Variable typeError : string.

(** The loop state: the server, [totalRowsAffected] and [errors]. *)
Definition RunState : Type := Db * Z * list string.

(** One [try { ... } catch (error) { errors.push(...) }] of the loops, for
    the batch starting at [i] whose [try] block built [request] ([None]: it
    threw before sending anything). *)
Definition attempt (i batchSize : nat) (request : option Request)
    (st : RunState) : RunState :=
  let '(db, total, errs) := st in
  match request with
  | Some r =>
      match runQuery db r with
      | (db', inr rows) => (db', (total + rows)%Z, errs)
      | (db', inl message) =>
          (db', total, errs ++ [batchLabel i batchSize message])
      end
  | None => (db, total, errs ++ [batchLabel i batchSize typeError])
  end.

(** The [for] loop of the three operations with its effects, counted down
    from [fuel] like [forEachBatch]. *)
Fixpoint runBatches {A : Type} (fuel : nat) (items : list A)
    (batchSize : nat) (i : nat) (build : nat -> list A -> option Request)
    (st : RunState) : option RunState :=
  match fuel with
  | O => None
  | S fuel' =>
      if (i <? length items)%nat then
        runBatches fuel' items batchSize (i + batchSize) build
          (attempt i batchSize (build i (slice items i (i + batchSize))) st)
      else Some st
  end.

(** The [return] statement the three operations share. *)
Definition report (n batchSize : nat) (st : RunState) : Db * BulkResult :=
  let '(db, total, errs) := st in
  (db, {| success := (length errs =? 0)%nat;
          totalRowsAffected := total;
          batchCount := ceilDiv n batchSize;
          batchSize := batchSize;
          errors := if (0 <? length errs)%nat then Some errs else None |}).

(** [bulkInsert] as a whole: the server after the call and the object
    returned, [None] when the call does not return. *)
Definition bulkInsertRun (params : BulkInsertParams) (db : Db)
    : option (Db * BulkResult) :=
  report (length (insert_data params)) (insert_batchSize params) <$>
  runBatches (S (length (insert_data params))) (insert_data params)
    (insert_batchSize params) 0 (insertBatch (insert_table params))
    (db, 0%Z, []).

Definition batchUpdateRun (params : BatchUpdateParams) (db : Db)
    : option (Db * BulkResult) :=
  report (length (updates params)) (update_batchSize params) <$>
  runBatches (S (length (updates params))) (updates params)
    (update_batchSize params) 0
    (fun i batch => Some (updateBatch (update_table params) i batch))
    (db, 0%Z, []).

Definition batchDeleteRun (params : BatchDeleteParams) (db : Db)
    : option (Db * BulkResult) :=
  report (length (delete_conditions params)) (delete_batchSize params) <$>
  runBatches (S (length (delete_conditions params)))
    (delete_conditions params) (delete_batchSize params) 0
    (fun i batch => Some (deleteBatch (delete_table params) i batch))
    (db, 0%Z, []).

End Execution.

(** *** CSV import *)

(** The [while] loop of [parseCsvLine] over what is left of the line, with
    [inQuotes], [current] and [result] as they stand. An escaped quote
    consumes two characters. *)
Fixpoint scanCsvLine (delimiter : string) (line : string) (inQuotes : bool)
    (current : string) (result : list string) : list string :=
  match line with
  | EmptyString => result ++ [current]
  | String char rest =>
      if Ascii.eqb char Js.quote then
        match inQuotes, rest with
        | true, String next rest' =>
            if Ascii.eqb next Js.quote
            then scanCsvLine delimiter rest' inQuotes
                   (current +:+ String Js.quote EmptyString) result
            else scanCsvLine delimiter rest (negb inQuotes) current result
        | _, _ => scanCsvLine delimiter rest (negb inQuotes) current result
        end
      else if String.eqb (String char EmptyString) delimiter && negb inQuotes
      then scanCsvLine delimiter rest inQuotes "" (result ++ [current])
      else scanCsvLine delimiter rest inQuotes
             (current +:+ String char EmptyString) result
  end.

Definition parseCsvLine (line delimiter : string) : list string :=
  map Js.trim (scanCsvLine delimiter line false "" []).

Section Csv.

(** [numeric field] is [Some v] when neither [Number(field)] nor
    [parseFloat(field)] is [NaN], [v] being the number [parseFloat(field)].
    The reader of JavaScript is [Js.numeric]; it is a parameter here, as
    most of what follows holds whatever is read as a number. *)
Variable numeric : string -> option Js.Value.

(** The value stored for the header at [index]: [values[index] || null],
    then the conversions to number and to boolean. *)
Definition csvValue (values : list string) (index : nat) : Js.Value :=
  match values !! index with
  | Some (String _ _ as field) =>
      match numeric field with
      | Some n => n
      | None =>
          if String.eqb field "true" then Js.Bool true
          else if String.eqb field "false" then Js.Bool false
          else Js.Str field
      end
  | _ => Js.Null
  end.

(** The callback of [headers.forEach] for the header [h.2] at index [h.1]:
    [row[header] = value]. The state is the row together with a flag that
    tells that the prototype of the row has been set to [null]. An
    assignment to [__proto__] reaches the accessor of [Object.prototype] as
    long as the row inherits from it: it creates no property, sets the
    prototype to [null] when the value is [null] and ignores every other
    value a CSV field can have (a number, a boolean, a string). *)
Definition csvCell (values : list string) (st : bool * Js.Obj)
    (h : nat * string) : bool * Js.Obj :=
  let value := csvValue values h.1 in
  if String.eqb h.2 "__proto__" && negb st.1
  then (match value with Js.Null => true | _ => false end, st.2)
  else (st.1, Js.set st.2 h.2 value).

(** The body of [for (const line of dataLines)]: the own properties of the
    row of one line. *)
Definition csvRow (headers : list string) (delimiter line : string) : Js.Obj :=
  let values := parseCsvLine line delimiter in
  (foldl (csvCell values) (false, []) (imap pair headers)).2.

Record CsvOptions : Type := {
  hasHeaders : bool;
  delimiter : string;
  skipRows : nat
}.

(** The non-blank lines [parseCsv] works on. *)
Definition csvLines (csvData : string) (options : CsvOptions) : list string :=
  filter (fun line => (0 < String.length line)%nat)
         (map Js.trim (drop (skipRows options) (Js.split Js.lineFeed csvData))).

Definition parseCsv (csvData : string) (options : CsvOptions)
    : list Js.Obj :=
  match csvLines csvData options with
  | [] => []
  | first :: others =>
      let headers :=
        if hasHeaders options then parseCsvLine first (delimiter options)
        else imap (fun index _ => "column_" +:+ Js.showNat (index + 1))
                  (parseCsvLine first (delimiter options)) in
      let dataLines :=
        if hasHeaders options then others else first :: others in
      map (csvRow headers (delimiter options)) dataLines
  end.

End Csv.

(** The parameters of [importData] for [format: 'csv']. The other format
    goes through [JSON.parse] and is not modelled. *)
Record ImportDataParams : Type := {
  import_table : string;
  import_data : string;
  import_hasHeaders : bool;
  import_delimiter : string;
  import_batchSize : nat;
  import_skipRows : nat
}.

(** The two objects [importData] returns, without their constant [format]
    field: the one of a completed import and the one of the [catch]
    block. *)
Inductive ImportResult : Type :=
| Imported (success : bool) (recordsProcessed : nat) (recordsInserted : Z)
    (batchCount : option nat) (batchSize : nat)
    (errors : option (list string))
| ImportFailed (success : bool) (recordsProcessed : nat)
    (recordsInserted : Z) (error : string).

Section CsvImport.

Context {Db : Type}.
Variable runQuery : Db -> Request -> Db * (string + Z).
Variable typeError : string.
Variable numeric : string -> option Js.Value.

(** [importData] on CSV text: the server after the call and the object
    returned, [None] when the call does not return. *)
Definition importData (params : ImportDataParams) (db : Db)
    : option (Db * ImportResult) :=
  let parsedData :=
    parseCsv numeric (import_data params)
      {| hasHeaders := import_hasHeaders params;
         delimiter := import_delimiter params;
         skipRows := import_skipRows params |} in
  if (length parsedData =? 0)%nat
  then Some (db, ImportFailed false 0 0%Z
                   ("Import failed: " +:+ "No data to import"))
  else
    match bulkInsertRun runQuery typeError
            {| insert_table := import_table params;
               insert_data := parsedData;
               insert_batchSize := import_batchSize params |} db with
    | Some (db', bulkResult) =>
        Some (db', Imported (success bulkResult) (length parsedData)
                     (totalRowsAffected bulkResult) (batchCount bulkResult)
                     (batchSize bulkResult) (errors bulkResult))
    | None => None
    end.

End CsvImport.

(** *** The bulk insert and import tools (schemas, handlers of index.ts) *)

(** The arguments of [sql_bulk_insert] before validation. *)
Record BulkInsertArgs : Type := {
  args_insert_table : string;
  args_insert_data : list Js.Obj;
  args_insert_batchSize : option nat;
  args_insert_timeout : option Z
}.

(** [BulkInsertSchema.parse]: the validated parameters, or [None] when
    [parse] throws. The records are the copies [z.record] makes; the schema
    has no [refine] on them, so a record without keys passes. The timeout is
    validated and, as the requests of the model carry none, dropped. *)
Definition BulkInsertSchema (args : BulkInsertArgs)
    : option BulkInsertParams :=
  if (1 <=? String.length (args_insert_table args))%nat &&
     (1 <=? length (args_insert_data args))%nat &&
     match args_insert_batchSize args with
     | Some n => (1 <=? n)%nat && (n <=? 1000)%nat
     | None => true
     end &&
     match args_insert_timeout args with
     | Some n => (1000 <=? n)%Z && (n <=? 300000)%Z
     | None => true
     end
  then Some {| insert_table := args_insert_table args;
               insert_data := map Zod.record (args_insert_data args);
               insert_batchSize := default 100 (args_insert_batchSize args) |}
  else None.

(** The arguments of [sql_import_data] with [format: 'csv'], before
    validation. A call with [format: 'json'] goes through [JSON.parse] and
    has no counterpart here. *)
Record ImportDataArgs : Type := {
  args_import_table : string;
  args_import_data : string;
  args_import_hasHeaders : option bool;
  args_import_delimiter : option string;
  args_import_batchSize : option nat;
  args_import_skipRows : option nat
}.

Definition ImportDataSchema (args : ImportDataArgs)
    : option ImportDataParams :=
  if (1 <=? String.length (args_import_table args))%nat &&
     (1 <=? String.length (args_import_data args))%nat &&
     match args_import_batchSize args with
     | Some n => (1 <=? n)%nat && (n <=? 1000)%nat
     | None => true
     end
  then Some {| import_table := args_import_table args;
               import_data := args_import_data args;
               import_hasHeaders := default true (args_import_hasHeaders args);
               import_delimiter := default "," (args_import_delimiter args);
               import_batchSize := default 100 (args_import_batchSize args);
               import_skipRows := default 0 (args_import_skipRows args) |}
  else None.

(** Outcome of a handler: the input error answered by [handleError] when
    [parse] throws, or what the operation did ([None]: it does not
    return). *)
Inductive Outcome (R : Type) : Type :=
| InputError
| Ran (result : option R).

Arguments InputError {R}.
Arguments Ran {R} result.

Section Handlers.

Context {Db : Type}.
Variable runQuery : Db -> Request -> Db * (string + Z).
Variable typeError : string.
Variable numeric : string -> option Js.Value.

(** The handler registered as [sql_bulk_insert]. *)
Definition sql_bulk_insert (args : BulkInsertArgs) (db : Db)
    : Outcome (Db * BulkResult) :=
  match BulkInsertSchema args with
  | Some params => Ran (bulkInsertRun runQuery typeError params db)
  | None => InputError
  end.

(** The handler registered as [sql_import_data]. *)
Definition sql_import_data (args : ImportDataArgs) (db : Db)
    : Outcome (Db * ImportResult) :=
  match ImportDataSchema args with
  | Some params => Ran (importData runQuery typeError numeric params db)
  | None => InputError
  end.

End Handlers.

End BulkTools.

(** ** The UPDATE and DELETE tools (schemas, [CrudTools], handlers of index.ts) *)

Module CrudTools.

Import QueryBuilder.

Record UpdateArgs : Type := {
  table : string;
  data : Js.Obj;
  where_ : list WhereCondition
}.

Record DeleteArgs : Type := {
  delete_table : string;
  delete_where : list WhereCondition
}.

(** [z.object({ column: z.string().min(1), operator: z.enum([...]),
    value: z.any().optional() })] on a condition of the right field types. *)
Definition WhereConditionSchema (c : WhereCondition) : bool :=
  (1 <=? String.length (column c))%nat.

(** [UpdateToolSchema.parse]: the validated parameters, or [None] when
    [parse] throws. It asks for a non-empty table name, at least one key in
    the copy [z.record] makes of the record (the [refine]), at least one
    condition, each condition valid. *)
Definition UpdateToolSchema (args : UpdateArgs) : option UpdateArgs :=
  let parsed := Zod.record (data args) in
  if (1 <=? String.length (table args))%nat &&
     (0 <? length (Js.keys parsed))%nat &&
     forallb WhereConditionSchema (where_ args) &&
     (1 <=? length (where_ args))%nat
  then Some {| table := table args; data := parsed; where_ := where_ args |}
  else None.

Definition DeleteToolSchema (args : DeleteArgs) : bool :=
  (1 <=? String.length (delete_table args))%nat &&
  forallb WhereConditionSchema (delete_where args) &&
  (1 <=? length (delete_where args))%nat.

(** What a tool handler of index.ts does with a request. [Schema.parse]
    throws and [handleError] answers: [InputError]. The statement is built
    but [request.input] throws on a parameter name, nothing is sent and
    [handleError] answers: [ParameterError]. Or the statement is handed to
    [request.query] with its parameters: [Submitted]. *)
Inductive ToolOutcome : Type :=
| InputError
| ParameterError
| Submitted (statement : string) (inputs : gmap string Js.Value).

(** [for (const [key, value] of Object.entries(inputs)) request.input(key,
    value)] followed by [request.query(text)]. *)
Definition submit (text : string) (inputs : gmap string Js.Value)
    : ToolOutcome :=
  if existsb Mssql.refusesName (map_to_list inputs).*1
  then ParameterError
  else Submitted text inputs.

Definition executeUpdate (params : UpdateArgs) : ToolOutcome :=
  let r := buildUpdateQuery (table params) (data params) (where_ params) in
  submit (query r +:+ "; SELECT @@ROWCOUNT as rowsAffected") (inputs r).

Definition executeDelete (params : DeleteArgs) : ToolOutcome :=
  let r := buildDeleteQuery (delete_table params) (delete_where params) in
  submit (query r +:+ "; SELECT @@ROWCOUNT as rowsAffected") (inputs r).

(** The handler registered as [sql_update]. *)
Definition sql_update (args : UpdateArgs) : ToolOutcome :=
  match UpdateToolSchema args with
  | Some params => executeUpdate params
  | None => InputError
  end.

(** The handler registered as [sql_delete]. *)
Definition sql_delete (args : DeleteArgs) : ToolOutcome :=
  if DeleteToolSchema args then executeDelete args else InputError.

(** *** SELECT and INSERT tools *)

Record SelectArgs : Type := {
  select_table : string;
  select_columns : option (list string);
  select_where : option (list WhereCondition);
  select_joins : option (list JoinCondition);
  select_orderBy : option (list OrderTerm);
  select_limit : option Z;
  select_offset : option Z
}.

Record InsertArgs : Type := {
  insert_table : string;
  insert_data : Js.Obj
}.

(** [QueryOptions] of src/types/config.ts. *)
Record QueryOptions : Type := {
  timeout : Z;
  maxRows : Z
}.

(** The default value of the [options] parameter of [executeSelect]. *)
Definition defaultQueryOptions : QueryOptions :=
  {| timeout := 30000; maxRows := 1000 |}.

Definition JoinConditionSchema (j : JoinCondition) : bool :=
  (1 <=? String.length (join_table j))%nat && (1 <=? String.length (on j))%nat.

Definition OrderBySchema (o : OrderTerm) : bool :=
  (1 <=? String.length (order_column o))%nat.

(** [z.array(item).optional()] *)
Definition optionalArray {A : Type} (item : A -> bool) (l : option (list A))
    : bool :=
  match l with
  | Some l => forallb item l
  | None => true
  end.

(** [SelectToolSchema]: [limit] is an integer from 1 to 10000 when given,
    [offset] an integer from 0 on. *)
Definition SelectToolSchema (args : SelectArgs) : bool :=
  (1 <=? String.length (select_table args))%nat &&
  optionalArray WhereConditionSchema (select_where args) &&
  optionalArray JoinConditionSchema (select_joins args) &&
  optionalArray OrderBySchema (select_orderBy args) &&
  match select_limit args with
  | Some l => (1 <=? l)%Z && (l <=? 10000)%Z
  | None => true
  end &&
  match select_offset args with
  | Some o => (0 <=? o)%Z
  | None => true
  end.

(** [InsertToolSchema.parse]: the validated parameters, or [None] when
    [parse] throws. The [refine] counts the keys of the copy [z.record]
    makes of the record. *)
Definition InsertToolSchema (args : InsertArgs) : option InsertArgs :=
  let parsed := Zod.record (insert_data args) in
  if (1 <=? String.length (insert_table args))%nat &&
     (0 <? length (Js.keys parsed))%nat
  then Some {| insert_table := insert_table args; insert_data := parsed |}
  else None.

(** The limit [executeSelect] hands to the builder:
    [Math.min(params.limit || options.maxRows, options.maxRows)]. *)
Definition effectiveLimit (limit : option Z) (options : QueryOptions) : Z :=
  Z.min (if Js.truthy limit then default 0%Z limit else maxRows options)
        (maxRows options).

Definition executeSelect (params : SelectArgs) (options : QueryOptions)
    : ToolOutcome :=
  let queryParams :=
    {| QueryBuilder.table := select_table params;
       QueryBuilder.columns := select_columns params;
       QueryBuilder.where_ := select_where params;
       QueryBuilder.joins := select_joins params;
       QueryBuilder.orderBy := select_orderBy params;
       QueryBuilder.limit := Some (effectiveLimit (select_limit params) options);
       QueryBuilder.offset := select_offset params |} in
  let r := buildSelectQuery queryParams in
  submit (query r) (inputs r).

Definition executeInsert (params : InsertArgs) : ToolOutcome :=
  let r := buildInsertQuery (insert_table params) (insert_data params) in
  submit (query r +:+ "; SELECT @@ROWCOUNT as rowsAffected") (inputs r).

(** The handler registered as [sql_select]; it calls [executeSelect] with its
    default options. *)
Definition sql_select (args : SelectArgs) : ToolOutcome :=
  if SelectToolSchema args then executeSelect args defaultQueryOptions
  else InputError.

(** The handler registered as [sql_insert]. *)
Definition sql_insert (args : InsertArgs) : ToolOutcome :=
  match InsertToolSchema args with
  | Some params => executeInsert params
  | None => InputError
  end.

End CrudTools.

(** ** Reading a statement back: the placeholders of a SQL text *)

Module SqlText.

Definition isAt (c : ascii) : bool := Ascii.eqb c "@".

(** Letters, digits and the underscore. *)
Definition isIdentChar (c : ascii) : bool :=
  let n := nat_of_ascii c in
  ((48 <=? n) && (n <=? 57) || (65 <=? n) && (n <=? 90) ||
   (97 <=? n) && (n <=? 122) || (n =? 95))%nat.

(** The longest run of identifier characters [s] starts with. *)
Fixpoint identPrefix (s : string) : string :=
  match s with
  | EmptyString => EmptyString
  | String c s' =>
      if isIdentChar c then String c (identPrefix s') else EmptyString
  end.

(** The placeholders a text references, left to right: each [@] starts one,
    named by the identifier characters that follow it. *)
Fixpoint placeholders (s : string) : list string :=
  match s with
  | EmptyString => []
  | String c s' =>
      if isAt c then identPrefix s' :: placeholders s' else placeholders s'
  end.

(** [s] contains no [@]. *)
Fixpoint noAt (s : string) : bool :=
  match s with
  | EmptyString => true
  | String c s' => negb (isAt c) && noAt s'
  end.

(** [s] consists of identifier characters only. *)
Fixpoint identifier (s : string) : bool :=
  match s with
  | EmptyString => true
  | String c s' => isIdentChar c && identifier s'
  end.

Definition startsIdent (s : string) : bool :=
  match s with
  | EmptyString => false
  | String c _ => isIdentChar c
  end.

(** [s] consists of decimal digits only. *)
Fixpoint digits (s : string) : bool :=
  match s with
  | EmptyString => true
  | String c s' =>
      ((48 <=? nat_of_ascii c) && (nat_of_ascii c <=? 57))%nat && digits s'
  end.

(** [s], put in front of any text that does not start with an identifier
    character, contributes exactly the placeholders [ns]. *)
Definition emits (s : string) (ns : list string) : Prop :=
  forall rest, startsIdent rest = false ->
    placeholders (s +:+ rest) = ns ++ placeholders rest.

(** [s] is empty or starts with a character that ends an identifier. *)
Definition safeStart (s : string) : Prop :=
  forall rest, startsIdent rest = false -> startsIdent (s +:+ rest) = false.

End SqlText.

(** ** Vocabulary of the properties *)

Module Props.

Import QueryBuilder.

Definition isMembership (op : Operator) : bool :=
  match op with OpIn | OpNotIn => true | _ => false end.

(** Two values that differ at most in scalars: both sequences of one length,
    or neither a sequence. *)
Definition sameShape (v1 v2 : Js.Value) : Prop :=
  match v1, v2 with
  | Js.Array l1, Js.Array l2 => length l1 = length l2
  | Js.Array _, _ => False
  | _, Js.Array _ => False
  | _, _ => True
  end.

(** Two predicates on the same column with the same operator whose values
    differ at most in scalars. *)
Definition sameCondition (c1 c2 : WhereCondition) : Prop :=
  column c1 = column c2 /\ operator c1 = operator c2 /\
  (isMembership (operator c1) = true -> sameShape (value c1) (value c2)).

(** Two records with the same keys in the same order. *)
Definition sameRecord (d1 d2 : Js.Obj) : Prop := Js.keys d1 = Js.keys d2.

(** Two SELECT descriptions that differ at most in the scalars of their
    predicates. *)
Definition sameSelect (p1 p2 : QueryParams) : Prop :=
  table p1 = table p2 /\ columns p1 = columns p2 /\ joins p1 = joins p2 /\
  orderBy p1 = orderBy p2 /\ limit p1 = limit p2 /\ offset p1 = offset p2 /\
  option_Forall2 (Forall2 sameCondition) (where_ p1) (where_ p2).

(** No structural string of a SELECT description contains an [@]. *)
Definition cleanSelect (p : QueryParams) : Prop :=
  SqlText.noAt (table p) = true /\
  Forall (fun c => SqlText.noAt c = true) (default ["*"] (columns p)) /\
  Forall (fun j => SqlText.noAt (join_table j) = true /\ SqlText.noAt (on j) = true)
         (default [] (joins p)) /\
  Forall (fun c => SqlText.noAt (column c) = true) (default [] (where_ p)) /\
  Forall (fun o => SqlText.noAt (order_column o) = true) (default [] (orderBy p)).

(** The description with its pagination removed. *)
Definition unpaginated (p : QueryParams) : QueryParams :=
  {| table := table p; columns := columns p; where_ := where_ p;
     joins := joins p; orderBy := orderBy p; limit := None; offset := None |}.

(** The name [inParams] generates for position [i] of the sequence of the
    predicate numbered [k]. *)
Definition inName (prefix : string) (k i : nat) : string :=
  (prefix +:+ Js.showNat k) +:+ "_" +:+ Js.showNat i.


(** The parenthesised placeholder list of a membership clause over [n]
    elements. *)
Definition inList (prefix : string) (k n : nat) : string :=
  "(" +:+ Js.join ", " (map (fun i => "@" +:+ inName prefix k i) (seq 0 n)) +:+
  ")".

(** The clause of a membership predicate over [n] elements. *)
Definition inClause (prefix : string) (k : nat) (c : WhereCondition) (n : nat)
    : string :=
  "[" +:+ column c +:+ "] " +:+ operatorText (operator c) +:+ " " +:+
  inList prefix k n.

(** The name one iteration generates first, [paramName]. *)
Definition plainName (prefix : string) (k : nat) : string :=
  prefix +:+ Js.showNat k.

(** Closed form of the iteration for the predicate numbered [k]: the
    bindings it makes, in order. *)
Definition stepBindings (prefix : string) (k : nat) (c : WhereCondition)
    : list (string * Js.Value) :=
  match operator c with
  | OpIsNull | OpIsNotNull => []
  | OpIn | OpNotIn =>
      match value c with
      | Js.Array items => imap (fun i v => (inName prefix k i, v)) items
      | _ => []
      end
  | _ => [(plainName prefix k, value c)]
  end.

(** Closed form of the iteration: the clauses it pushes. *)
Definition stepClauses (prefix : string) (k : nat) (c : WhereCondition)
    : list string :=
  match operator c with
  | OpIsNull => ["[" +:+ column c +:+ "] IS NULL"]
  | OpIsNotNull => ["[" +:+ column c +:+ "] IS NOT NULL"]
  | OpIn | OpNotIn =>
      match value c with
      | Js.Array items => [inClause prefix k c (length items)]
      | _ => []
      end
  | _ =>
      ["[" +:+ column c +:+ "] " +:+ operatorText (operator c) +:+ " @" +:+
       plainName prefix k]
  end.

(** The placeholder names of the clauses of [stepClauses], clause by clause. *)
Definition stepNames (prefix : string) (k : nat) (c : WhereCondition)
    : list (list string) :=
  match operator c with
  | OpIsNull | OpIsNotNull => [[]]
  | OpIn | OpNotIn =>
      match value c with
      | Js.Array items => [map (inName prefix k) (seq 0 (length items))]
      | _ => []
      end
  | _ => [[plainName prefix k]]
  end.

(** Successive assignments [inputs[name] = value]. *)
Definition bindAll (m : gmap string Js.Value) (bs : list (string * Js.Value))
    : gmap string Js.Value :=
  foldl (fun m b => <[b.1 := b.2]> m) m bs.

Definition loopClauses (prefix : string) (start : nat)
    (ws : list WhereCondition) : list string :=
  concat (imap (fun i c => stepClauses prefix (start + i) c) ws).

Definition loopBindings (prefix : string) (start : nat)
    (ws : list WhereCondition) : list (string * Js.Value) :=
  concat (imap (fun i c => stepBindings prefix (start + i) c) ws).

Definition loopNames (prefix : string) (start : nat)
    (ws : list WhereCondition) : list (list string) :=
  concat (imap (fun i c => stepNames prefix (start + i) c) ws).

(** The text after [SELECT <columns> FROM [<table>]]: joins, WHERE, ORDER BY. *)
Definition selectTail (p : QueryParams) : string :=
  Js.join "" (map joinText (default [] (joins p))) +:+
  (if (0 <? length (default [] (where_ p)))%nat
   then " WHERE " +:+
        Js.join " AND " (loopClauses "param" 1 (default [] (where_ p)))
   else "") +:+
  (if (0 <? length (default [] (orderBy p)))%nat
   then " ORDER BY " +:+ Js.join ", " (map orderText (default [] (orderBy p)))
   else "").

Definition selectHead (p : QueryParams) : string :=
  "SELECT " +:+ Js.join ", " (default ["*"] (columns p)) +:+ " FROM [" +:+
  table p +:+ "]".

(** [s] occurs in [t]. *)
Definition occursIn (s t : string) : Prop :=
  exists before after, t = before +:+ s +:+ after.

(** The placeholders referenced in the text of a built statement are exactly
    the names bound in its parameter map. *)
Definition complete (r : QueryResult) : Prop :=
  list_to_set (SqlText.placeholders (query r)) =@{gset string} dom (inputs r).

(** [ OFFSET <offset> ROWS FETCH NEXT <limit> ROWS ONLY] *)
Definition offsetFetchClause (l o : Z) : string :=
  " OFFSET " +:+ Js.showZ o +:+ " ROWS FETCH NEXT " +:+ Js.showZ l +:+
  " ROWS ONLY".

(** [SELECT TOP <limit> <columns> FROM [<table>]] *)
Definition topHead (p : QueryParams) (l : Z) : string :=
  "SELECT TOP " +:+ Js.showZ l +:+ " " +:+
  Js.join ", " (default ["*"] (columns p)) +:+ " FROM [" +:+ table p +:+ "]".

(** A name generated by the iteration numbered [k]. *)
Definition generatedBy (prefix : string) (k : nat) (x : string) : Prop :=
  x = plainName prefix k \/ exists i, x = inName prefix k i.


(** The names of the SET pool and of the WHERE pool of an UPDATE. *)
Definition setNames (d : Js.Obj) : list string := Js.keys d.

Definition whereNames (ws : list WhereCondition) : list string :=
  (loopBindings "where_param" 1000 ws).*1.

(** A name of a batched operation that carries the batch position [pos]. *)
Definition tagged (pos : nat) (x : string) : Prop :=
  exists prefix idx,
    (prefix = "param_" \/ prefix = "update_" \/ prefix = "where_") /\
    x = prefix +:+ Js.showNat pos +:+ "_" +:+ Js.showNat idx.

(** Names bound by the request of a batch, none when the batch failed before
    any request was made. *)
Definition requestNames (r : option BulkTools.Request) : list string :=
  match r with
  | Some r => BulkTools.names r
  | None => []
  end.

(** The name a batched operation generates for index [idx] of the entry at
    batch position [pos]. *)
Definition positionName (prefix : string) (pos idx : nat) : string :=
  prefix +:+ Js.showNat pos +:+ "_" +:+ Js.showNat idx.

(** A row whose only column is [col]. *)
Definition rowOver (col : string) (row : Js.Obj) : Prop :=
  Js.keys row = [col].

(** A predicate sequence made of one predicate on [col] that carries a
    value. *)
Definition filterOver (col : string) (w : list WhereCondition) : Prop :=
  exists c, w = [c] /\ column c = col /\ Js.isDefined (value c) = true.

(** An update entry that sets [col] and filters on [col]. *)
Definition updateOver (col : string) (u : BulkTools.UpdateEntry) : Prop :=
  rowOver col (BulkTools.data u) /\ filterOver col (BulkTools.where_ u).

(** ** Vocabulary of the further properties *)

Definition isNullTest (op : Operator) : bool :=
  match op with OpIsNull | OpIsNotNull => true | _ => false end.

(** The seven comparison operators: every operator but the membership and
    null tests. *)
Definition isComparison (op : Operator) : bool :=
  negb (isMembership op) && negb (isNullTest op).

(** The clause of a comparison predicate numbered [k]. *)
Definition comparisonClause (prefix : string) (k : nat) (c : WhereCondition)
    : string :=
  "[" +:+ column c +:+ "] " +:+ operatorText (operator c) +:+ " @" +:+
  plainName prefix k.

(** The clause of a null test. *)
Definition nullClause (c : WhereCondition) : string :=
  "[" +:+ column c +:+ "] " +:+ operatorText (operator c).

(** How many parameters the loop binds for a predicate. *)
Definition paramCount (c : WhereCondition) : nat :=
  match operator c with
  | OpIsNull | OpIsNotNull => 0
  | OpIn | OpNotIn =>
      match value c with
      | Js.Array items => length items
      | _ => 0
      end
  | _ => 1
  end.

(** [s1] occurs in [t] and [s2] occurs after it. *)
Definition occursBefore (s1 s2 t : string) : Prop :=
  exists a b c, t = a +:+ s1 +:+ b +:+ s2 +:+ c.

(** ** Runs of the batched operations *)

(** [chunks] cuts [items] into batches of [batchSize]: in order, none empty,
    all of them full except possibly the last, [ceil (n / batchSize)] of
    them. *)
Definition batchesOf {A : Type} (items : list A) (batchSize : nat)
    (chunks : list (list A)) : Prop :=
  concat chunks = items /\
  length chunks = (length items + batchSize - 1) / batchSize /\
  forall j c, chunks !! j = Some c ->
    0 < length c <= batchSize /\
    (S j < length chunks -> length c = batchSize).

(** ** Columns of a bulk insert, as C10 reads them *)






(** The requests [reqs] sent one after the other, each to the server the one
    before it left behind: the answers in order, and the server at the end. *)
Fixpoint outcomes {Db : Type}
    (runQuery : Db -> BulkTools.Request -> Db * (string + Z)) (db : Db)
    (reqs : list BulkTools.Request) : list (string + Z) * Db :=
  match reqs with
  | [] => ([], db)
  | r :: reqs' =>
      let (db', out) := runQuery db r in
      let (outs, db'') := outcomes runQuery db' reqs' in
      (out :: outs, db'')
  end.

Definition rowsOf (out : string + Z) : Z :=
  match out with
  | inr rows => rows
  | inl _ => 0%Z
  end.

Definition succeeded (out : string + Z) : bool :=
  match out with
  | inr _ => true
  | inl _ => false
  end.

(** The entry of [errors] for the answer of the batch numbered [j] from
    [0]. *)
Definition failureOf (j : nat) (out : string + Z) : list string :=
  match out with
  | inr _ => []
  | inl message => ["Batch " +:+ Js.showNat (j + 1) +:+ ": " +:+ message]
  end.

Definition failuresFrom (k : nat) (outs : list (string + Z)) : list string :=
  concat (imap (fun j => failureOf (k + j)) outs).

Definition sumRows (outs : list (string + Z)) : Z :=
  foldr Z.add 0%Z (map rowsOf outs).

(** The returned object [res] and the server it comes with account for the
    requests [reqs] sent to [db]: every request was sent, failed or not; the
    total adds up the row counts of those that succeeded; [errors] lists the
    failed ones by batch number. *)
Definition accounted {Db : Type}
    (runQuery : Db -> BulkTools.Request -> Db * (string + Z))
    (batchSize : nat) (reqs : list BulkTools.Request) (db : Db)
    (res : Db * BulkTools.BulkResult) : Prop :=
  let outs := (outcomes runQuery db reqs).1 in
  res.1 = (outcomes runQuery db reqs).2 /\
  BulkTools.totalRowsAffected res.2 = sumRows outs /\
  BulkTools.errors res.2 =
    match failuresFrom 0 outs with
    | [] => None
    | _ :: _ => Some (failuresFrom 0 outs)
    end /\
  BulkTools.success res.2 = forallb succeeded outs /\
  BulkTools.batchCount res.2 = Some (length reqs) /\
  BulkTools.batchSize res.2 = batchSize.

(** ** Bindings of the batched operations, entry by entry *)

(** Parameters bound by a request, none when the batch failed before any
    request was made. *)
Definition requestBindings (r : option BulkTools.Request)
    : list (string * Js.Value) :=
  match r with
  | Some r => BulkTools.parameters r
  | None => []
  end.

(** The bindings of the row at position [pos] of the input, read through
    the column list [columns]. *)
Definition rowBindings (columns : list string) (pos : nat) (row : Js.Obj)
    : list (string * Js.Value) :=
  imap (fun k column => (positionName "param_" pos k, Js.get row column))
       columns.

(** The bindings of the record of the update at position [pos]. *)
Definition setBindings (pos : nat) (d : Js.Obj) : list (string * Js.Value) :=
  imap (fun k (entry : string * Js.Value) =>
          (positionName "update_" pos k, entry.2)) d.

(** The bindings of the predicates of the entry at position [pos]: one for
    each predicate that carries a value. *)
Definition filterBindings (pos : nat) (ws : list WhereCondition)
    : list (string * Js.Value) :=
  concat (imap (fun k c =>
                  if Js.isDefined (value c)
                  then [(positionName "where_" pos k, value c)]
                  else []) ws).

(** ** Placeholders of the batched statements *)

(** The text of [r] references the names bound to [r], in binding order,
    and after them the server variable [@@ROWCOUNT] of the row count query
    (two [@] signs: an empty name and [ROWCOUNT]). *)
Definition referencesItsBindings (r : BulkTools.Request) : Prop :=
  SqlText.placeholders (BulkTools.statement r) =
  BulkTools.names r ++ [""; "ROWCOUNT"].

(** The column of every predicate of [ws] is free of [@]. *)
Definition cleanFilter (ws : list WhereCondition) : Prop :=
  Forall (fun c => SqlText.noAt (column c) = true) ws.

(** Every key of [d] is free of [@]. *)
Definition cleanRecord (d : Js.Obj) : Prop :=
  Forall (fun k => SqlText.noAt k = true) (Js.keys d).

(** ** CSV lines *)

(** [f] with every double quote doubled. *)
Fixpoint escapeQuotes (f : string) : string :=
  match f with
  | EmptyString => EmptyString
  | String c f' =>
      if Ascii.eqb c Js.quote
      then String Js.quote (String Js.quote (escapeQuotes f'))
      else String c (escapeQuotes f')
  end.

(** The field [f] written between double quotes. *)
Definition quoted (f : string) : string :=
  String Js.quote (escapeQuotes f +:+ String Js.quote EmptyString).

(** The line that carries [fields], each between double quotes, separated
    by the character [d]. *)
Definition csvLine (d : ascii) (fields : list string) : string :=
  Js.join (String d EmptyString) (map quoted fields).

Definition startsWithQuote (s : string) : bool :=
  match s with
  | EmptyString => false
  | String c _ => Ascii.eqb c Js.quote
  end.

(** [s] contains no double quote. *)
Fixpoint noQuote (s : string) : bool :=
  match s with
  | EmptyString => true
  | String c s' => negb (Ascii.eqb c Js.quote) && noQuote s'
  end.

(** [Object.keys] after an assignment to the key [k], from [Object.keys]
    before it. *)
Fixpoint insertKey (ks : list string) (k : string) : list string :=
  match ks with
  | [] => [k]
  | k' :: ks' =>
      if decide (k' = k) then k :: ks'
      else
        match Js.arrayIndex k, Js.arrayIndex k' with
        | Some n, Some n' =>
            if (n <? n')%N then k :: ks else k' :: insertKey ks' k
        | Some _, None => k :: ks
        | None, _ => k' :: insertKey ks' k
        end
  end.

(** Header names that are enumerated in the order they are assigned:
    pairwise distinct, none of them an array index or [__proto__]. *)
Definition plainHeaders (headers : list string) : Prop :=
  NoDup headers /\
  Forall (fun h => Js.arrayIndex h = None) headers /\
  "__proto__" ∉ headers.

(** The names in the header row of a file, none when it has no header
    row. *)
Definition headerRow (csvData : string) (options : BulkTools.CsvOptions)
    : list string :=
  match BulkTools.csvLines csvData options with
  | first :: _ =>
      if BulkTools.hasHeaders options
      then BulkTools.parseCsvLine first (BulkTools.delimiter options)
      else []
  | [] => []
  end.

(** The value of a CSV field as X18 reads it: [null] for a missing or an
    empty field, the number for a field that reads as one, a boolean for
    [true] and [false], the field itself otherwise. *)
Definition cellValue (field : option string) : Js.Value :=
  match field with
  | None => Js.Null
  | Some field =>
      if String.eqb field "" then Js.Null
      else
        match Js.numeric field with
        | Some number => number
        | None =>
            if String.eqb field "true" then Js.Bool true
            else if String.eqb field "false" then Js.Bool false
            else Js.Str field
        end
  end.

(** The names [parseCsv] gives the columns of a file without header row. *)
Definition generatedHeaders (n : nat) : list string :=
  map (fun index => "column_" +:+ Js.showNat (index + 1)) (seq 0 n).

(** [s] contains no line feed. *)
Fixpoint noLineFeed (s : string) : bool :=
  match s with
  | EmptyString => true
  | String c s' => negb (Ascii.eqb c Js.lineFeed) && noLineFeed s'
  end.

(** The carriage return character. *)
Definition carriageReturn : ascii := "013"%char.

(** The text made of [lines], ended the Unix way and the Windows way. *)
Definition unixText (lines : list string) : string :=
  Js.join (String Js.lineFeed EmptyString) lines.

Definition windowsText (lines : list string) : string :=
  Js.join (String carriageReturn (String Js.lineFeed EmptyString)) lines.

End Props.

(** ** Concrete descriptions used below *)

Module Examples.

Import QueryBuilder.

(** Two descriptions with SQL metacharacters in one of them. *)
Definition exampleSelect (v : Js.Value) (vs : list Js.Value) : QueryParams :=
  {| table := "users";
     columns := Some ["id"; "name"];
     where_ := Some [ {| column := "name"; operator := OpLike; value := v |};
                      {| column := "status"; operator := OpNotIn;
                         value := Js.Array vs |};
                      {| column := "deleted"; operator := OpIsNull;
                         value := Js.Undefined |} ];
     joins := None;
     orderBy := Some [ {| order_column := "id"; direction := DESC |} ];
     limit := Some 10%Z;
     offset := Some 20%Z |}.

Definition exampleRecord (name age : Js.Value) : Js.Obj :=
  [("name", name); ("age", age)].

Definition exampleWhere (v : Js.Value) : list WhereCondition :=
  [ {| column := "id"; operator := OpEq; value := v |} ].

(** First page of the users, ten rows, offset given as zero. *)
Definition firstPage : QueryParams :=
  {| table := "users"; columns := None; where_ := None; joins := None;
     orderBy := Some [ {| order_column := "id"; direction := ASC |} ];
     limit := Some 10%Z; offset := Some 0%Z |}.

(** Third page of the same listing. *)
Definition thirdPage : QueryParams :=
  {| table := "users"; columns := None; where_ := None; joins := None;
     orderBy := Some [ {| order_column := "id"; direction := ASC |} ];
     limit := Some 10%Z; offset := Some 20%Z |}.

(** The membership predicate of P3. *)
Definition statusIn : WhereCondition :=
  {| column := "status"; operator := OpIn;
     value := Js.Array [Js.Str "A"; Js.Str "B"; Js.Str "C"] |}.

Definition activeUsers : QueryParams :=
  {| table := "users"; columns := None;
     where_ := Some [ {| column := "age"; operator := OpGe;
                         value := Js.Number 18 |}; statusIn ];
     joins := None; orderBy := None; limit := Some 10%Z; offset := None |}.

(** A membership predicate whose value is a scalar, and one over no element. *)
Definition idInScalar : WhereCondition :=
  {| column := "id"; operator := OpIn; value := Js.Number 5 |}.

Definition idInNothing : WhereCondition :=
  {| column := "id"; operator := OpNotIn; value := Js.Array [] |}.

(** A null test that carries a value all the same. *)
Definition deletedIsNull : WhereCondition :=
  {| column := "deleted"; operator := OpIsNull; value := Js.Null |}.

(** One batched update and one batched delete over the predicate of P3. *)
Definition closeOrders : BulkTools.BatchUpdateParams :=
  {| BulkTools.update_table := "orders";
     BulkTools.updates :=
       [ {| BulkTools.data := [("state", Js.Str "closed")];
            BulkTools.where_ := [statusIn] |} ];
     BulkTools.update_batchSize := 50 |}.

Definition purgeOrders : BulkTools.BatchDeleteParams :=
  {| BulkTools.delete_table := "orders";
     BulkTools.delete_conditions := [[statusIn; deletedIsNull]];
     BulkTools.delete_batchSize := 50 |}.

(** An update of a column that is named like a WHERE parameter. *)
Definition collidingRecord : Js.Obj := [("where_param1000", Js.Str "Ann")].

Definition byId : list WhereCondition :=
  [ {| column := "id"; operator := OpEq; value := Js.Number 42 |} ].

(** An UPDATE and a DELETE request without any predicate. *)
Definition updateEverything : CrudTools.UpdateArgs :=
  {| CrudTools.table := "users";
     CrudTools.data := [("active", Js.Bool false)];
     CrudTools.where_ := [] |}.

Definition deleteEverything : CrudTools.DeleteArgs :=
  {| CrudTools.delete_table := "users"; CrudTools.delete_where := [] |}.

Definition batchUpdateEverything : BulkTools.BatchUpdateArgs :=
  {| BulkTools.args_update_table := "users";
     BulkTools.args_updates :=
       [ {| BulkTools.data := [("active", Js.Bool false)];
            BulkTools.where_ := [] |} ];
     BulkTools.args_update_batchSize := None |}.

Definition batchDeleteEverything : BulkTools.BatchDeleteArgs :=
  {| BulkTools.args_delete_table := "users";
     BulkTools.args_conditions := [[]];
     BulkTools.args_delete_batchSize := None |}.

(** Five rows over the column [name], inserted two at a time, and the
    matching batched update and delete. *)
Definition fiveNames : BulkTools.BulkInsertParams :=
  {| BulkTools.insert_table := "users";
     BulkTools.insert_data :=
       map (fun v => [("name", Js.Str v)]) ["a"; "b"; "c"; "d"; "e"];
     BulkTools.insert_batchSize := 2 |}.

Definition renameFive : BulkTools.BatchUpdateParams :=
  {| BulkTools.update_table := "users";
     BulkTools.updates :=
       map (fun v =>
              {| BulkTools.data := [("name", Js.Str v)];
                 BulkTools.where_ :=
                   [ {| column := "name"; operator := OpEq;
                        value := Js.Str v |} ] |})
           ["a"; "b"; "c"; "d"; "e"];
     BulkTools.update_batchSize := 2 |}.

Definition deleteFive : BulkTools.BatchDeleteParams :=
  {| BulkTools.delete_table := "users";
     BulkTools.delete_conditions :=
       map (fun v => [ {| column := "name"; operator := OpEq;
                          value := Js.Str v |} ])
           ["a"; "b"; "c"; "d"; "e"];
     BulkTools.delete_batchSize := 2 |}.

(** Three rows with different key sets, inserted in one batch. *)
Definition raggedRows : BulkTools.BulkInsertParams :=
  {| BulkTools.insert_table := "t";
     BulkTools.insert_data :=
       [ [("a", Js.Number 1); ("b", Js.Number 2)];
         [("b", Js.Number 3); ("c", Js.Number 4)];
         [("a", Js.Number 5)] ];
     BulkTools.insert_batchSize := 3 |}.

(** A join whose ON expression mentions a variable of its own. *)
Definition joinOnVariable : QueryParams :=
  {| table := "users"; columns := None; where_ := None;
     joins := Some [ {| type := INNER; join_table := "orders";
                        on := "orders.user_id = @uid" |} ];
     orderBy := None; limit := None; offset := None |}.

(** Adults that are not deleted and whose name starts with an A, joined to
    their orders and their city, by age then name. *)
Definition ageAtLeast18 : WhereCondition :=
  {| column := "age"; operator := OpGe; value := Js.Number 18 |}.

Definition notDeleted : WhereCondition :=
  {| column := "deleted"; operator := OpIsNull; value := Js.Undefined |}.

Definition nameLikeA : WhereCondition :=
  {| column := "name"; operator := OpLike; value := Js.Str "A%" |}.

Definition joinOrders : JoinCondition :=
  {| type := LEFT; join_table := "orders"; on := "orders.user_id = users.id" |}.

Definition joinCities : JoinCondition :=
  {| type := INNER; join_table := "cities"; on := "cities.id = users.city_id" |}.

Definition byAge : OrderTerm := {| order_column := "age"; direction := DESC |}.

Definition byName : OrderTerm := {| order_column := "name"; direction := ASC |}.

Definition adults : QueryParams :=
  {| table := "users"; columns := Some ["users.id"; "name"];
     where_ := Some [ageAtLeast18; notDeleted; nameLikeA];
     joins := Some [joinOrders; joinCities];
     orderBy := Some [byAge; byName];
     limit := None; offset := Some 40%Z |}.

(** A request for five thousand users, and one for the second page of ten. *)
Definition manyUsers : CrudTools.SelectArgs :=
  {| CrudTools.select_table := "users"; CrudTools.select_columns := None;
     CrudTools.select_where := None; CrudTools.select_joins := None;
     CrudTools.select_orderBy := None;
     CrudTools.select_limit := Some 5000%Z;
     CrudTools.select_offset := None |}.

Definition secondPage : CrudTools.SelectArgs :=
  {| CrudTools.select_table := "users"; CrudTools.select_columns := None;
     CrudTools.select_where := None; CrudTools.select_joins := None;
     CrudTools.select_orderBy := Some [byName];
     CrudTools.select_limit := Some 10%Z;
     CrudTools.select_offset := Some 10%Z |}.

Definition insertAnn : CrudTools.InsertArgs :=
  {| CrudTools.insert_table := "users";
     CrudTools.insert_data := [("name", Js.Str "Ann"); ("age", Js.Number 3)] |}.

(** A server that counts the requests it has received and fails the second
    with a timeout; every other request affects as many rows as it binds
    parameters. *)
Definition secondFails (db : nat) (r : BulkTools.Request)
    : nat * (string + Z) :=
  (S db,
   if (db =? 1)%nat then inl "Timeout"
   else inr (Z.of_nat (length (BulkTools.parameters r)))).

(** A row whose column name is not an identifier, inserted in bulk. *)
Definition spacedRows : BulkTools.BulkInsertParams :=
  {| BulkTools.insert_table := "users";
     BulkTools.insert_data := [[("first name", Js.Str "Ann")]];
     BulkTools.insert_batchSize := 100 |}.

(** Fields that contain the delimiter, a double quote, or nothing. *)
Definition awkwardFields : list string :=
  ["Smith, Ann"; "6" +:+ String Js.quote " nails"; ""].

(** The number reader of the examples: the one of JavaScript. *)
Definition decimalNumeric (field : string) : option Js.Value :=
  Js.numeric field.

(** A file whose fields read as numbers of every kind, or do not. *)
Definition measuresCsv : string :=
  "n,x,big,hex,when,flag" +:+ String Js.lineFeed
  ("-3,2.5,1e21,0x10,Infinity,true" +:+ String Js.lineFeed
  ("+7,.5,-0,12abc,1e400,false" +:+ String Js.lineFeed
  "007,5.,0.1,1e-400,-1e-400,TRUE")).

(** A file with a header row, a blank line and a short line. *)
Definition peopleCsv : string :=
  "id,name,active" +:+ String Js.lineFeed
  ("1, Ann ,true" +:+ String Js.lineFeed
  (String Js.lineFeed
  ("2,Bob" +:+ String Js.lineFeed ""))).

Definition withHeaders : BulkTools.CsvOptions :=
  {| BulkTools.hasHeaders := true; BulkTools.delimiter := ",";
     BulkTools.skipRows := 0 |}.

Definition withoutHeaders : BulkTools.CsvOptions :=
  {| BulkTools.hasHeaders := false; BulkTools.delimiter := ",";
     BulkTools.skipRows := 1 |}.

Definition importPeople : BulkTools.ImportDataParams :=
  {| BulkTools.import_table := "people";
     BulkTools.import_data := peopleCsv;
     BulkTools.import_hasHeaders := true;
     BulkTools.import_delimiter := ",";
     BulkTools.import_batchSize := 1;
     BulkTools.import_skipRows := 0 |}.

(** A direct call with a batch size the schema would refuse. *)
Definition zeroBatch : BulkTools.BulkInsertParams :=
  {| BulkTools.insert_table := "users";
     BulkTools.insert_data := [[("name", Js.Str "a")]];
     BulkTools.insert_batchSize := 0 |}.

(** A column expression that contains [ FROM] itself, with a limit. *)
Definition latestOrder : QueryParams :=
  {| table := "users";
     columns := Some ["(SELECT MAX(id) FROM orders) AS latest"];
     where_ := None; joins := None; orderBy := None;
     limit := Some 5%Z; offset := None |}.

(** The same description as arguments of [sql_select]. *)
Definition latestOrderArgs : CrudTools.SelectArgs :=
  {| CrudTools.select_table := "users";
     CrudTools.select_columns :=
       Some ["(SELECT MAX(id) FROM orders) AS latest"];
     CrudTools.select_where := None; CrudTools.select_joins := None;
     CrudTools.select_orderBy := None;
     CrudTools.select_limit := Some 5%Z;
     CrudTools.select_offset := None |}.

(** A page that starts further down than any integer a Number holds
    exactly. *)
Definition farPage : CrudTools.SelectArgs :=
  {| CrudTools.select_table := "users"; CrudTools.select_columns := None;
     CrudTools.select_where := None; CrudTools.select_joins := None;
     CrudTools.select_orderBy := Some [byName];
     CrudTools.select_limit := Some 10%Z;
     CrudTools.select_offset := Some (10 ^ 21)%Z |}.

(** A membership predicate over a scalar, followed by a comparison: the
    rows of one tenant whose status is among the given ones. *)
Definition statusInScalar : WhereCondition :=
  {| column := "status"; operator := OpIn; value := Js.Str "A" |}.

Definition tenantIs5 : WhereCondition :=
  {| column := "tenant"; operator := OpEq; value := Js.Number 5 |}.

Definition deleteOfTenant : CrudTools.DeleteArgs :=
  {| CrudTools.delete_table := "users";
     CrudTools.delete_where := [statusInScalar; tenantIs5] |}.

(** One record without any column, for [sql_bulk_insert] and for
    [sql_insert]. *)
Definition emptyRecordBulk : BulkTools.BulkInsertArgs :=
  {| BulkTools.args_insert_table := "users";
     BulkTools.args_insert_data := [[]];
     BulkTools.args_insert_batchSize := None;
     BulkTools.args_insert_timeout := None |}.

Definition emptyRecordInsert : CrudTools.InsertArgs :=
  {| CrudTools.insert_table := "users"; CrudTools.insert_data := [] |}.

(** A server that keeps the requests it receives and answers each with a
    syntax error. *)
Definition refusing (log : list BulkTools.Request) (r : BulkTools.Request)
    : list BulkTools.Request * (string + Z) :=
  (log ++ [r], inl "Incorrect syntax near ')'.").


(** Records for [sql_insert]: a column name with a space, and a record
    whose only key is [__proto__]. *)
Definition insertFirstName : CrudTools.InsertArgs :=
  {| CrudTools.insert_table := "users";
     CrudTools.insert_data := [("first name", Js.Str "Ann")] |}.

Definition insertProto : CrudTools.InsertArgs :=
  {| CrudTools.insert_table := "users";
     CrudTools.insert_data := [("__proto__", Js.Object [])] |}.

End Examples.

(** * Properties *)

(** ** Strings *)

Module StringFacts.

Lemma app_nil_l (s : string) : "" +:+ s = s.
Proof. reflexivity. Qed.

Lemma app_cons (c : ascii) (s t : string) :
  String c s +:+ t = String c (s +:+ t).
Proof. reflexivity. Qed.

Lemma app_nil_r (s : string) : s +:+ "" = s.
Proof.
  induction s as [|c s IH]; [reflexivity|].
  now rewrite app_cons, IH.
Qed.

Lemma app_assoc (a b c : string) : (a +:+ b) +:+ c = a +:+ (b +:+ c).
Proof.
  induction a as [|x a IH]; [reflexivity|].
  now rewrite !app_cons, IH.
Qed.

Lemma length_app (a b : string) :
  String.length (a +:+ b) = String.length a + String.length b.
Proof.
  induction a as [|x a IH]; [reflexivity|].
  rewrite app_cons. simpl. now rewrite IH.
Qed.

Lemma startsWith_app (needle rest : string) :
  Js.startsWith needle (needle +:+ rest) = true.
Proof.
  induction needle as [|c needle IH]; [reflexivity|].
  rewrite app_cons. simpl. now rewrite Ascii.eqb_refl.
Qed.

Lemma dropChars_app (n : nat) (a b : string) :
  n <= String.length a -> Js.dropChars n (a +:+ b) = Js.dropChars n a +:+ b.
Proof.
  revert a; induction n as [|n IH]; intros a Hn; [reflexivity|].
  destruct a as [|c a]; simpl in Hn; [lia|].
  rewrite app_cons. simpl. apply IH; lia.
Qed.

(** The first occurrence of a needle is not to the right of a known one. *)
Lemma indexOfFrom_bound (needle a b : string) (i : nat) :
  exists k, Js.indexOfFrom needle (a +:+ needle +:+ b) i = Z.of_nat k /\
            i <= k <= i + String.length a.
Proof.
  revert i; induction a as [|c a IH]; intros i.
  - exists i. split; [|simpl; lia].
    rewrite app_nil_l.
    destruct needle as [|x needle].
    + rewrite app_nil_l. now destruct b.
    + rewrite app_cons. simpl.
      now rewrite Ascii.eqb_refl, startsWith_app.
  - rewrite app_cons. simpl.
    destruct (Js.startsWith needle (String c (a +:+ needle +:+ b))).
    + exists i. split; [reflexivity | lia].
    + destruct (IH (S i)) as (k & Hk & Hb). exists k. split; [exact Hk | lia].
Qed.

Lemma indexOf_bound (needle a b : string) :
  exists k, Js.indexOf (a +:+ needle +:+ b) needle = Z.of_nat k /\
            k <= String.length a.
Proof.
  destruct (indexOfFrom_bound needle a b 0) as (k & Hk & Hb).
  exists k. split; [exact Hk | lia].
Qed.

Lemma join_cons (sep x : string) (l : list string) :
  l <> [] -> Js.join sep (x :: l) = x +:+ sep +:+ Js.join sep l.
Proof. destruct l; [congruence | reflexivity]. Qed.

(** [join] around one element of the list. *)
Lemma join_middle (sep x : string) (l1 l2 : list string) :
  exists before after,
    Js.join sep (l1 ++ x :: l2) = before +:+ x +:+ after.
Proof.
  induction l1 as [|y l1 IH].
  - destruct l2 as [|z l2].
    + exists "", "". simpl. now rewrite app_nil_l, app_nil_r.
    + exists "", (sep +:+ Js.join sep (z :: l2)). reflexivity.
  - destruct IH as (before & after & IH).
    exists (y +:+ sep +:+ before), after.
    change ((y :: l1) ++ x :: l2) with (y :: (l1 ++ x :: l2)).
    rewrite join_cons by (destruct l1; simpl; congruence).
    rewrite IH. now rewrite !app_assoc.
Qed.

Lemma foldl_append {A : Type} (f : A -> string) (l : list A) (q : string) :
  foldl (fun q x => q +:+ f x) q l = q +:+ Js.join "" (map f l).
Proof.
  revert q; induction l as [|x l IH]; intros q.
  - simpl. now rewrite app_nil_r.
  - simpl foldl. rewrite IH. destruct l as [|y l].
    + simpl. now rewrite app_nil_r.
    + simpl map. rewrite (join_cons "" (f x)) by congruence.
      now rewrite app_nil_l, app_assoc.
Qed.

End StringFacts.

(** ** Placeholders of composed texts *)

Module LexFacts.

Import SqlText StringFacts.

Lemma identChar_not_at (c : ascii) : isIdentChar c = true -> isAt c = false.
Proof.
  destruct c as [[] [] [] [] [] [] [] []]; vm_compute; congruence.
Qed.

Lemma digit_identChar (c : ascii) :
  ((48 <=? nat_of_ascii c) && (nat_of_ascii c <=? 57))%nat = true ->
  isIdentChar c = true.
Proof. unfold isIdentChar. intros ->. reflexivity. Qed.

Lemma noAt_app (a b : string) : noAt (a +:+ b) = noAt a && noAt b.
Proof.
  induction a as [|c a IH]; [reflexivity|].
  rewrite app_cons. simpl. rewrite IH. now rewrite andb_assoc.
Qed.

Lemma identifier_app (a b : string) :
  identifier (a +:+ b) = identifier a && identifier b.
Proof.
  induction a as [|c a IH]; [reflexivity|].
  rewrite app_cons. simpl. rewrite IH. now rewrite andb_assoc.
Qed.

Lemma identifier_noAt (s : string) : identifier s = true -> noAt s = true.
Proof.
  induction s as [|c s IH]; simpl; [reflexivity|].
  intros [Hc Hs]%andb_true_iff.
  now rewrite (identChar_not_at c Hc), IH.
Qed.

Lemma digits_identifier (s : string) : digits s = true -> identifier s = true.
Proof.
  induction s as [|c s IH]; simpl; [reflexivity|].
  intros [Hc Hs]%andb_true_iff.
  now rewrite (digit_identChar c Hc), IH.
Qed.

Lemma noAt_dropChars (n : nat) (s : string) :
  noAt s = true -> noAt (Js.dropChars n s) = true.
Proof.
  revert s; induction n as [|n IH]; intros s Hs; [exact Hs|].
  destruct s as [|c s]; [reflexivity|].
  simpl in *. apply andb_true_iff in Hs as [_ Hs]. now apply IH.
Qed.

Lemma noAt_join (sep : string) (l : list string) :
  noAt sep = true -> Forall (fun s => noAt s = true) l ->
  noAt (Js.join sep l) = true.
Proof.
  intros Hsep Hl. induction Hl as [|x l Hx Hl IH]; [reflexivity|].
  destruct l as [|y l]; [exact Hx|].
  rewrite join_cons by congruence.
  now rewrite !noAt_app, Hx, Hsep, IH.
Qed.

Lemma placeholders_noAt (a b : string) :
  noAt a = true -> placeholders (a +:+ b) = placeholders b.
Proof.
  induction a as [|c a IH]; [reflexivity|].
  rewrite app_cons. simpl.
  intros [Hc Ha]%andb_true_iff.
  apply negb_true_iff in Hc. rewrite Hc. now apply IH.
Qed.

Lemma identPrefix_app (n rest : string) :
  identifier n = true -> startsIdent rest = false ->
  identPrefix (n +:+ rest) = n.
Proof.
  intros Hn Hrest. induction n as [|c n IH].
  - rewrite app_nil_l. destruct rest as [|c rest]; [reflexivity|].
    simpl in *. now rewrite Hrest.
  - rewrite app_cons. simpl in *.
    apply andb_true_iff in Hn as [Hc Hn]. now rewrite Hc, IH.
Qed.

Lemma emits_nil : emits "" [].
Proof. intros rest _. reflexivity. Qed.

Lemma emits_noAt (a b : string) (ns : list string) :
  noAt a = true -> emits b ns -> emits (a +:+ b) ns.
Proof.
  intros Ha Hb rest Hrest.
  rewrite app_assoc, placeholders_noAt by exact Ha. now apply Hb.
Qed.

Lemma emits_clean (a : string) : noAt a = true -> emits a [].
Proof.
  intros Ha rest _. now rewrite placeholders_noAt.
Qed.

Lemma emits_app (a b : string) (na nb : list string) :
  emits a na -> emits b nb -> safeStart b -> emits (a +:+ b) (na ++ nb).
Proof.
  intros Ha Hb Hsafe rest Hrest.
  rewrite app_assoc, Ha by now apply Hsafe.
  rewrite Hb by exact Hrest. now rewrite <- List.app_assoc.
Qed.

(** A placeholder followed by a text that ends its name. *)
Lemma emits_at (n b : string) (ns : list string) :
  identifier n = true -> safeStart b -> emits b ns ->
  emits ("@" +:+ n +:+ b) (n :: ns).
Proof.
  intros Hn Hsafe Hb rest Hrest.
  rewrite !app_assoc. change ("@" +:+ n +:+ b +:+ rest)
    with (String "@" (n +:+ b +:+ rest)).
  simpl. rewrite identPrefix_app by (try apply Hsafe; assumption).
  f_equal. rewrite placeholders_noAt by now apply identifier_noAt.
  now apply Hb.
Qed.

Lemma emits_at_end (n : string) : identifier n = true -> emits ("@" +:+ n) [n].
Proof.
  intros Hn.
  replace ("@" +:+ n) with ("@" +:+ n +:+ "") by now rewrite app_nil_r.
  apply emits_at; [exact Hn | | apply emits_nil].
  intros rest Hrest. exact Hrest.
Qed.

Lemma safeStart_nil : safeStart "".
Proof. intros rest Hrest. exact Hrest. Qed.

Lemma safeStart_cons (c : ascii) (s : string) :
  isIdentChar c = false -> safeStart (String c s).
Proof. intros Hc rest _. rewrite app_cons. exact Hc. Qed.

Lemma emits_join (sep : string) (cs : list string) (nss : list (list string)) :
  noAt sep = true -> (forall x, safeStart (sep +:+ x)) ->
  Forall2 emits cs nss -> emits (Js.join sep cs) (concat nss).
Proof.
  intros Hsep Hsafe Hcs. induction Hcs as [|c ns cs nss Hc Hcs IH].
  - apply emits_nil.
  - destruct Hcs as [|c' ns' cs nss Hc' Hcs].
    + simpl. rewrite List.app_nil_r. exact Hc.
    + rewrite join_cons by congruence.
      change (concat (ns :: ns' :: nss)) with (ns ++ concat (ns' :: nss)).
      apply emits_app; [exact Hc | | apply Hsafe].
      apply emits_noAt; [exact Hsep | exact IH].
Qed.

Lemma emits_placeholders (s : string) (ns : list string) :
  emits s ns -> placeholders s = ns.
Proof.
  intros H. specialize (H "" eq_refl).
  rewrite app_nil_r in H. simpl in H. now rewrite List.app_nil_r in H.
Qed.

End LexFacts.

(** ** Generated names *)

Module NameFacts.

Import SqlText StringFacts LexFacts.

Lemma digits_string_of_uint (d : Decimal.uint) :
  digits (NilEmpty.string_of_uint d) = true.
Proof. induction d; simpl; auto. Qed.

Lemma digits_showNat (n : nat) : digits (Js.showNat n) = true.
Proof. apply digits_string_of_uint. Qed.

Lemma identifier_showNat (n : nat) : identifier (Js.showNat n) = true.
Proof. apply digits_identifier, digits_showNat. Qed.

Lemma noAt_numeral (x : Z) : noAt (Js.numeral x) = true.
Proof. apply identifier_noAt, digits_identifier, digits_string_of_uint. Qed.

Lemma noAt_dropTrailingZeros (s : string) :
  noAt s = true -> noAt (Js.dropTrailingZeros s) = true.
Proof.
  induction s as [|c s IH]; [reflexivity|].
  intros [Hc Hs]%andb_true_iff. specialize (IH Hs).
  change (Js.dropTrailingZeros (String c s)) with
    (match Js.dropTrailingZeros s with
     | EmptyString =>
         if Ascii.eqb c "0" then EmptyString else String c EmptyString
     | String _ _ as t => String c t
     end).
  destruct (Js.dropTrailingZeros s) as [|c' t].
  - destruct (Ascii.eqb c "0"); [reflexivity|].
    change (negb (isAt c) && true = true). now rewrite Hc.
  - change (negb (isAt c) && noAt (String c' t) = true).
    now rewrite Hc, IH.
Qed.

Lemma noAt_layout (c : Z) : noAt (Js.layout c) = true.
Proof.
  unfold Js.layout.
  destruct (String.length (Js.numeral c) <=? 21)%nat;
    [apply noAt_numeral|].
  pose proof (noAt_dropTrailingZeros _ (noAt_numeral c)) as H.
  destruct (Js.dropTrailingZeros (Js.numeral c)) as [|first rest];
    [apply noAt_numeral|].
  change (negb (isAt first) && noAt rest = true) in H.
  apply andb_true_iff in H as [Hfirst Hrest].
  assert (Hshow : forall n, noAt (Js.showNat n) = true)
    by (intros n; apply identifier_noAt, identifier_showNat).
  destruct rest as [|c' rest'].
  - rewrite !noAt_app, Hshow.
    change (noAt (String first "")) with (negb (isAt first) && true).
    now rewrite Hfirst.
  - rewrite !noAt_app, Hshow, Hrest.
    change (noAt (String first "")) with (negb (isAt first) && true).
    now rewrite Hfirst.
Qed.

Lemma noAt_showPositive (x : Z) : noAt (Js.showPositive x) = true.
Proof.
  unfold Js.showPositive.
  destruct (x <? 2 ^ 53)%Z; [apply noAt_numeral | apply noAt_layout].
Qed.

Lemma noAt_showZ (z : Z) : noAt (Js.showZ z) = true.
Proof.
  destruct z as [|p|p]; [reflexivity | apply noAt_showPositive |].
  unfold Js.showZ. now rewrite noAt_app, noAt_showPositive.
Qed.

Lemma showNat_inj (a b : nat) : Js.showNat a = Js.showNat b -> a = b.
Proof.
  unfold Js.showNat. intros H.
  apply Unsigned.to_uint_inj.
  assert (Hs : Some (Nat.to_uint a) = Some (Nat.to_uint b))
    by (rewrite <- !NilEmpty.usu; now rewrite H).
  congruence.
Qed.

(** Two digit strings followed by an underscore: the underscore marks where
    the first number ends. *)
Lemma digits_sep_inj (d1 d2 r1 r2 : string) :
  digits d1 = true -> digits d2 = true ->
  d1 +:+ "_" +:+ r1 = d2 +:+ "_" +:+ r2 -> d1 = d2 /\ r1 = r2.
Proof.
  change ("_" +:+ r1) with (String "_" r1).
  change ("_" +:+ r2) with (String "_" r2).
  revert d2; induction d1 as [|c d1 IH]; intros [|c2 d2] H1 H2 Heq.
  - rewrite !app_nil_l in Heq. split; [reflexivity | congruence].
  - rewrite app_nil_l, app_cons in Heq. simpl in H2.
    injection Heq as <- _. discriminate.
  - rewrite app_nil_l, app_cons in Heq. simpl in H1.
    injection Heq as -> _. discriminate.
  - rewrite !app_cons in Heq. injection Heq as -> Heq.
    simpl in H1, H2.
    apply andb_true_iff in H1 as [_ H1]. apply andb_true_iff in H2 as [_ H2].
    destruct (IH d2 H1 H2 Heq) as [-> ->]. split; reflexivity.
Qed.

Lemma digits_no_sep (d r : string) : digits (d +:+ "_" +:+ r) = false.
Proof.
  change ("_" +:+ r) with (String "_" r).
  induction d as [|c d IH]; [reflexivity|].
  rewrite app_cons. simpl. rewrite IH. apply andb_false_r.
Qed.

(** [prefix<a>_<i>] determines [a] and [i]. *)
Lemma indexed_name_inj (prefix : string) (a b i j : nat) :
  prefix +:+ Js.showNat a +:+ "_" +:+ Js.showNat i =
  prefix +:+ Js.showNat b +:+ "_" +:+ Js.showNat j -> a = b /\ i = j.
Proof.
  intros H. apply String.app_inj in H.
  apply digits_sep_inj in H as [Ha Hi]; try apply digits_showNat.
  split; now apply showNat_inj.
Qed.

(** [prefix<a>_<i>] is never a plain [prefix<b>]. *)
Lemma indexed_name_plain (prefix : string) (a b i : nat) :
  prefix +:+ Js.showNat a +:+ "_" +:+ Js.showNat i <> prefix +:+ Js.showNat b.
Proof.
  intros H. apply String.app_inj in H.
  pose proof (digits_showNat b) as Hb. rewrite <- H in Hb.
  now rewrite digits_no_sep in Hb.
Qed.

Lemma plain_name_inj (prefix : string) (a b : nat) :
  prefix +:+ Js.showNat a = prefix +:+ Js.showNat b -> a = b.
Proof. intros H. apply String.app_inj in H. now apply showNat_inj. Qed.

End NameFacts.

(** ** The loop over the predicates in closed form *)

Module WhereFacts.

Import QueryBuilder Props SqlText StringFacts LexFacts NameFacts.

Lemma inParams_closed (paramName : string) (items : list Js.Value) :
  forall (index : nat) (m : gmap string Js.Value),
    inParams paramName index items m =
    (map (fun i => "@" +:+ paramName +:+ "_" +:+ Js.showNat i)
         (seq index (length items)),
     bindAll m (imap (fun i v =>
                        (paramName +:+ "_" +:+ Js.showNat (index + i), v))
                     items)).
Proof.
  induction items as [|v items IH]; intros index m; [reflexivity|].
  simpl inParams. rewrite IH. simpl. f_equal.
  unfold bindAll. simpl. rewrite Nat.add_0_r. f_equal.
  apply imap_ext. intros i x _. simpl. now rewrite Nat.add_succ_r.
Qed.

Lemma whereStep_closed (prefix : string) (st : WhereState) (c : WhereCondition) :
  whereStep prefix st c =
  {| conditions := conditions st ++ stepClauses prefix (paramCounter st) c;
     bound := bindAll (bound st) (stepBindings prefix (paramCounter st) c);
     paramCounter := S (paramCounter st) |}.
Proof.
  unfold whereStep, stepClauses, stepBindings.
  destruct (operator c) eqn:Hop; try reflexivity;
    try (now rewrite List.app_nil_r).
  all: destruct (value c) as [| | | | |items| | |]; try (now rewrite List.app_nil_r).
  all: rewrite inParams_closed; unfold inClause, inName, plainName;
    rewrite Hop; reflexivity.
Qed.

Lemma bindAll_app (m : gmap string Js.Value) (l1 l2 : list (string * Js.Value)) :
  bindAll m (l1 ++ l2) = bindAll (bindAll m l1) l2.
Proof. apply foldl_app. Qed.

Lemma concat_imap_cons {A B : Type} (f : nat -> A -> list B) (k : nat)
    (x : A) (l : list A) :
  concat (imap (fun i c => f (k + i) c) (x :: l)) =
  f k x ++ concat (imap (fun i c => f (S k + i) c) l).
Proof.
  rewrite imap_cons. simpl concat. rewrite Nat.add_0_r. do 2 f_equal.
  apply imap_ext. intros i y _. simpl. now rewrite Nat.add_succ_r.
Qed.

Lemma loopClauses_cons (prefix : string) (k : nat) (c : WhereCondition)
    (ws : list WhereCondition) :
  loopClauses prefix k (c :: ws) =
  stepClauses prefix k c ++ loopClauses prefix (S k) ws.
Proof. apply (concat_imap_cons (stepClauses prefix)). Qed.

Lemma loopBindings_cons (prefix : string) (k : nat) (c : WhereCondition)
    (ws : list WhereCondition) :
  loopBindings prefix k (c :: ws) =
  stepBindings prefix k c ++ loopBindings prefix (S k) ws.
Proof. apply (concat_imap_cons (stepBindings prefix)). Qed.

Lemma loopNames_cons (prefix : string) (k : nat) (c : WhereCondition)
    (ws : list WhereCondition) :
  loopNames prefix k (c :: ws) =
  stepNames prefix k c ++ loopNames prefix (S k) ws.
Proof. apply (concat_imap_cons (stepNames prefix)). Qed.

Lemma foldl_whereStep (prefix : string) (ws : list WhereCondition) :
  forall st,
    foldl (whereStep prefix) st ws =
    {| conditions := conditions st ++ loopClauses prefix (paramCounter st) ws;
       bound := bindAll (bound st) (loopBindings prefix (paramCounter st) ws);
       paramCounter := paramCounter st + length ws |}.
Proof.
  induction ws as [|c ws IH]; intros st.
  - destruct st. simpl. unfold loopClauses, loopBindings. simpl.
    now rewrite List.app_nil_r, Nat.add_0_r.
  - simpl foldl. rewrite IH, whereStep_closed. simpl.
    rewrite loopClauses_cons, loopBindings_cons, bindAll_app,
      <- List.app_assoc.
    f_equal. lia.
Qed.

Lemma whereLoop_closed (prefix : string) (start : nat)
    (m : gmap string Js.Value) (ws : list WhereCondition) :
  whereLoop prefix start m ws =
  {| conditions := loopClauses prefix start ws;
     bound := bindAll m (loopBindings prefix start ws);
     paramCounter := start + length ws |}.
Proof. unfold whereLoop. now rewrite foldl_whereStep. Qed.

End WhereFacts.

(** ** The four builders in closed form *)

Module BuilderFacts.

Import QueryBuilder Props SqlText StringFacts LexFacts NameFacts WhereFacts.

(** The statement before pagination is its head followed by its tail. *)
Lemma select_query (p : QueryParams) :
  query (buildSelectQuery p) =
  let base := selectHead p +:+ selectTail p in
  if Js.truthy (limit p) then
    if Js.truthy (offset p) then
      base +:+ " OFFSET " +:+ Js.showZ (default 0%Z (offset p)) +:+
      " ROWS FETCH NEXT " +:+ Js.showZ (default 0%Z (limit p)) +:+ " ROWS ONLY"
    else
      "SELECT TOP " +:+ Js.showZ (default 0%Z (limit p)) +:+ " " +:+
      Js.join ", " (default ["*"] (columns p)) +:+ " FROM [" +:+ table p +:+
      "]" +:+ Js.substring base (Js.indexOf base " FROM" + 6)
  else base.
Proof.
  unfold buildSelectQuery, selectHead, selectTail.
  set (head := "SELECT " +:+ _).
  assert (Hjoins :
    (if (0 <? length (default [] (joins p)))%nat
     then foldl (fun q join => q +:+ joinText join) head (default [] (joins p))
     else head) =
    head +:+ Js.join "" (map joinText (default [] (joins p)))).
  { destruct (default [] (joins p)) as [|j js] eqn:Hj.
    - simpl. now rewrite app_nil_r.
    - rewrite foldl_append. reflexivity. }
  rewrite Hjoins. clear Hjoins.
  set (js := Js.join "" _).
  destruct (0 <? length (default [] (where_ p)))%nat;
    destruct (0 <? length (default [] (orderBy p)))%nat;
    rewrite ?whereLoop_closed; cbn [conditions bound query];
    rewrite ?app_nil_l, ?app_nil_r, ?app_assoc; reflexivity.
Qed.

Lemma select_inputs (p : QueryParams) :
  inputs (buildSelectQuery p) =
  bindAll ∅ (loopBindings "param" 1 (default [] (where_ p))).
Proof.
  unfold buildSelectQuery.
  destruct (default [] (where_ p)) as [|c ws] eqn:Hw; [reflexivity|].
  change (0 <? length (c :: ws))%nat with true. cbv iota.
  rewrite whereLoop_closed. reflexivity.
Qed.

Lemma delete_closed (t : string) (ws : list WhereCondition) :
  buildDeleteQuery t ws =
  {| query :=
       "DELETE FROM [" +:+ t +:+ "]" +:+
       (if (0 <? length ws)%nat
        then " WHERE " +:+ Js.join " AND " (loopClauses "param" 1 ws) else "");
     inputs := bindAll ∅ (loopBindings "param" 1 ws) |}.
Proof.
  unfold buildDeleteQuery. destruct ws as [|c ws].
  - simpl. now rewrite !app_nil_r.
  - change (0 <? length (c :: ws))%nat with true. cbv iota.
    rewrite whereLoop_closed. cbn [conditions bound].
    now rewrite !app_assoc.
Qed.

Lemma update_closed (t : string) (d : Js.Obj) (ws : list WhereCondition) :
  buildUpdateQuery t d ws =
  {| query :=
       "UPDATE [" +:+ t +:+ "] SET " +:+
       Js.join ", " (map (fun col => "[" +:+ col +:+ "] = @" +:+ col) (Js.keys d))
       +:+
       (if (0 <? length ws)%nat
        then " WHERE " +:+ Js.join " AND " (loopClauses "where_param" 1000 ws)
        else "");
     inputs := bindAll (list_to_map d) (loopBindings "where_param" 1000 ws) |}.
Proof.
  unfold buildUpdateQuery. destruct ws as [|c ws].
  - simpl. now rewrite !app_nil_r.
  - change (0 <? length (c :: ws))%nat with true. cbv iota.
    rewrite whereLoop_closed. cbn [conditions bound].
    now rewrite !app_assoc.
Qed.

(** The clauses depend on the predicates only through their shape. *)
Lemma stepClauses_same (prefix : string) (k : nat) (c1 c2 : WhereCondition) :
  sameCondition c1 c2 -> stepClauses prefix k c1 = stepClauses prefix k c2.
Proof.
  intros (Hcol & Hop & Hshape). unfold stepClauses, inClause.
  rewrite <- Hop, <- Hcol.
  destruct (operator c1); try reflexivity.
  all: specialize (Hshape eq_refl); unfold sameShape in Hshape.
  all: destruct (value c1), (value c2); try reflexivity; try contradiction.
  all: now rewrite Hshape.
Qed.

Lemma loopClauses_same (prefix : string) (ws1 ws2 : list WhereCondition) :
  Forall2 sameCondition ws1 ws2 ->
  forall k, loopClauses prefix k ws1 = loopClauses prefix k ws2.
Proof.
  induction 1 as [|c1 c2 ws1 ws2 Hc Hws IH]; intros k; [reflexivity|].
  rewrite !loopClauses_cons, (stepClauses_same prefix k c1 c2 Hc).
  now rewrite IH.
Qed.

End BuilderFacts.

(** ** Value safety *)

Import QueryBuilder Props SqlText Examples.

(** C1. The SQL text of the four builders does not depend on the values
    supplied by the caller: two SELECT descriptions that differ only in the
    values of their predicates (for a membership predicate, in the elements of
    a sequence of the same length), two records with the same keys and two
    predicate sequences that differ only in values yield the same text from
    [buildSelectQuery], [buildInsertQuery], [buildUpdateQuery] and
    [buildDeleteQuery]. Values therefore reach the output only through the
    parameter map. *)
Theorem C1_sql_text_independent_of_values
    (p1 p2 : QueryParams) (t : string) (d1 d2 : Js.Obj)
    (w1 w2 : list WhereCondition) :
  sameSelect p1 p2 -> sameRecord d1 d2 -> Forall2 sameCondition w1 w2 ->
  query (buildSelectQuery p1) = query (buildSelectQuery p2) /\
  query (buildInsertQuery t d1) = query (buildInsertQuery t d2) /\
  query (buildUpdateQuery t d1 w1) = query (buildUpdateQuery t d2 w2) /\
  query (buildDeleteQuery t w1) = query (buildDeleteQuery t w2).
Proof.
  intros (Ht & Hc & Hj & Ho & Hl & Hoff & Hw) Hd Hws.
  assert (Hlen : length w1 = length w2) by (eapply Forall2_length; eauto).
  split; [|split; [|split]].
  - rewrite !BuilderFacts.select_query. cbv zeta.
    assert (Hbase : selectHead p1 +:+ selectTail p1 =
                    selectHead p2 +:+ selectTail p2).
    { unfold selectHead, selectTail. rewrite Ht, Hc, Hj, Ho.
      destruct Hw as [x y Hxy|]; simpl default; [|reflexivity].
      rewrite (BuilderFacts.loopClauses_same "param" x y Hxy 1).
      now rewrite (Forall2_length _ _ _ Hxy). }
    now rewrite Hbase, Ht, Hc, Hl, Hoff.
  - unfold buildInsertQuery. cbn [query]. now rewrite Hd.
  - rewrite !BuilderFacts.update_closed. cbn [query].
    now rewrite Hd, Hlen, (BuilderFacts.loopClauses_same _ w1 w2 Hws).
  - rewrite !BuilderFacts.delete_closed. cbn [query].
    now rewrite Hlen, (BuilderFacts.loopClauses_same _ w1 w2 Hws).
Qed.

Lemma C1_witness :
  query (buildSelectQuery
           (exampleSelect (Js.Str "x'; DROP TABLE users; --")
                          [Js.Str "a"; Js.Number 1])) =
  query (buildSelectQuery (exampleSelect (Js.Str "ann") [Js.Null; Js.Str "'"]))
  /\
  query (buildInsertQuery "users" (exampleRecord (Js.Str "o'hara") (Js.Number 3))) =
  query (buildInsertQuery "users" (exampleRecord Js.Null (Js.Str "--"))) /\
  query (buildUpdateQuery "users" (exampleRecord (Js.Str "o'hara") (Js.Number 3))
           (exampleWhere (Js.Str "1 OR 1=1"))) =
  query (buildUpdateQuery "users" (exampleRecord Js.Null (Js.Str "--"))
           (exampleWhere (Js.Number 7))) /\
  query (buildDeleteQuery "users" (exampleWhere (Js.Str "1 OR 1=1"))) =
  query (buildDeleteQuery "users" (exampleWhere (Js.Number 7))).
Proof.
  apply (C1_sql_text_independent_of_values
           (exampleSelect (Js.Str "x'; DROP TABLE users; --")
                          [Js.Str "a"; Js.Number 1])
           (exampleSelect (Js.Str "ann") [Js.Null; Js.Str "'"])
           "users"
           (exampleRecord (Js.Str "o'hara") (Js.Number 3))
           (exampleRecord Js.Null (Js.Str "--"))
           (exampleWhere (Js.Str "1 OR 1=1")) (exampleWhere (Js.Number 7))).
  - unfold sameSelect, exampleSelect; simpl.
    do 6 (split; [reflexivity|]).
    constructor. repeat constructor; simpl; intros; try reflexivity;
      try discriminate.
  - reflexivity.
  - repeat constructor; simpl; intros; discriminate.
Defined.

(** ** Placeholders and parameter map *)

Module ParamFacts.

Import StringFacts LexFacts NameFacts WhereFacts BuilderFacts.

Lemma identifier_plainName (prefix : string) (k : nat) :
  identifier prefix = true -> identifier (plainName prefix k) = true.
Proof.
  intros Hp. unfold plainName.
  now rewrite identifier_app, Hp, identifier_showNat.
Qed.

Lemma identifier_inName (prefix : string) (k i : nat) :
  identifier prefix = true -> identifier (inName prefix k i) = true.
Proof.
  intros Hp. unfold inName.
  now rewrite !identifier_app, Hp, !identifier_showNat.
Qed.

(** The parenthesised list of a membership clause, closing bracket included. *)
Lemma emits_in_list (l : list string) :
  Forall (fun n => identifier n = true) l ->
  emits (Js.join ", " (map (fun n => "@" +:+ n) l) +:+ ")") l.
Proof.
  induction 1 as [|n l Hn Hl IH].
  - apply emits_clean. reflexivity.
  - destruct l as [|m l].
    + simpl map. simpl Js.join. rewrite app_assoc.
      apply emits_at; [exact Hn | now apply safeStart_cons |].
      now apply emits_clean.
    + simpl map. rewrite join_cons by congruence. rewrite !app_assoc.
      apply emits_at; [exact Hn | now apply safeStart_cons |].
      apply emits_noAt; [reflexivity | exact IH].
Qed.

Lemma noAt_operatorText (op : Operator) : noAt (operatorText op) = true.
Proof. now destruct op. Qed.

Lemma stepClauses_emits (prefix : string) (k : nat) (c : WhereCondition) :
  identifier prefix = true -> noAt (column c) = true ->
  Forall2 emits (stepClauses prefix k c) (stepNames prefix k c).
Proof.
  intros Hp Hcol. unfold stepClauses, stepNames.
  assert (Hplain : emits ("[" +:+ column c +:+ "] " +:+
                          operatorText (operator c) +:+ " @" +:+
                          plainName prefix k) [plainName prefix k]).
  { apply emits_noAt; [reflexivity|]. apply emits_noAt; [exact Hcol|].
    apply emits_noAt; [reflexivity|].
    apply emits_noAt; [apply noAt_operatorText|].
    change (" @" +:+ plainName prefix k)
      with (" " +:+ "@" +:+ plainName prefix k).
    apply emits_noAt; [reflexivity|].
    now apply emits_at_end, identifier_plainName. }
  assert (Hnull : forall s, noAt s = true ->
                    emits ("[" +:+ column c +:+ s) []).
  { intros s Hs. apply emits_clean. now rewrite !noAt_app, Hcol, Hs. }
  assert (Hin : forall n,
            emits (inClause prefix k c n) (map (inName prefix k) (seq 0 n))).
  { intros n. unfold inClause, inList.
    apply emits_noAt; [reflexivity|]. apply emits_noAt; [exact Hcol|].
    apply emits_noAt; [reflexivity|].
    apply emits_noAt; [apply noAt_operatorText|].
    apply emits_noAt; [reflexivity|]. apply emits_noAt; [reflexivity|].
    rewrite <- (map_map (inName prefix k) (fun n => "@" +:+ n)).
    apply emits_in_list, Forall_forall. intros x Hx.
    apply list_elem_of_In, in_map_iff in Hx as (i & <- & _).
    now apply identifier_inName. }
  destruct (operator c); try (constructor; [exact Hplain | constructor]).
  - destruct (value c); constructor; [apply Hin | constructor].
  - destruct (value c); constructor; [apply Hin | constructor].
  - constructor; [now apply Hnull | constructor].
  - constructor; [now apply Hnull | constructor].
Qed.

Lemma loopClauses_emits (prefix : string) (ws : list WhereCondition) :
  identifier prefix = true ->
  Forall (fun c => noAt (column c) = true) ws ->
  forall k, Forall2 emits (loopClauses prefix k ws) (loopNames prefix k ws).
Proof.
  intros Hp. induction 1 as [|c ws Hc Hws IH]; intros k; [constructor|].
  rewrite loopClauses_cons, loopNames_cons.
  apply Forall2_app; [now apply stepClauses_emits | apply IH].
Qed.

Lemma stepBindings_names (prefix : string) (k : nat) (c : WhereCondition) :
  (stepBindings prefix k c).*1 = concat (stepNames prefix k c).
Proof.
  unfold stepBindings, stepNames.
  destruct (operator c); try reflexivity.
  all: destruct (value c) as [| | | | |items| | |]; try reflexivity.
  all: simpl concat; rewrite List.app_nil_r, fmap_imap.
  all: apply (imap_seq_0 items (inName prefix k)).
Qed.

Lemma loopBindings_names (prefix : string) (ws : list WhereCondition) :
  forall k, (loopBindings prefix k ws).*1 = concat (loopNames prefix k ws).
Proof.
  induction ws as [|c ws IH]; intros k; [reflexivity|].
  rewrite loopBindings_cons, loopNames_cons, fmap_app, concat_app.
  now rewrite stepBindings_names, IH.
Qed.

Lemma dom_bindAll (bs : list (string * Js.Value)) :
  forall m : gmap string Js.Value,
    dom (bindAll m bs) = dom m ∪ list_to_set bs.*1.
Proof.
  induction bs as [|[n v] bs IH]; intros m.
  - simpl. set_solver.
  - unfold bindAll in *. simpl. rewrite IH, dom_insert_L. set_solver.
Qed.

(** What [query.substring(query.indexOf(' FROM') + 6)] keeps of the statement
    built so far: everything from its table on, and possibly some characters
    of what precedes when the column list contains [ FROM] itself. *)
Lemma select_substring (p : QueryParams) :
  let base := selectHead p +:+ selectTail p in
  exists n,
    Js.substring base (Js.indexOf base " FROM" + 6) =
    Js.dropChars n ("SELECT " +:+ Js.join ", " (default ["*"] (columns p)) +:+
                    " FROM ") +:+
    "[" +:+ table p +:+ "]" +:+ selectTail p.
Proof.
  cbv zeta. unfold selectHead.
  set (cols := Js.join ", " (default ["*"] (columns p))).
  set (tail := selectTail p).
  assert (Hsplit :
    ("SELECT " +:+ cols +:+ " FROM [" +:+ table p +:+ "]") +:+ tail =
    ("SELECT " +:+ cols) +:+ " FROM" +:+ (" [" +:+ table p +:+ "]" +:+ tail)).
  { now rewrite !app_assoc. }
  rewrite Hsplit.
  destruct (indexOf_bound " FROM" ("SELECT " +:+ cols)
              (" [" +:+ table p +:+ "]" +:+ tail)) as (k & Hk & Hle).
  rewrite Hk. exists (k + 6). unfold Js.substring.
  replace (Z.to_nat (Z.of_nat k + 6)) with (k + 6) by lia.
  replace (("SELECT " +:+ cols) +:+ " FROM" +:+
           (" [" +:+ table p +:+ "]" +:+ tail))
    with (("SELECT " +:+ cols +:+ " FROM ") +:+
          "[" +:+ table p +:+ "]" +:+ tail)
    by now rewrite !app_assoc.
  apply dropChars_app.
  rewrite !app_assoc, !length_app in *. simpl String.length in *. lia.
Qed.

Lemma emits_where (prefix : string) (k : nat) (ws : list WhereCondition) :
  identifier prefix = true ->
  Forall (fun c => noAt (column c) = true) ws ->
  emits (if (0 <? length ws)%nat
         then " WHERE " +:+ Js.join " AND " (loopClauses prefix k ws) else "")
        (concat (loopNames prefix k ws)).
Proof.
  intros Hp Hws. destruct ws as [|c ws].
  - apply emits_nil.
  - change (0 <? length (c :: ws))%nat with true. cbv iota.
    apply emits_noAt; [reflexivity|].
    apply emits_join; [reflexivity | |now apply loopClauses_emits].
    intros x. now apply safeStart_cons.
Qed.

Lemma safeStart_where (prefix : string) (k : nat) (ws : list WhereCondition) :
  safeStart (if (0 <? length ws)%nat
             then " WHERE " +:+ Js.join " AND " (loopClauses prefix k ws)
             else "").
Proof.
  destruct (0 <? length ws)%nat; [now apply safeStart_cons|].
  apply safeStart_nil.
Qed.

Lemma noAt_joinText (j : JoinCondition) :
  noAt (join_table j) = true -> noAt (on j) = true -> noAt (joinText j) = true.
Proof.
  intros Ht Ho. unfold joinText. rewrite !noAt_app, Ht, Ho.
  now destruct (type j).
Qed.

Lemma noAt_orderText (o : OrderTerm) :
  noAt (order_column o) = true -> noAt (orderText o) = true.
Proof.
  intros Hc. unfold orderText. rewrite !noAt_app, Hc.
  now destruct (direction o).
Qed.

Lemma noAt_selectColumns (p : QueryParams) :
  cleanSelect p -> noAt (Js.join ", " (default ["*"] (columns p))) = true.
Proof. intros (_ & Hc & _). now apply noAt_join. Qed.

Lemma emits_selectTail (p : QueryParams) :
  cleanSelect p ->
  emits (selectTail p) (concat (loopNames "param" 1 (default [] (where_ p)))).
Proof.
  intros (Ht & Hc & Hj & Hw & Ho). unfold selectTail.
  apply emits_noAt.
  { apply noAt_join; [reflexivity|]. apply Forall_fmap.
    eapply Forall_impl; [exact Hj|]. intros j [H1 H2].
    now apply noAt_joinText. }
  rewrite <- (List.app_nil_r (concat _)).
  apply emits_app; [now apply emits_where | |].
  - apply emits_clean.
    destruct (0 <? length (default [] (orderBy p)))%nat; [|reflexivity].
    rewrite noAt_app. apply andb_true_iff. split; [reflexivity|].
    apply noAt_join; [reflexivity|]. apply Forall_fmap.
    eapply Forall_impl; [exact Ho|]. intros o Hcol. now apply noAt_orderText.
  - destruct (0 <? length (default [] (orderBy p)))%nat;
      [now apply safeStart_cons | apply safeStart_nil].
Qed.

Lemma emits_select (p : QueryParams) :
  cleanSelect p ->
  emits (query (buildSelectQuery p))
        (concat (loopNames "param" 1 (default [] (where_ p)))).
Proof.
  intros Hclean. rewrite select_query. cbv zeta.
  pose proof (noAt_selectColumns p Hclean) as Hcols.
  pose proof Hclean as (Ht & _).
  assert (Hbase : emits (selectHead p +:+ selectTail p)
                   (concat (loopNames "param" 1 (default [] (where_ p))))).
  { apply emits_noAt; [|now apply emits_selectTail].
    unfold selectHead. now rewrite !noAt_app, Hcols, Ht. }
  destruct (Js.truthy (limit p)); [|exact Hbase].
  destruct (Js.truthy (offset p)).
  - rewrite <- (List.app_nil_r (concat _)).
    apply emits_app; [exact Hbase | | now apply safeStart_cons].
    apply emits_clean. now rewrite !noAt_app, !noAt_showZ.
  - destruct (select_substring p) as (n & Hsub). cbv zeta in Hsub.
    rewrite Hsub.
    repeat (apply emits_noAt;
            [first [reflexivity | apply noAt_showZ | exact Hcols | exact Ht]|]).
    apply emits_noAt.
    { apply noAt_dropChars. now rewrite !noAt_app, Hcols. }
    repeat (apply emits_noAt; [first [reflexivity | exact Ht]|]).
    now apply emits_selectTail.
Qed.

Lemma emits_setClauses (cols : list string) :
  Forall (fun k => identifier k = true) cols ->
  emits (Js.join ", " (map (fun col => "[" +:+ col +:+ "] = @" +:+ col) cols))
        cols.
Proof.
  intros Hcols.
  replace cols with (concat (map (fun k => [k]) cols)) at 2
    by (clear Hcols; induction cols as [|k cols IH]; simpl;
        [reflexivity | now rewrite IH]).
  apply emits_join; [reflexivity | intros x; now apply safeStart_cons |].
  induction Hcols as [|k cols Hk Hcols IH]; constructor; [|exact IH].
  apply emits_noAt; [reflexivity|].
  apply emits_noAt; [now apply identifier_noAt|].
  change ("] = @" +:+ k) with ("] = " +:+ "@" +:+ k).
  apply emits_noAt; [reflexivity|]. now apply emits_at_end.
Qed.

Lemma complete_of_emits (r : QueryResult) (ns : list string) :
  emits (query r) ns -> dom (inputs r) = list_to_set ns -> complete r.
Proof.
  intros He Hd. unfold complete.
  now rewrite (emits_placeholders _ _ He), Hd.
Qed.

End ParamFacts.

(** ** Parameter completeness *)

Import StringFacts LexFacts NameFacts WhereFacts BuilderFacts ParamFacts.

(** A column name with a space: the brackets make it a legal column, but as the
    name of its own parameter it is cut at the space. *)
Example insert_spaced_column :
  query (buildInsertQuery "users" [("first name", Js.Str "Ann")]) =
    "INSERT INTO [users] ([first name]) VALUES (@first name)" /\
  placeholders (query (buildInsertQuery "users" [("first name", Js.Str "Ann")])) =
    ["first"] /\
  inputs (buildInsertQuery "users" [("first name", Js.Str "Ann")]) =
    {["first name" := Js.Str "Ann"]}.
Proof.
  split; [reflexivity|]. split; [reflexivity|].
  unfold buildInsertQuery. cbn [inputs]. simpl. now rewrite insert_empty.
Qed.

(** Structural strings are copied into the text as they are: an [@] in one of
    them is a placeholder of the text that the builder knows nothing of. *)
Example join_on_variable :
  placeholders (query (buildSelectQuery joinOnVariable)) = ["uid"] /\
  inputs (buildSelectQuery joinOnVariable) = ∅.
Proof. split; reflexivity. Qed.

(** C2, as stated, fails: [buildInsertQuery] names the parameter of a column
    after the column, so for the record [{"first name": "Ann"}] the text
    references [@first] while the map holds the key [first name]. *)
Lemma C2_counterexample :
  ~ complete (buildInsertQuery "users" [("first name", Js.Str "Ann")]).
Proof.
  unfold complete. intros H.
  destruct insert_spaced_column as (_ & Hp & Hi).
  rewrite Hp, Hi, dom_singleton_L in H.
  assert (Hin : "first" ∈@{gset string} {["first name"]}).
  { rewrite <- H. set_solver. }
  apply elem_of_singleton in Hin. discriminate.
Qed.

(** C2, amended. Whenever the structural strings of a description (table,
    column list, join tables and ON expressions, predicate and ordering
    columns) contain no [@] and the keys of the record consist of letters,
    digits and underscores only, the placeholder names referenced in the text
    built by [buildSelectQuery], [buildInsertQuery], [buildUpdateQuery] and
    [buildDeleteQuery] are exactly the keys of the parameter map built with
    it: no placeholder lacks an entry and no entry lacks a placeholder. *)
Theorem C2_placeholders_are_parameter_keys
    (p : QueryParams) (t : string) (d : Js.Obj) (ws : list WhereCondition) :
  cleanSelect p ->
  noAt t = true ->
  Forall (fun k => identifier k = true) (Js.keys d) ->
  Forall (fun c => noAt (column c) = true) ws ->
  complete (buildSelectQuery p) /\
  complete (buildInsertQuery t d) /\
  complete (buildUpdateQuery t d ws) /\
  complete (buildDeleteQuery t ws).
Proof.
  intros Hp Ht Hd Hws.
  assert (Hkeys : noAt (Js.join "], [" (Js.keys d)) = true).
  { apply noAt_join; [reflexivity|].
    eapply Forall_impl; [exact Hd|]. intros k. apply identifier_noAt. }
  split; [|split; [|split]].
  - eapply complete_of_emits; [now apply emits_select|].
    rewrite select_inputs, dom_bindAll, loopBindings_names. set_solver.
  - eapply complete_of_emits.
    + unfold buildInsertQuery. cbn [query].
      apply emits_noAt; [reflexivity|]. apply emits_noAt; [exact Ht|].
      apply emits_noAt; [reflexivity|]. apply emits_noAt; [exact Hkeys|].
      apply emits_noAt; [reflexivity|]. now apply emits_in_list.
    + unfold buildInsertQuery. cbn [inputs]. apply dom_list_to_map_L.
  - rewrite update_closed. eapply complete_of_emits.
    + cbn [query].
      apply emits_noAt; [reflexivity|]. apply emits_noAt; [exact Ht|].
      apply emits_noAt; [reflexivity|].
      apply emits_app;
        [now apply emits_setClauses | now apply emits_where
        | apply safeStart_where].
    + cbn [inputs].
      rewrite dom_bindAll, loopBindings_names, dom_list_to_map_L,
        list_to_set_app_L.
      reflexivity.
  - rewrite delete_closed. eapply complete_of_emits.
    + cbn [query].
      apply emits_noAt; [reflexivity|]. apply emits_noAt; [exact Ht|].
      apply emits_noAt; [reflexivity|]. now apply emits_where.
    + cbn [inputs]. rewrite dom_bindAll, loopBindings_names. set_solver.
Qed.

Lemma C2_witness :
  complete (buildSelectQuery
              (exampleSelect (Js.Str "x'; DROP TABLE users; --")
                             [Js.Str "a"; Js.Number 1])) /\
  complete (buildInsertQuery "users"
              (exampleRecord (Js.Str "o'hara") (Js.Number 3))) /\
  complete (buildUpdateQuery "users"
              (exampleRecord (Js.Str "o'hara") (Js.Number 3))
              (exampleWhere (Js.Str "1 OR 1=1"))) /\
  complete (buildDeleteQuery "users" (exampleWhere (Js.Str "1 OR 1=1"))).
Proof.
  apply (C2_placeholders_are_parameter_keys
           (exampleSelect (Js.Str "x'; DROP TABLE users; --")
                          [Js.Str "a"; Js.Number 1])
           "users" (exampleRecord (Js.Str "o'hara") (Js.Number 3))
           (exampleWhere (Js.Str "1 OR 1=1"))).
  - unfold cleanSelect, exampleSelect; simpl.
    repeat (split; [first [reflexivity | repeat constructor]|]).
    repeat constructor.
  - reflexivity.
  - repeat constructor.
  - repeat constructor.
Defined.

(** ** Pagination *)

Example firstPage_query :
  query (buildSelectQuery firstPage) =
  "SELECT TOP 10 * FROM [users][users] ORDER BY [id] ASC".
Proof. reflexivity. Qed.

Example thirdPage_query :
  query (buildSelectQuery thirdPage) =
  "SELECT * FROM [users] ORDER BY [id] ASC OFFSET 20 ROWS FETCH NEXT 10 ROWS ONLY".
Proof. reflexivity. Qed.

Example latestOrder_unpaginated :
  query (buildSelectQuery (unpaginated latestOrder)) =
  "SELECT (SELECT MAX(id) FROM orders) AS latest FROM [users]".
Proof. reflexivity. Qed.

(** C3 fails on the code. The TOP rewrite resumes the statement six
    characters after the first [ FROM] of its text, which is the FROM of the
    statement only when the column list contains none. For the column
    [(SELECT MAX(id) FROM orders) AS latest] of [users] with limit [5], a
    description [SelectToolSchema] accepts and [sql_select] sends as built,
    the statement is the top-N head followed by the rest of the column
    expression and a second FROM clause, not the top-N form of the
    description, which is
    [SELECT TOP 5 (SELECT MAX(id) FROM orders) AS latest FROM [users]].
    Besides, an offset of [0] is taken for no offset: the statement of
    [firstPage] has the TOP form where the claim has an OFFSET/FETCH
    clause, and it names the table twice. *)
Theorem C3_top_rewrite_splices_at_the_first_from :
  query (buildSelectQuery latestOrder) =
    "SELECT TOP 5 (SELECT MAX(id) FROM orders) AS latest FROM [users]orders) AS latest FROM [users]" /\
  topHead latestOrder 5 +:+ selectTail latestOrder =
    "SELECT TOP 5 (SELECT MAX(id) FROM orders) AS latest FROM [users]" /\
  CrudTools.sql_select latestOrderArgs =
    CrudTools.Submitted
      "SELECT TOP 5 (SELECT MAX(id) FROM orders) AS latest FROM [users]orders) AS latest FROM [users]"
      ∅ /\
  query (buildSelectQuery firstPage) =
    "SELECT TOP 10 * FROM [users][users] ORDER BY [id] ASC" /\
  query (buildSelectQuery (unpaginated firstPage)) +:+ offsetFetchClause 10 0 =
    "SELECT * FROM [users] ORDER BY [id] ASC OFFSET 0 ROWS FETCH NEXT 10 ROWS ONLY".
Proof. repeat split; reflexivity. Qed.

(** ** Membership predicates *)

Module MembershipFacts.

Lemma inName_inj (prefix : string) (a b i j : nat) :
  inName prefix a i = inName prefix b j -> a = b /\ i = j.
Proof.
  unfold inName. rewrite !app_assoc. apply indexed_name_inj.
Qed.

Lemma inName_plain (prefix : string) (a b i : nat) :
  inName prefix a i <> plainName prefix b.
Proof.
  unfold inName, plainName. rewrite !app_assoc. apply indexed_name_plain.
Qed.

Lemma generatedBy_inj (prefix : string) (a b : nat) (x : string) :
  generatedBy prefix a x -> generatedBy prefix b x -> a = b.
Proof.
  intros [Ha | (i & Ha)] [Hb | (j & Hb)]; subst x.
  - unfold plainName in Hb. now apply plain_name_inj in Hb.
  - symmetry in Hb. now apply inName_plain in Hb.
  - now apply inName_plain in Hb.
  - now apply inName_inj in Hb.
Qed.

Lemma NoDup_inNames (prefix : string) (k n : nat) :
  NoDup (map (inName prefix k) (seq 0 n)).
Proof.
  apply (NoDup_fmap_2_strong (inName prefix k)); [|apply NoDup_seq].
  intros i j _ _ H. now apply inName_inj in H.
Qed.

Lemma stepNames_generated (prefix : string) (k : nat) (c : WhereCondition)
    (x : string) :
  x ∈ concat (stepNames prefix k c) -> generatedBy prefix k x.
Proof.
  unfold stepNames.
  assert (Hplain : x ∈ concat [[plainName prefix k]] -> generatedBy prefix k x).
  { simpl. intros ->%list_elem_of_singleton. now left. }
  assert (Hin : forall n,
            x ∈ concat [map (inName prefix k) (seq 0 n)] ->
            generatedBy prefix k x).
  { intros n. simpl. rewrite List.app_nil_r.
    intros (i & -> & _)%list_elem_of_fmap. right. now exists i. }
  destruct (operator c); try exact Hplain;
    try (simpl; intros []%elem_of_nil).
  all: destruct (value c); try apply Hin; simpl; intros []%elem_of_nil.
Qed.

Lemma loopNames_generated (prefix : string) (ws : list WhereCondition)
    (x : string) :
  forall k, x ∈ concat (loopNames prefix k ws) ->
            exists j, k <= j /\ generatedBy prefix j x.
Proof.
  induction ws as [|c ws IH]; intros k.
  - intros []%elem_of_nil.
  - rewrite loopNames_cons, concat_app.
    intros [H | H]%elem_of_app.
    + exists k. split; [lia | now apply stepNames_generated in H].
    + destruct (IH _ H) as (j & Hj & Hg). exists j. split; [lia | exact Hg].
Qed.

Lemma NoDup_stepNames (prefix : string) (k : nat) (c : WhereCondition) :
  NoDup (concat (stepNames prefix k c)).
Proof.
  unfold stepNames.
  destruct (operator c); try (simpl; apply NoDup_singleton);
    try (simpl; apply NoDup_nil_2).
  all: destruct (value c); simpl; try apply NoDup_nil_2.
  all: rewrite List.app_nil_r; apply NoDup_inNames.
Qed.

(** All names generated by one run of the loop are pairwise distinct. *)
Lemma NoDup_loopNames (prefix : string) (ws : list WhereCondition) :
  forall k, NoDup (concat (loopNames prefix k ws)).
Proof.
  induction ws as [|c ws IH]; intros k; [apply NoDup_nil_2|].
  rewrite loopNames_cons, concat_app. apply NoDup_app.
  split; [apply NoDup_stepNames|]. split; [|apply IH].
  intros x Hx Hx'.
  apply stepNames_generated in Hx.
  apply loopNames_generated in Hx' as (j & Hj & Hg).
  pose proof (generatedBy_inj _ _ _ _ Hx Hg). lia.
Qed.

Lemma lookup_bindAll_other (bs : list (string * Js.Value)) (x : string) :
  forall m : gmap string Js.Value,
    x ∉ bs.*1 -> bindAll m bs !! x = m !! x.
Proof.
  induction bs as [|[n v] bs IH]; intros m Hx; [reflexivity|].
  unfold bindAll in *. simpl in *.
  apply not_elem_of_cons in Hx as [Hne Hx].
  rewrite IH by exact Hx. now rewrite lookup_insert_ne.
Qed.

Lemma lookup_bindAll (bs : list (string * Js.Value)) (x : string)
    (v : Js.Value) :
  forall m : gmap string Js.Value,
    NoDup bs.*1 -> (x, v) ∈ bs -> bindAll m bs !! x = Some v.
Proof.
  induction bs as [|[n w] bs IH]; intros m Hnd Hin.
  - now apply elem_of_nil in Hin.
  - simpl in Hnd. apply NoDup_cons in Hnd as [Hn Hnd].
    apply elem_of_cons in Hin as [Heq | Hin].
    + injection Heq as <- <-.
      change (bindAll m ((x, v) :: bs)) with (bindAll (<[x := v]> m) bs).
      rewrite lookup_bindAll_other by exact Hn. apply lookup_insert_eq.
    + change (bindAll m ((n, w) :: bs)) with (bindAll (<[n := w]> m) bs).
      now apply IH.
Qed.

Lemma stepBindings_membership (prefix : string) (k : nat) (c : WhereCondition)
    (items : list Js.Value) :
  isMembership (operator c) = true -> value c = Js.Array items ->
  stepBindings prefix k c = imap (fun i v => (inName prefix k i, v)) items /\
  stepClauses prefix k c = [inClause prefix k c (length items)].
Proof.
  intros Hop Hv. unfold stepBindings, stepClauses. rewrite Hv.
  destruct (operator c); try discriminate; split; reflexivity.
Qed.

Lemma loopBindings_app (prefix : string) (ws1 ws2 : list WhereCondition) :
  forall k, loopBindings prefix k (ws1 ++ ws2) =
            loopBindings prefix k ws1 ++
            loopBindings prefix (k + length ws1) ws2.
Proof.
  induction ws1 as [|c ws1 IH]; intros k.
  - simpl. now rewrite Nat.add_0_r.
  - change ((c :: ws1) ++ ws2) with (c :: (ws1 ++ ws2)).
    rewrite !loopBindings_cons, IH, <- List.app_assoc. simpl length.
    now rewrite Nat.add_succ_r.
Qed.

Lemma loopClauses_app (prefix : string) (ws1 ws2 : list WhereCondition) :
  forall k, loopClauses prefix k (ws1 ++ ws2) =
            loopClauses prefix k ws1 ++
            loopClauses prefix (k + length ws1) ws2.
Proof.
  induction ws1 as [|c ws1 IH]; intros k.
  - simpl. now rewrite Nat.add_0_r.
  - change ((c :: ws1) ++ ws2) with (c :: (ws1 ++ ws2)).
    rewrite !loopClauses_cons, IH, <- List.app_assoc. simpl length.
    now rewrite Nat.add_succ_r.
Qed.

(** The predicate at position [k] of the sequence, seen from the whole run. *)
Lemma loop_at (prefix : string) (start k : nat) (ws : list WhereCondition)
    (c : WhereCondition) :
  ws !! k = Some c ->
  exists cs1 cs2 bs1 bs2,
    loopClauses prefix start ws =
      cs1 ++ stepClauses prefix (start + k) c ++ cs2 /\
    loopBindings prefix start ws =
      bs1 ++ stepBindings prefix (start + k) c ++ bs2.
Proof.
  intros Hk.
  pose proof (take_drop_middle ws k c Hk) as Hsplit.
  pose proof (lookup_lt_Some _ _ _ Hk) as Hlt.
  rewrite <- Hsplit.
  rewrite loopClauses_app, loopBindings_app, loopClauses_cons,
    loopBindings_cons.
  rewrite length_take_le by lia.
  eexists _, _, _, _. split; reflexivity.
Qed.

Lemma membership_bound (prefix : string) (start k : nat)
    (ws : list WhereCondition) (c : WhereCondition) (items : list Js.Value)
    (m : gmap string Js.Value) (i : nat) (v : Js.Value) :
  ws !! k = Some c -> isMembership (operator c) = true ->
  value c = Js.Array items -> items !! i = Some v ->
  bindAll m (loopBindings prefix start ws) !! inName prefix (start + k) i =
  Some v.
Proof.
  intros Hk Hop Hv Hi.
  apply lookup_bindAll.
  - rewrite loopBindings_names. apply NoDup_loopNames.
  - destruct (loop_at prefix start k ws c Hk) as (cs1 & cs2 & bs1 & bs2 & _ & ->).
    destruct (stepBindings_membership prefix (start + k) c items Hop Hv)
      as [-> _].
    apply elem_of_app. right. apply elem_of_app. left.
    now apply (elem_of_lookup_imap_2
                 (fun i v => (inName prefix (start + k) i, v)) items v i).
Qed.

Lemma membership_clause (prefix : string) (start k : nat)
    (ws : list WhereCondition) (c : WhereCondition) (items : list Js.Value) :
  ws !! k = Some c -> isMembership (operator c) = true ->
  value c = Js.Array items ->
  occursIn (inClause prefix (start + k) c (length items))
           (Js.join " AND " (loopClauses prefix start ws)).
Proof.
  intros Hk Hop Hv.
  destruct (loop_at prefix start k ws c Hk) as (cs1 & cs2 & bs1 & bs2 & -> & _).
  destruct (stepBindings_membership prefix (start + k) c items Hop Hv)
    as [_ ->].
  apply join_middle.
Qed.

Lemma occursIn_app (s a t b : string) :
  occursIn s t -> occursIn s (a +:+ t +:+ b).
Proof.
  intros (x & y & ->). exists (a +:+ x), (y +:+ b).
  now rewrite !app_assoc.
Qed.

Lemma occursIn_prefix (s t : string) : occursIn s (s +:+ t).
Proof. exists "", t. reflexivity. Qed.

Lemma occursIn_app_l (s a t : string) : occursIn s t -> occursIn s (a +:+ t).
Proof.
  intros H. rewrite <- (app_nil_r t). now apply occursIn_app.
Qed.

Lemma placeholders_inList (prefix : string) (k n : nat) :
  identifier prefix = true ->
  placeholders (inList prefix k n) = map (inName prefix k) (seq 0 n).
Proof.
  intros Hp. apply emits_placeholders. unfold inList.
  apply emits_noAt; [reflexivity|].
  rewrite <- (map_map (inName prefix k) (fun n => "@" +:+ n)).
  apply emits_in_list, Forall_forall. intros x Hx.
  apply list_elem_of_In, in_map_iff in Hx as (i & <- & _).
  now apply identifier_inName.
Qed.

End MembershipFacts.

Import MembershipFacts.

(** Whatever the pagination, the built SELECT contains the tail of the
    unpaginated statement. *)
Lemma select_query_tail (p : QueryParams) :
  exists before after,
    query (buildSelectQuery p) = before +:+ selectTail p +:+ after.
Proof.
  rewrite select_query. cbv zeta.
  destruct (Js.truthy (limit p)).
  - destruct (Js.truthy (offset p)).
    + eexists (selectHead p), _. rewrite !app_assoc. reflexivity.
    + destruct (select_substring p) as (n & Hsub). cbv zeta in Hsub.
      rewrite Hsub.
      exists ("SELECT TOP " +:+ Js.showZ (default 0%Z (limit p)) +:+ " " +:+
              Js.join ", " (default ["*"] (columns p)) +:+ " FROM [" +:+
              table p +:+ "]" +:+
              Js.dropChars n
                ("SELECT " +:+ Js.join ", " (default ["*"] (columns p)) +:+
                 " FROM ") +:+ "[" +:+ table p +:+ "]"), "".
      now rewrite !app_assoc, app_nil_r.
  - exists (selectHead p), "". now rewrite app_nil_r.
Qed.

Example statusIn_select :
  query (buildSelectQuery activeUsers) =
    "SELECT TOP 10 * FROM [users][users] WHERE [age] >= @param1 AND [status] IN (@param2_0, @param2_1, @param2_2)" /\
  inClause "param" 2 statusIn 3 =
    "[status] IN (@param2_0, @param2_1, @param2_2)".
Proof. split; reflexivity. Qed.

(** C4. A predicate with operator [IN] or [NOT IN] at position [k] of the
    predicate sequence whose value is a sequence of [n] elements: the
    iteration of the loop for it pushes the single clause
    [[col] IN (@<name>_0, ..., @<name>_<n-1>)] and makes exactly the [n]
    assignments of element [i] to [<name>_<i>]; that clause occurs in the text
    built by [buildSelectQuery], [buildUpdateQuery] and [buildDeleteQuery];
    its parenthesised list references exactly [n] placeholders, with pairwise
    distinct names; and in the parameter map of the finished statement the
    [i]-th of these names is bound to the [i]-th element. *)
Theorem C4_membership_expansion
    (p : QueryParams) (t : string) (d : Js.Obj) (ws : list WhereCondition)
    (k : nat) (c : WhereCondition) (items : list Js.Value) :
  where_ p = Some ws -> ws !! k = Some c ->
  isMembership (operator c) = true -> value c = Js.Array items ->
  (forall prefix st,
     whereStep prefix st c =
     {| conditions :=
          conditions st ++ [inClause prefix (paramCounter st) c (length items)];
        bound :=
          bindAll (bound st)
            (imap (fun i v => (inName prefix (paramCounter st) i, v)) items);
        paramCounter := S (paramCounter st) |}) /\
  (occursIn (inClause "param" (1 + k) c (length items))
            (query (buildSelectQuery p)) /\
   occursIn (inClause "where_param" (1000 + k) c (length items))
            (query (buildUpdateQuery t d ws)) /\
   occursIn (inClause "param" (1 + k) c (length items))
            (query (buildDeleteQuery t ws))) /\
  (forall prefix j,
     prefix = "param" \/ prefix = "where_param" ->
     placeholders (inList prefix j (length items)) =
       map (inName prefix j) (seq 0 (length items)) /\
     length (map (inName prefix j) (seq 0 (length items))) = length items /\
     NoDup (map (inName prefix j) (seq 0 (length items)))) /\
  (forall i v, items !! i = Some v ->
     inputs (buildSelectQuery p) !! inName "param" (1 + k) i = Some v /\
     inputs (buildUpdateQuery t d ws) !! inName "where_param" (1000 + k) i =
       Some v /\
     inputs (buildDeleteQuery t ws) !! inName "param" (1 + k) i = Some v).
Proof.
  intros Hp Hk Hop Hv.
  assert (Hlen : (0 <? length ws)%nat = true).
  { apply Nat.ltb_lt. apply lookup_lt_Some in Hk. lia. }
  split; [|split; [|split]].
  - intros prefix st. rewrite whereStep_closed.
    destruct (stepBindings_membership prefix (paramCounter st) c items Hop Hv)
      as [-> ->].
    reflexivity.
  - split; [|split].
    + destruct (select_query_tail p) as (before & after & ->).
      apply occursIn_app. unfold selectTail. rewrite Hp. simpl default.
      rewrite Hlen. apply occursIn_app, occursIn_app_l.
      now apply membership_clause.
    + rewrite update_closed. cbn [query]. rewrite Hlen.
      do 5 apply occursIn_app_l. now apply membership_clause.
    + rewrite delete_closed. cbn [query]. rewrite Hlen.
      do 4 apply occursIn_app_l. now apply membership_clause.
  - intros prefix j Hprefix.
    split; [|split].
    + apply placeholders_inList. now destruct Hprefix as [-> | ->].
    + now rewrite length_map, length_seq.
    + apply NoDup_inNames.
  - intros i v Hi. split; [|split].
    + rewrite select_inputs, Hp. simpl default.
      now apply (membership_bound "param" 1 k ws c items).
    + rewrite update_closed. cbn [inputs].
      now apply (membership_bound "where_param" 1000 k ws c items).
    + rewrite delete_closed. cbn [inputs].
      now apply (membership_bound "param" 1 k ws c items).
Qed.

Lemma C4_witness :
  occursIn (inClause "param" 2 statusIn 3) (query (buildSelectQuery activeUsers))
  /\
  placeholders (inList "param" 2 3) = ["param2_0"; "param2_1"; "param2_2"] /\
  inputs (buildSelectQuery activeUsers) !! inName "param" 2 1 =
    Some (Js.Str "B").
Proof.
  destruct (C4_membership_expansion activeUsers "users"
              (exampleRecord Js.Null Js.Null)
              [ {| column := "age"; operator := OpGe; value := Js.Number 18 |};
                statusIn ]
              1 statusIn [Js.Str "A"; Js.Str "B"; Js.Str "C"]
              eq_refl eq_refl eq_refl eq_refl)
    as (_ & (Hocc & _) & Hph & Hb).
  split; [exact Hocc|]. split.
  - destruct (Hph "param" 2 (or_introl eq_refl)) as (Heq & _). exact Heq.
  - apply (Hb 1 (Js.Str "B") eq_refl).
Defined.

(** ** Batched WHERE clauses *)

(** What the batched operations do with any predicate that carries a value:
    one parameter bound to the whole value, one placeholder after the
    operator, whatever the operator. *)
Lemma whereClause_defined (i batchIndex whereIndex : nat) (c : WhereCondition) :
  Js.isDefined (value c) = true ->
  BulkTools.whereClause i batchIndex whereIndex c =
  ([("where_" +:+ Js.showNat (i + batchIndex) +:+ "_" +:+ Js.showNat whereIndex,
     value c)],
   "[" +:+ column c +:+ "] " +:+ operatorText (operator c) +:+ " @" +:+
   "where_" +:+ Js.showNat (i + batchIndex) +:+ "_" +:+ Js.showNat whereIndex).
Proof. unfold BulkTools.whereClause. now intros ->. Qed.

(** C5 fails on the code. [batchUpdate] and [batchDelete] do not follow the
    operator policy of the builders: for [status IN ("A","B","C")] they bind a
    single parameter to the whole sequence and emit [[status] IN @where_0_0],
    and for a null test that carries a value they bind it and emit
    [[deleted] IS NULL @where_0_1]. *)
Theorem C5_batched_where_ignores_operator_policy :
  BulkTools.batchUpdate closeOrders =
    Some [ {| BulkTools.parameters :=
                [ ("update_0_0", Js.Str "closed");
                  ("where_0_0", Js.Array [Js.Str "A"; Js.Str "B"; Js.Str "C"]) ];
              BulkTools.statement :=
                "UPDATE [orders] SET [state] = @update_0_0 WHERE [status] IN @where_0_0; SELECT @@ROWCOUNT as rowsAffected" |} ] /\
  BulkTools.batchDelete purgeOrders =
    Some [ {| BulkTools.parameters :=
                [ ("where_0_0", Js.Array [Js.Str "A"; Js.Str "B"; Js.Str "C"]);
                  ("where_0_1", Js.Null) ];
              BulkTools.statement :=
                "DELETE FROM [orders] WHERE [status] IN @where_0_0 AND [deleted] IS NULL @where_0_1; SELECT @@ROWCOUNT as rowsAffected" |} ] /\
  query (buildDeleteQuery "orders" [statusIn; deletedIsNull]) =
    "DELETE FROM [orders] WHERE [status] IN (@param1_0, @param1_1, @param1_2) AND [deleted] IS NULL".
Proof. split; [reflexivity|]. split; reflexivity. Qed.

(** ** Malformed membership predicates *)

Example malformed_outputs :
  buildDeleteQuery "users" [idInScalar] =
    {| query := "DELETE FROM [users] WHERE "; inputs := ∅ |} /\
  buildDeleteQuery "users" [idInNothing] =
    {| query := "DELETE FROM [users] WHERE [id] NOT IN ()"; inputs := ∅ |}.
Proof. split; reflexivity. Qed.

(** C6 fails on the code. The builders have no error path: the case of
    the membership operators has an [if (Array.isArray(...))] without an
    [else], so a membership predicate over a scalar is passed over in
    silence. Asked to delete the users of tenant [5] whose status is in
    ["A"], a scalar where a sequence is due, [buildDeleteQuery] returns the
    statement that deletes every user of tenant [5], and [sql_delete], whose
    schema accepts the request, sends it. Alone, such a predicate leaves
    [WHERE ] followed by nothing, and over an empty sequence the statement
    reads [NOT IN ()]; in neither case is an error reported. *)
Theorem C6_malformed_membership_is_not_reported :
  buildDeleteQuery "users" [statusInScalar; tenantIs5] =
    {| query := "DELETE FROM [users] WHERE [tenant] = @param2";
       inputs := {["param2" := Js.Number 5]} |} /\
  CrudTools.sql_delete deleteOfTenant =
    CrudTools.Submitted
      "DELETE FROM [users] WHERE [tenant] = @param2; SELECT @@ROWCOUNT as rowsAffected"
      {["param2" := Js.Number 5]} /\
  buildDeleteQuery "users" [idInScalar] =
    {| query := "DELETE FROM [users] WHERE "; inputs := ∅ |} /\
  buildDeleteQuery "users" [idInNothing] =
    {| query := "DELETE FROM [users] WHERE [id] NOT IN ()"; inputs := ∅ |}.
Proof.
  split; [reflexivity|]. split; [|split; reflexivity].
  vm_compute. reflexivity.
Qed.

(** X25. What the loops of the builders do with a membership predicate
    whose value is no sequence: the iteration pushes no clause and binds no
    parameter, only the counter advances, so the predicates around it are
    emitted as if it were absent but for their numbering; alone in a DELETE
    or an UPDATE it leaves [WHERE ] followed by nothing. When the value is
    an empty sequence the iteration pushes [[col] IN ()] (or [NOT IN ()])
    and binds no parameter. *)
Theorem X25_membership_without_a_sequence_is_passed_over
    (c : WhereCondition) (t : string) (d : Js.Obj)
    (ws1 ws2 : list WhereCondition) :
  isMembership (operator c) = true ->
  (Js.isArray (value c) = false ->
   (forall prefix st,
      whereStep prefix st c =
      {| conditions := conditions st; bound := bound st;
         paramCounter := S (paramCounter st) |}) /\
   (forall prefix start m,
      whereLoop prefix start m (ws1 ++ c :: ws2) =
      foldl (whereStep prefix)
        {| conditions := conditions (whereLoop prefix start m ws1);
           bound := bound (whereLoop prefix start m ws1);
           paramCounter := S (start + length ws1) |} ws2) /\
   buildDeleteQuery t [c] =
     {| query := "DELETE FROM [" +:+ t +:+ "] WHERE "; inputs := ∅ |} /\
   buildUpdateQuery t d [c] =
     {| query := query (buildUpdateQuery t d []) +:+ " WHERE ";
        inputs := list_to_map d |}) /\
  (value c = Js.Array [] ->
   (forall prefix st,
      whereStep prefix st c =
      {| conditions :=
           conditions st ++
           ["[" +:+ column c +:+ "] " +:+ operatorText (operator c) +:+ " ()"];
         bound := bound st;
         paramCounter := S (paramCounter st) |}) /\
   buildDeleteQuery t [c] =
     {| query :=
          "DELETE FROM [" +:+ t +:+ "] WHERE [" +:+ column c +:+ "] " +:+
          operatorText (operator c) +:+ " ()";
        inputs := ∅ |}).
Proof.
  intros Hop. split.
  - intros Hv.
    assert (Hstep : forall prefix st,
              whereStep prefix st c =
              {| conditions := conditions st; bound := bound st;
                 paramCounter := S (paramCounter st) |}).
    { intros prefix st. unfold whereStep.
      destruct (operator c); try discriminate;
        destruct (value c); try discriminate; reflexivity. }
    split; [exact Hstep|]. split; [|split].
    + intros prefix start m. unfold whereLoop.
      rewrite foldl_app. simpl foldl. rewrite Hstep.
      now rewrite !foldl_whereStep.
    + unfold buildDeleteQuery, whereLoop. simpl. rewrite Hstep. simpl.
      now rewrite !app_assoc.
    + unfold buildUpdateQuery, whereLoop. simpl. rewrite Hstep. simpl.
      reflexivity.
  - intros Hv.
    assert (Hstep : forall prefix st,
              whereStep prefix st c =
              {| conditions :=
                   conditions st ++
                   ["[" +:+ column c +:+ "] " +:+
                    operatorText (operator c) +:+ " ()"];
                 bound := bound st;
                 paramCounter := S (paramCounter st) |}).
    { intros prefix st. unfold whereStep. rewrite Hv.
      destruct (operator c); try discriminate; reflexivity. }
    split; [exact Hstep|].
    unfold buildDeleteQuery, whereLoop. simpl. rewrite Hstep. simpl.
    now rewrite !app_assoc.
Qed.

Lemma X25_witness :
  buildDeleteQuery "users" [idInScalar] =
    {| query := "DELETE FROM [" +:+ "users" +:+ "] WHERE "; inputs := ∅ |} /\
  buildUpdateQuery "users" collidingRecord [idInScalar] =
    {| query := query (buildUpdateQuery "users" collidingRecord []) +:+ " WHERE ";
       inputs := list_to_map collidingRecord |}.
Proof.
  destruct (X25_membership_without_a_sequence_is_passed_over idInScalar "users" collidingRecord
              [] [] eq_refl) as [Hscalar _].
  destruct (Hscalar eq_refl) as (_ & _ & Hd & Hu).
  split; [exact Hd | exact Hu].
Defined.

(** ** SET and WHERE parameters of an UPDATE *)

(** How far the two pools are apart: a record key is also a WHERE name only
    if it has the form of a generated name, [where_param<k>] or
    [where_param<k>_<i>]. *)
Lemma update_pools_meet_on_generated (d : Js.Obj) (ws : list WhereCondition)
    (x : string) :
  x ∈ setNames d -> x ∈ whereNames ws ->
  exists k, 1000 <= k /\ generatedBy "where_param" k x.
Proof.
  intros _ Hx. unfold whereNames in Hx. rewrite loopBindings_names in Hx.
  now apply loopNames_generated in Hx.
Qed.

(** C7 fails on the code. The SET parameters of [buildUpdateQuery] are named
    after the record keys and the WHERE parameters [where_param1000],
    [where_param1001], ...: a record key of that form is in both pools. For
    the record [{where_param1000: "Ann"}] and the filter [id = 42] the two
    pools share their only name, the text references it twice and the map
    keeps one entry for it, bound to [42]: the value ["Ann"] is lost. *)
Theorem C7_set_and_where_names_collide :
  setNames collidingRecord = ["where_param1000"] /\
  whereNames byId = ["where_param1000"] /\
  query (buildUpdateQuery "Users" collidingRecord byId) =
    "UPDATE [Users] SET [where_param1000] = @where_param1000 WHERE [id] = @where_param1000" /\
  inputs (buildUpdateQuery "Users" collidingRecord byId) =
    {["where_param1000" := Js.Number 42]}.
Proof.
  split; [reflexivity|]. split; [reflexivity|]. split; [reflexivity|].
  unfold buildUpdateQuery, whereLoop. simpl. unfold plainName.
  change ("where_param" +:+ Js.showNat 1000) with "where_param1000".
  rewrite insert_empty. apply insert_insert_eq.
Qed.

(** ** Mandatory filters *)

(** Called directly, the builders accept an empty predicate sequence and
    return a statement without WHERE; the rejection is the schema's. *)
Example builders_accept_no_filter :
  query (buildUpdateQuery "users" [("active", Js.Bool false)] []) =
    "UPDATE [users] SET [active] = @active" /\
  query (buildDeleteQuery "users" []) = "DELETE FROM [users]".
Proof. split; reflexivity. Qed.

Lemma forallb_Exists_false {A : Type} (f : A -> bool) (l : list A) :
  Exists (fun x => f x = false) l -> forallb f l = false.
Proof.
  induction 1 as [x l Hx | x l _ IH]; simpl.
  - now rewrite Hx.
  - rewrite IH. apply andb_false_r.
Qed.

(** C9 fails on the code. [BulkInsertSchema] has no [refine] on its
    records, unlike the schemas of [sql_insert], [sql_update] and
    [sql_batch_update]: a record without any column passes, and
    [sql_bulk_insert] builds an INSERT with an empty column list and an
    empty VALUES list and sends it to the server, whose complaint comes
    back as the error of batch 1. The same record is answered with an input
    error by [sql_insert], which sends nothing. *)
Theorem C9_bulk_insert_sends_a_record_without_columns :
  BulkTools.BulkInsertSchema emptyRecordBulk =
    Some {| BulkTools.insert_table := "users";
            BulkTools.insert_data := [[]];
            BulkTools.insert_batchSize := 100 |} /\
  BulkTools.sql_bulk_insert refusing "Cannot convert undefined or null to object"
    emptyRecordBulk [] =
    BulkTools.Ran
      (Some ([ {| BulkTools.parameters := [];
                  BulkTools.statement :=
                    "INSERT INTO [users] ([]) VALUES (); SELECT @@ROWCOUNT as rowsAffected" |} ],
             {| BulkTools.success := false;
                BulkTools.totalRowsAffected := 0;
                BulkTools.batchCount := Some 1;
                BulkTools.batchSize := 100;
                BulkTools.errors :=
                  Some ["Batch 1: Incorrect syntax near ')'."] |})) /\
  CrudTools.sql_insert emptyRecordInsert = CrudTools.InputError.
Proof. repeat split; reflexivity. Qed.

(** X24. The four tools that update or delete insist on a filter. A request
    with an empty predicate sequence, an empty table name or, for an
    update, a record that [z.record] leaves without keys is answered with an
    input error by the handler and no statement is built or sent: this
    holds for [sql_update], [sql_delete] and, entry by entry, for
    [sql_batch_update] and [sql_batch_delete]. Every statement [sql_update]
    or [sql_delete] does send contains [ WHERE ]. *)
Theorem X24_unfiltered_requests_are_rejected
    (u : CrudTools.UpdateArgs) (dl : CrudTools.DeleteArgs)
    (bu : BulkTools.BatchUpdateArgs) (bd : BulkTools.BatchDeleteArgs) :
  (CrudTools.where_ u = [] \/ CrudTools.table u = "" \/
   Zod.record (CrudTools.data u) = [] ->
   CrudTools.sql_update u = CrudTools.InputError) /\
  (CrudTools.delete_where dl = [] \/ CrudTools.delete_table dl = "" ->
   CrudTools.sql_delete dl = CrudTools.InputError) /\
  (BulkTools.args_update_table bu = "" \/
   Exists (fun e => BulkTools.where_ e = [] \/
                    Zod.record (BulkTools.data e) = [])
          (BulkTools.args_updates bu) ->
   BulkTools.sql_batch_update bu = BulkTools.BatchInputError) /\
  (BulkTools.args_delete_table bd = "" \/
   Exists (fun w => w = []) (BulkTools.args_conditions bd) ->
   BulkTools.sql_batch_delete bd = BulkTools.BatchInputError) /\
  (forall text params,
     CrudTools.sql_update u = CrudTools.Submitted text params ->
     occursIn " WHERE " text) /\
  (forall text params,
     CrudTools.sql_delete dl = CrudTools.Submitted text params ->
     occursIn " WHERE " text).
Proof.
  split; [|split; [|split; [|split; [|split]]]].
  - unfold CrudTools.sql_update, CrudTools.UpdateToolSchema. cbv zeta.
    intros [-> | [-> | ->]]; simpl; now rewrite ?andb_false_r.
  - unfold CrudTools.sql_delete, CrudTools.DeleteToolSchema.
    intros [-> | ->]; simpl; now rewrite ?andb_false_r.
  - unfold BulkTools.sql_batch_update, BulkTools.BatchUpdateSchema. cbv zeta.
    intros [-> | Hex]; [reflexivity|].
    rewrite forallb_Exists_false; [now rewrite andb_false_r|].
    apply Exists_fmap. eapply Exists_impl; [exact Hex|].
    intros e He. unfold compose. cbn beta in He.
    cbn [BulkTools.data BulkTools.where_].
    destruct He as [He | He]; rewrite He.
    + now rewrite andb_false_r.
    + reflexivity.
  - unfold BulkTools.sql_batch_delete, BulkTools.BatchDeleteSchema.
    intros [-> | Hex]; [reflexivity|].
    rewrite forallb_Exists_false; [now rewrite andb_false_r|].
    eapply Exists_impl; [exact Hex|]. now intros w ->.
  - unfold CrudTools.sql_update, CrudTools.UpdateToolSchema. cbv zeta.
    intros text params.
    destruct (1 <=? length (CrudTools.where_ u))%nat eqn:Hlen;
      [|now rewrite andb_false_r].
    destruct (_ && _); [|discriminate].
    unfold CrudTools.executeUpdate, CrudTools.submit.
    cbn [CrudTools.table CrudTools.data CrudTools.where_].
    destruct (existsb _ _); [discriminate|]. intros [= <- _].
    rewrite update_closed. cbn [query].
    apply Nat.leb_le in Hlen.
    destruct (CrudTools.where_ u) as [|c ws]; [simpl in Hlen; lia|].
    change (0 <? length (c :: ws))%nat with true. cbv iota.
    rewrite !app_assoc. do 4 apply occursIn_app_l. apply occursIn_prefix.
  - unfold CrudTools.sql_delete, CrudTools.DeleteToolSchema.
    intros text params.
    destruct (1 <=? length (CrudTools.delete_where dl))%nat eqn:Hlen;
      [|now rewrite andb_false_r].
    destruct (_ && _); [|discriminate].
    unfold CrudTools.executeDelete, CrudTools.submit.
    destruct (existsb _ _); [discriminate|]. intros [= <- _].
    rewrite delete_closed. cbn [query].
    apply Nat.leb_le in Hlen.
    destruct (CrudTools.delete_where dl) as [|c ws]; [simpl in Hlen; lia|].
    change (0 <? length (c :: ws))%nat with true. cbv iota.
    rewrite !app_assoc. do 3 apply occursIn_app_l. apply occursIn_prefix.
Qed.

Lemma X24_witness :
  CrudTools.sql_update updateEverything = CrudTools.InputError /\
  CrudTools.sql_delete deleteEverything = CrudTools.InputError /\
  BulkTools.sql_batch_update batchUpdateEverything = BulkTools.BatchInputError /\
  BulkTools.sql_batch_delete batchDeleteEverything = BulkTools.BatchInputError.
Proof.
  destruct (X24_unfiltered_requests_are_rejected updateEverything
              deleteEverything batchUpdateEverything batchDeleteEverything)
    as (Hu & Hd & Hbu & Hbd & _).
  split; [apply Hu; left; reflexivity|].
  split; [apply Hd; left; reflexivity|].
  split; [apply Hbu; right; constructor; left; reflexivity|].
  apply Hbd. right. constructor. reflexivity.
Defined.

(** ** Batches *)

Module BatchFacts.

Import BulkTools.

Lemma slice_take_drop {A : Type} (l : list A) (i n : nat) :
  slice l i (i + n) = take n (drop i l).
Proof. unfold slice. f_equal. lia. Qed.

Lemma length_slice {A : Type} (l : list A) (i n : nat) :
  length (slice l i (i + n)) <= n.
Proof. rewrite slice_take_drop, length_take. lia. Qed.

Lemma slice_nonempty {A : Type} (l : list A) (i n : nat) :
  i < length l -> 0 < n -> slice l i (i + n) <> [].
Proof.
  intros Hi Hn Hnil. apply (f_equal length) in Hnil.
  rewrite slice_take_drop, length_take, length_drop in Hnil.
  change (length (@nil A)) with 0 in Hnil. lia.
Qed.

(** Induction over the iterations of the batching loop: with a positive
    batch size the loop ends within [length items + 1] iterations and any
    property carried from one batch to the batches after it holds of the
    whole run. *)
Lemma forEachBatch_run {A B : Type} (items : list A) (batchSize : nat)
    (body : nat -> list A -> B) (P : nat -> list B -> Prop) :
  0 < batchSize ->
  (forall i, length items <= i -> P i []) ->
  (forall i rs, i < length items -> P (i + batchSize) rs ->
     P i (body i (slice items i (i + batchSize)) :: rs)) ->
  forall fuel i, length items - i < fuel ->
    exists rs, forEachBatch fuel items batchSize i body = Some rs /\ P i rs.
Proof.
  intros Hbs Hend Hstep. induction fuel as [|fuel IH]; intros i Hfuel.
  - lia.
  - simpl. destruct (i <? length items)%nat eqn:Hi.
    + apply Nat.ltb_lt in Hi.
      destruct (IH (i + batchSize)) as (rs & -> & HP); [lia|].
      eexists. split; [reflexivity|]. now apply Hstep.
    + apply Nat.ltb_ge in Hi. exists []. split; [reflexivity|].
      now apply Hend.
Qed.

Lemma tagged_inj (a b : nat) (x : string) : tagged a x -> tagged b x -> a = b.
Proof.
  intros (p1 & i1 & H1 & ->) (p2 & i2 & H2 & Heq).
  destruct H1 as [-> | [-> | ->]], H2 as [-> | [-> | ->]];
    try discriminate Heq.
  all: now apply indexed_name_inj in Heq.
Qed.

Lemma fst_concat {A B : Type} (ls : list (list (A * B))) :
  (concat ls).*1 = concat (map (fun l => l.*1) ls).
Proof.
  induction ls as [|l ls IH]; [reflexivity|].
  simpl. now rewrite fmap_app, IH.
Qed.

Lemma elem_of_concat_imap {A B : Type} (f : nat -> A -> list B) (l : list A)
    (x : B) :
  x ∈ concat (imap f l) -> exists b a, l !! b = Some a /\ x ∈ f b a.
Proof.
  revert f; induction l as [|a l IH]; intros f.
  - intros []%elem_of_nil.
  - rewrite imap_cons. simpl concat. intros [H | H]%elem_of_app.
    + now exists 0, a.
    + destruct (IH _ H) as (b & a' & Hb & Hx). now exists (S b), a'.
Qed.

(** Lists of names generated at distinct indices, each without repetition,
    concatenate to a list without repetition. *)
Lemma NoDup_concat_imap {A : Type} (R : nat -> string -> Prop)
    (f : nat -> A -> list string) (l : list A) :
  (forall b b' x, R b x -> R b' x -> b = b') ->
  (forall b a, NoDup (f b a)) ->
  (forall b a x, x ∈ f b a -> R b x) ->
  NoDup (concat (imap f l)).
Proof.
  revert R f; induction l as [|a l IH]; intros R f Hinj Hnd HR.
  - apply NoDup_nil_2.
  - rewrite imap_cons. simpl concat. apply NoDup_app.
    split; [apply Hnd|]. split.
    + intros x Hx Hx'. apply HR in Hx.
      apply elem_of_concat_imap in Hx' as (b & a' & _ & Hx').
      apply HR in Hx'. pose proof (Hinj _ _ _ Hx Hx'). lia.
    + apply (IH (fun b => R (S b))).
      * intros b b' x H1 H2. pose proof (Hinj _ _ _ H1 H2). lia.
      * intros b a'. apply Hnd.
      * intros b a' x. apply HR.
Qed.

(** The names of one batch: no repetition, and each carries a position of
    the batch. *)
Lemma batch_names {A : Type} (f : nat -> A -> list string) (i : nat)
    (batch : list A) :
  (forall b a, NoDup (f b a)) ->
  (forall b a x, x ∈ f b a -> tagged (i + b) x) ->
  NoDup (concat (imap f batch)) /\
  (forall x, x ∈ concat (imap f batch) ->
     exists pos, i <= pos < i + length batch /\ tagged pos x).
Proof.
  intros Hnd Htag. split.
  - apply (NoDup_concat_imap (fun b => tagged (i + b))); [|exact Hnd|exact Htag].
    intros b b' x H1 H2. pose proof (tagged_inj _ _ _ H1 H2). lia.
  - intros x (b & a & Hb & Hx)%elem_of_concat_imap.
    exists (i + b). apply lookup_lt_Some in Hb.
    split; [lia | now apply (Htag b a)].
Qed.

(** The property of a run all three batched operations share: the names of
    all requests together are pairwise distinct. *)
Lemma forEachBatch_NoDup {A B : Type} (items : list A) (batchSize : nat)
    (body : nat -> list A -> B) (namesOf : B -> list string) :
  0 < batchSize ->
  (forall i batch,
     NoDup (namesOf (body i batch)) /\
     (forall x, x ∈ namesOf (body i batch) ->
        exists pos, i <= pos < i + length batch /\ tagged pos x)) ->
  exists rs,
    forEachBatch (S (length items)) items batchSize 0 body = Some rs /\
    NoDup (concat (map namesOf rs)).
Proof.
  intros Hbs Hbody.
  destruct (forEachBatch_run items batchSize body
              (fun i rs =>
                 NoDup (concat (map namesOf rs)) /\
                 (forall x, x ∈ concat (map namesOf rs) ->
                    exists pos, i <= pos /\ tagged pos x))
              Hbs) with (fuel := S (length items)) (i := 0)
    as (rs & Hrs & Hnd & _).
  - intros i _. split; [apply NoDup_nil_2 | intros x []%elem_of_nil].
  - intros i rs Hi [Hnd Hpos].
    destruct (Hbody i (slice items i (i + batchSize))) as [Hnd1 Hpos1].
    pose proof (length_slice items i batchSize) as Hlen.
    simpl. split.
    + apply NoDup_app. split; [exact Hnd1|]. split; [|exact Hnd].
      intros x Hx Hx'.
      destruct (Hpos1 x Hx) as (p1 & Hp1 & Ht1).
      destruct (Hpos x Hx') as (p2 & Hp2 & Ht2).
      pose proof (tagged_inj _ _ _ Ht1 Ht2). lia.
    + intros x [Hx | Hx]%elem_of_app.
      * destruct (Hpos1 x Hx) as (p & Hp & Ht). exists p. split; [lia|exact Ht].
      * destruct (Hpos x Hx) as (p & Hp & Ht). exists p. split; [lia|exact Ht].
  - lia.
  - exists rs. split; [exact Hrs | exact Hnd].
Qed.

(** Names bound for one row of a bulk insert over [n] columns. *)
Lemma insertRow_names (i : nat) (columns : list string) (b : nat) (row : Js.Obj) :
  (insertRow i columns b row).1.*1 =
  map (fun j => "param_" +:+ Js.showNat (i + b) +:+ "_" +:+ Js.showNat j)
      (seq 0 (length columns)).
Proof.
  unfold insertRow. cbn [fst]. rewrite fmap_imap.
  apply (imap_seq_0 columns
           (fun j => "param_" +:+ Js.showNat (i + b) +:+ "_" +:+ Js.showNat j)).
Qed.

Lemma insertBatch_names (t : string) (i : nat) (first : Js.Obj)
    (rest : list Js.Obj) :
  requestNames (insertBatch t i (first :: rest)) =
  concat (imap (fun b (_ : Js.Obj) =>
                  map (fun j => "param_" +:+ Js.showNat (i + b) +:+ "_" +:+
                                Js.showNat j)
                      (seq 0 (length (Js.keys first))))
               (first :: rest)).
Proof.
  unfold insertBatch, requestNames, names. cbn [parameters].
  rewrite fst_concat. f_equal.
  rewrite fmap_imap. change (map ?f ?l) with (f <$> l). rewrite fmap_imap.
  apply imap_ext. intros b row _. apply insertRow_names.
Qed.

Lemma NoDup_indexed (prefix : string) (pos n : nat) :
  NoDup (map (fun j => prefix +:+ Js.showNat pos +:+ "_" +:+ Js.showNat j)
             (seq 0 n)).
Proof.
  apply (NoDup_fmap_2_strong
           (fun j => prefix +:+ Js.showNat pos +:+ "_" +:+ Js.showNat j));
    [|apply NoDup_seq].
  intros j j' _ _ H. now apply indexed_name_inj in H.
Qed.

Lemma insertBatch_distinct (t : string) (i : nat) (batch : list Js.Obj) :
  NoDup (requestNames (insertBatch t i batch)) /\
  (forall x, x ∈ requestNames (insertBatch t i batch) ->
     exists pos, i <= pos < i + length batch /\ tagged pos x).
Proof.
  destruct batch as [|first rest].
  - split; [apply NoDup_nil_2 | intros x []%elem_of_nil].
  - rewrite insertBatch_names. apply batch_names.
    + intros b _. apply NoDup_indexed.
    + intros b _ x (j & -> & _)%list_elem_of_fmap.
      exists "param_", j. split; [now left | reflexivity].
Qed.

(** Names bound for the WHERE clause of one entry of a batched update or
    delete. *)
Lemma whereClause_names (i b : nat) (ws : list WhereCondition) :
  NoDup (concat (imap (whereClause i b) ws).*1).*1 /\
  (forall x, x ∈ (concat (imap (whereClause i b) ws).*1).*1 ->
     exists j, x = "where_" +:+ Js.showNat (i + b) +:+ "_" +:+ Js.showNat j).
Proof.
  rewrite fst_concat, fmap_imap.
  change (map ?f ?l) with (f <$> l). rewrite fmap_imap.
  assert (Hone : forall j c x,
            x ∈ (whereClause i b j c).1.*1 ->
            x = "where_" +:+ Js.showNat (i + b) +:+ "_" +:+ Js.showNat j).
  { intros j c x. unfold whereClause.
    destruct (Js.isDefined (value c)); simpl.
    - now intros ->%list_elem_of_singleton.
    - intros []%elem_of_nil. }
  split.
  - apply (NoDup_concat_imap
             (fun j x => x = "where_" +:+ Js.showNat (i + b) +:+ "_" +:+
                             Js.showNat j)).
    + intros j j' x -> H. now apply indexed_name_inj in H.
    + intros j c. simpl. unfold whereClause.
      destruct (Js.isDefined (value c)); simpl;
        [apply NoDup_singleton | apply NoDup_nil_2].
    + intros j c x. apply Hone.
  - intros x (j & c & _ & Hx)%elem_of_concat_imap. exists j.
    now apply (Hone j c).
Qed.

Lemma setClause_names (i b : nat) (d : Js.Obj) :
  (imap (setClause i b) d).*1.*1 =
  map (fun j => "update_" +:+ Js.showNat (i + b) +:+ "_" +:+ Js.showNat j)
      (seq 0 (length d)).
Proof.
  rewrite !fmap_imap.
  apply (imap_seq_0 d
           (fun j => "update_" +:+ Js.showNat (i + b) +:+ "_" +:+ Js.showNat j)).
Qed.

Lemma updateStatement_names (t : string) (i b : nat) (u : UpdateEntry) :
  (updateStatement t i b u).1.*1 =
  map (fun j => "update_" +:+ Js.showNat (i + b) +:+ "_" +:+ Js.showNat j)
      (seq 0 (length (data u))) ++
  (concat (imap (whereClause i b) (where_ u)).*1).*1.
Proof.
  unfold updateStatement. cbn [fst].
  now rewrite fmap_app, setClause_names.
Qed.

Lemma updateBatch_names (t : string) (i : nat) (batch : list UpdateEntry) :
  names (updateBatch t i batch) =
  concat (imap (fun b u => (updateStatement t i b u).1.*1) batch).
Proof.
  unfold updateBatch, names. cbn [parameters].
  rewrite fst_concat. f_equal.
  rewrite fmap_imap. change (map ?f ?l) with (f <$> l).
  now rewrite fmap_imap.
Qed.

Lemma updateBatch_distinct (t : string) (i : nat) (batch : list UpdateEntry) :
  NoDup (names (updateBatch t i batch)) /\
  (forall x, x ∈ names (updateBatch t i batch) ->
     exists pos, i <= pos < i + length batch /\ tagged pos x).
Proof.
  rewrite updateBatch_names. apply batch_names.
  - intros b u. rewrite updateStatement_names.
    destruct (whereClause_names i b (where_ u)) as [Hnd Hform].
    apply NoDup_app. split; [apply NoDup_indexed|]. split; [|exact Hnd].
    intros x (j & -> & _)%list_elem_of_fmap Hx.
    destruct (Hform _ Hx) as (j' & Heq). discriminate Heq.
  - intros b u x. rewrite updateStatement_names.
    destruct (whereClause_names i b (where_ u)) as [_ Hform].
    intros [(j & -> & _)%list_elem_of_fmap | Hx]%elem_of_app.
    + exists "update_", j. split; [right; now left | reflexivity].
    + destruct (Hform _ Hx) as (j & ->).
      exists "where_", j. split; [right; now right | reflexivity].
Qed.

Lemma deleteBatch_names (t : string) (i : nat)
    (batch : list (list WhereCondition)) :
  names (deleteBatch t i batch) =
  concat (imap (fun b w => (concat (imap (whereClause i b) w).*1).*1) batch).
Proof.
  unfold deleteBatch, names. cbn [parameters].
  rewrite fst_concat. f_equal.
  rewrite fmap_imap. change (map ?f ?l) with (f <$> l).
  now rewrite fmap_imap.
Qed.

Lemma deleteBatch_distinct (t : string) (i : nat)
    (batch : list (list WhereCondition)) :
  NoDup (names (deleteBatch t i batch)) /\
  (forall x, x ∈ names (deleteBatch t i batch) ->
     exists pos, i <= pos < i + length batch /\ tagged pos x).
Proof.
  rewrite deleteBatch_names. apply batch_names.
  - intros b w. apply whereClause_names.
  - intros b w x Hx.
    destruct (whereClause_names i b w) as [_ Hform].
    destruct (Hform _ Hx) as (j & ->).
    exists "where_", j. split; [right; now right | reflexivity].
Qed.

(** When the names of a batch are those of its entries one after the other,
    batching leaves no trace in the names of the whole run. *)
Lemma forEachBatch_flat {A B : Type} (items : list A) (batchSize : nat)
    (body : nat -> list A -> B) (namesOf : B -> list string)
    (g : nat -> list A -> list string) :
  0 < batchSize ->
  (forall i, g i [] = []) ->
  (forall i l1 l2, g i (l1 ++ l2) = g i l1 ++ g (i + length l1) l2) ->
  (forall i, i < length items ->
     namesOf (body i (slice items i (i + batchSize))) =
     g i (slice items i (i + batchSize))) ->
  exists rs,
    forEachBatch (S (length items)) items batchSize 0 body = Some rs /\
    concat (map namesOf rs) = g 0 items.
Proof.
  intros Hbs Hnil Happ Hbody.
  destruct (forEachBatch_run items batchSize body
              (fun i rs => concat (map namesOf rs) = g i (drop i items))
              Hbs) with (fuel := S (length items)) (i := 0)
    as (rs & Hrs & Hflat).
  - intros i Hi. simpl. now rewrite drop_ge, Hnil.
  - intros i rs Hi IH. simpl. rewrite IH, Hbody by exact Hi.
    rewrite slice_take_drop.
    transitivity (g i (take batchSize (drop i items) ++
                       drop batchSize (drop i items)));
      [|now rewrite take_drop].
    rewrite Happ, drop_drop. f_equal.
    destruct (decide (i + batchSize <= length items)) as [Hle | Hgt].
    + now rewrite length_take_le by (rewrite length_drop; lia).
    + rewrite (drop_ge items (i + batchSize)) by lia. now rewrite !Hnil.
  - lia.
  - exists rs. split; [exact Hrs | exact Hflat].
Qed.

Lemma Forall_slice {A : Type} (P : A -> Prop) (l : list A) (i j : nat) :
  Forall P l -> Forall P (slice l i j).
Proof. intros H. unfold slice. now apply Forall_take, Forall_drop. Qed.

Lemma positions_app (f : nat -> list string) (i a b : nat) :
  concat (map f (seq i (a + b))) =
  concat (map f (seq i a)) ++ concat (map f (seq (i + a) b)).
Proof. now rewrite seq_app, map_app, concat_app. Qed.

Lemma concat_imap_positions {A : Type} (f : nat -> list string) (i : nat)
    (l : list A) (h : nat -> A -> list string) :
  (forall b a, l !! b = Some a -> h b a = f (i + b)) ->
  concat (imap h l) = concat (map f (seq i (length l))).
Proof.
  intros Hh. f_equal.
  rewrite (imap_ext h (fun b _ => f (i + b)) l) by exact Hh.
  apply (imap_seq l f i).
Qed.

Lemma insertBatch_over (t col : string) (i : nat) (batch : list Js.Obj) :
  Forall (rowOver col) batch ->
  requestNames (insertBatch t i batch) =
  concat (map (fun pos => [positionName "param_" pos 0])
              (seq i (length batch))).
Proof.
  intros Hrows. destruct batch as [|first rest]; [reflexivity|].
  rewrite insertBatch_names.
  apply Forall_cons in Hrows as [Hfirst _]. unfold rowOver in Hfirst.
  rewrite Hfirst.
  now apply (concat_imap_positions
               (fun pos => [positionName "param_" pos 0])).
Qed.

Lemma whereClause_over (col : string) (i b : nat) (w : list WhereCondition) :
  filterOver col w ->
  (concat (imap (whereClause i b) w).*1).*1 =
  [positionName "where_" (i + b) 0].
Proof.
  intros (c & -> & _ & Hdef). simpl. unfold whereClause. now rewrite Hdef.
Qed.

Lemma updateBatch_over (t col : string) (i : nat) (batch : list UpdateEntry) :
  Forall (updateOver col) batch ->
  names (updateBatch t i batch) =
  concat (map (fun pos => [positionName "update_" pos 0;
                           positionName "where_" pos 0])
              (seq i (length batch))).
Proof.
  intros Hbatch. rewrite updateBatch_names.
  apply (concat_imap_positions
           (fun pos => [positionName "update_" pos 0;
                        positionName "where_" pos 0])).
  intros b u Hb. rewrite updateStatement_names.
  destruct (Forall_lookup_1 _ _ _ _ Hbatch Hb) as [Hrow Hfilter].
  rewrite (whereClause_over col i b _ Hfilter).
  unfold rowOver, Js.keys in Hrow.
  apply (f_equal length) in Hrow. rewrite length_fmap in Hrow.
  simpl in Hrow. now rewrite Hrow.
Qed.

Lemma deleteBatch_over (t col : string) (i : nat)
    (batch : list (list WhereCondition)) :
  Forall (filterOver col) batch ->
  names (deleteBatch t i batch) =
  concat (map (fun pos => [positionName "where_" pos 0])
              (seq i (length batch))).
Proof.
  intros Hbatch. rewrite deleteBatch_names.
  apply (concat_imap_positions (fun pos => [positionName "where_" pos 0])).
  intros b w Hb.
  exact (whereClause_over col i b w (Forall_lookup_1 _ _ _ _ Hbatch Hb)).
Qed.

End BatchFacts.

Import BatchFacts.

Lemma positions_additive {A : Type} (f : nat -> list string) (i : nat)
    (l1 l2 : list A) :
  concat (map f (seq i (length (l1 ++ l2)))) =
  concat (map f (seq i (length l1))) ++
  concat (map f (seq (i + length l1) (length l2))).
Proof. rewrite List.length_app. apply positions_app. Qed.

Lemma concat_map_singleton {A B : Type} (f : A -> B) (l : list A) :
  concat (map (fun x => [f x]) l) = map f l.
Proof. induction l as [|x l IH]; simpl; [reflexivity | now rewrite IH]. Qed.

Example fiveNames_requests :
  option_map (map requestNames) (BulkTools.bulkInsert fiveNames) =
  Some [ ["param_0_0"; "param_1_0"]; ["param_2_0"; "param_3_0"];
         ["param_4_0"] ].
Proof. reflexivity. Qed.

(** C8. With a batch size of at least one, [bulkInsert], [batchUpdate] and
    [batchDelete] run to their end and the parameter names they bind, over
    all the requests of the run and so within each, are pairwise distinct:
    every name carries the absolute position [i + batchIndex] of its entry
    and the index of the column or condition within it. In particular, over
    [M] entries that all reference the one column [col], the names bound are
    [param_<pos>_0] for [pos < M] in a bulk insert, [where_<pos>_0] in a batch
    delete, and the pair [update_<pos>_0], [where_<pos>_0] in a batch update:
    [M] names per pool, all distinct. *)
Theorem C8_batch_parameter_names_distinct
    (ip : BulkTools.BulkInsertParams) (up : BulkTools.BatchUpdateParams)
    (dp : BulkTools.BatchDeleteParams) (col : string) :
  0 < BulkTools.insert_batchSize ip ->
  0 < BulkTools.update_batchSize up ->
  0 < BulkTools.delete_batchSize dp ->
  (exists rs,
     BulkTools.bulkInsert ip = Some rs /\
     NoDup (concat (map requestNames rs)) /\
     (Forall (rowOver col) (BulkTools.insert_data ip) ->
      concat (map requestNames rs) =
      map (fun pos => positionName "param_" pos 0)
          (seq 0 (length (BulkTools.insert_data ip))))) /\
  (exists rs,
     BulkTools.batchUpdate up = Some rs /\
     NoDup (concat (map BulkTools.names rs)) /\
     (Forall (updateOver col) (BulkTools.updates up) ->
      concat (map BulkTools.names rs) =
      concat (map (fun pos => [positionName "update_" pos 0;
                               positionName "where_" pos 0])
                  (seq 0 (length (BulkTools.updates up)))))) /\
  (exists rs,
     BulkTools.batchDelete dp = Some rs /\
     NoDup (concat (map BulkTools.names rs)) /\
     (Forall (filterOver col) (BulkTools.delete_conditions dp) ->
      concat (map BulkTools.names rs) =
      map (fun pos => positionName "where_" pos 0)
          (seq 0 (length (BulkTools.delete_conditions dp))))).
Proof.
  intros Hi Hu Hd. split; [|split].
  - destruct (forEachBatch_NoDup (BulkTools.insert_data ip)
                (BulkTools.insert_batchSize ip)
                (BulkTools.insertBatch (BulkTools.insert_table ip))
                requestNames Hi) as (rs & Hrs & Hnd).
    { intros i batch. apply insertBatch_distinct. }
    exists rs. split; [exact Hrs|]. split; [exact Hnd|]. intros Hall.
    destruct (forEachBatch_flat (BulkTools.insert_data ip)
                (BulkTools.insert_batchSize ip)
                (BulkTools.insertBatch (BulkTools.insert_table ip))
                requestNames
                (fun i (rows : list Js.Obj) =>
                   concat (map (fun pos => [positionName "param_" pos 0])
                               (seq i (length rows)))) Hi)
      as (rs' & Hrs' & Hflat).
    + reflexivity.
    + intros i l1 l2. apply positions_additive.
    + intros i _. apply (insertBatch_over _ col). now apply Forall_slice.
    + rewrite Hrs in Hrs'. injection Hrs' as <-.
      rewrite Hflat. apply concat_map_singleton.
  - destruct (forEachBatch_NoDup (BulkTools.updates up)
                (BulkTools.update_batchSize up)
                (BulkTools.updateBatch (BulkTools.update_table up))
                BulkTools.names Hu) as (rs & Hrs & Hnd).
    { intros i batch. apply updateBatch_distinct. }
    exists rs. split; [exact Hrs|]. split; [exact Hnd|]. intros Hall.
    destruct (forEachBatch_flat (BulkTools.updates up)
                (BulkTools.update_batchSize up)
                (BulkTools.updateBatch (BulkTools.update_table up))
                BulkTools.names
                (fun i (entries : list BulkTools.UpdateEntry) =>
                   concat (map (fun pos => [positionName "update_" pos 0;
                                            positionName "where_" pos 0])
                               (seq i (length entries)))) Hu)
      as (rs' & Hrs' & Hflat).
    + reflexivity.
    + intros i l1 l2. apply positions_additive.
    + intros i _. apply (updateBatch_over _ col). now apply Forall_slice.
    + rewrite Hrs in Hrs'. injection Hrs' as <-. exact Hflat.
  - destruct (forEachBatch_NoDup (BulkTools.delete_conditions dp)
                (BulkTools.delete_batchSize dp)
                (BulkTools.deleteBatch (BulkTools.delete_table dp))
                BulkTools.names Hd) as (rs & Hrs & Hnd).
    { intros i batch. apply deleteBatch_distinct. }
    exists rs. split; [exact Hrs|]. split; [exact Hnd|]. intros Hall.
    destruct (forEachBatch_flat (BulkTools.delete_conditions dp)
                (BulkTools.delete_batchSize dp)
                (BulkTools.deleteBatch (BulkTools.delete_table dp))
                BulkTools.names
                (fun i (entries : list (list WhereCondition)) =>
                   concat (map (fun pos => [positionName "where_" pos 0])
                               (seq i (length entries)))) Hd)
      as (rs' & Hrs' & Hflat).
    + reflexivity.
    + intros i l1 l2. apply positions_additive.
    + intros i _. apply (deleteBatch_over _ col). now apply Forall_slice.
    + rewrite Hrs in Hrs'. injection Hrs' as <-.
      rewrite Hflat. apply concat_map_singleton.
Qed.

Lemma C8_witness :
  exists rs,
    BulkTools.bulkInsert fiveNames = Some rs /\
    NoDup (concat (map requestNames rs)) /\
    concat (map requestNames rs) =
    map (fun pos => positionName "param_" pos 0) (seq 0 5).
Proof.
  destruct (C8_batch_parameter_names_distinct fiveNames renameFive deleteFive
              "name") as ((rs & Hrs & Hnd & Hflat) & _).
  - simpl. lia.
  - simpl. lia.
  - simpl. lia.
  - exists rs. split; [exact Hrs|]. split; [exact Hnd|].
    apply Hflat. repeat constructor.
Defined.

(** ** The batches of a run *)

Module RunFacts.

Import BulkTools.

Lemma ceil_step (m batchSize : nat) :
  0 < batchSize -> 0 < m ->
  (m + batchSize - 1) / batchSize =
  S ((m - batchSize + batchSize - 1) / batchSize).
Proof.
  intros Hbs Hm. destruct (decide (m <= batchSize)) as [Hle | Hgt].
  - replace (m - batchSize + batchSize - 1) with (batchSize - 1) by lia.
    rewrite (Nat.div_small (batchSize - 1)) by lia.
    symmetry. apply (Nat.div_unique _ _ 1 (m - 1)); lia.
  - replace (m + batchSize - 1)
      with (m - batchSize + batchSize - 1 + 1 * batchSize) by lia.
    rewrite Nat.div_add by lia. lia.
Qed.

(** The batching loop cuts its input into consecutive batches and hands the
    batch numbered [j] to the body together with its start [j * batchSize]. *)
Lemma forEachBatch_chunks {A B : Type} (items : list A) (batchSize : nat)
    (body : nat -> list A -> B) :
  0 < batchSize ->
  exists chunks,
    batchesOf items batchSize chunks /\
    forEachBatch (S (length items)) items batchSize 0 body =
      Some (imap (fun j c => body (j * batchSize) c) chunks).
Proof.
  intros Hbs.
  destruct (forEachBatch_run items batchSize body
              (fun i rs =>
                 exists chunks,
                   rs = imap (fun j c => body (i + j * batchSize) c) chunks /\
                   concat chunks = drop i items /\
                   length chunks =
                     (length items - i + batchSize - 1) / batchSize /\
                   forall j c, chunks !! j = Some c ->
                     0 < length c <= batchSize /\
                     (S j < length chunks -> length c = batchSize))
              Hbs) with (fuel := S (length items)) (i := 0)
    as (rs & Hrs & chunks & -> & Hcat & Hlen & Hall).
  - intros i Hi. exists []. split; [reflexivity|]. split.
    + now rewrite drop_ge.
    + split.
      * replace (length items - i + batchSize - 1) with (batchSize - 1) by lia.
        now rewrite Nat.div_small by lia.
      * intros j c Hj. now rewrite lookup_nil in Hj.
  - intros i rs Hi (chunks & -> & Hcat & Hlen & Hall).
    exists (slice items i (i + batchSize) :: chunks).
    rewrite imap_cons. split; [|split; [|split]].
    + f_equal; [f_equal; lia|]. apply imap_ext. intros j c _.
      unfold compose. f_equal. lia.
    + simpl concat. rewrite Hcat, slice_take_drop.
      rewrite <- (drop_drop items batchSize i). apply take_drop.
    + simpl length. rewrite Hlen.
      rewrite (ceil_step (length items - i)) by lia.
      do 3 f_equal. lia.
    + assert (Hfirst : length (slice items i (i + batchSize)) =
                       Nat.min batchSize (length items - i)).
      { now rewrite slice_take_drop, length_take, length_drop. }
      intros [|j] c Hj; simpl in Hj.
      * injection Hj as <-. rewrite Hfirst. split; [lia|].
        intros Hmore. simpl in Hmore.
        destruct (decide (batchSize <= length items - i)); [lia|].
        rewrite Hlen in Hmore.
        replace (length items - (i + batchSize) + batchSize - 1)
          with (batchSize - 1) in Hmore by lia.
        rewrite Nat.div_small in Hmore by lia. lia.
      * destruct (Hall j c Hj) as [Hc Hfull]. split; [exact Hc|].
        intros Hmore. apply Hfull. simpl in Hmore. lia.
  - lia.
  - exists chunks. split.
    + split; [now rewrite Hcat, drop_0|]. split; [|exact Hall].
      rewrite Hlen. do 2 f_equal. lia.
    + rewrite Hrs. f_equal.
Qed.

End RunFacts.

Import RunFacts.

(** ** Columns of a bulk insert *)

Example raggedRows_request :
  BulkTools.bulkInsert raggedRows =
  Some [ Some {| BulkTools.parameters :=
                   [ ("param_0_0", Js.Number 1); ("param_0_1", Js.Number 2);
                     ("param_1_0", Js.Undefined); ("param_1_1", Js.Number 3);
                     ("param_2_0", Js.Number 5); ("param_2_1", Js.Undefined) ];
                 BulkTools.statement :=
                   "INSERT INTO [t] ([a], [b]) VALUES (@param_0_0, @param_0_1), (@param_1_0, @param_1_1), (@param_2_0, @param_2_1); SELECT @@ROWCOUNT as rowsAffected" |} ].
Proof. reflexivity. Qed.










(** * Further properties of the builders *)

Module PredicateFacts.

(** The run of the loop around the predicate at position [k]. *)
Lemma loop_split (prefix : string) (start k : nat) (ws : list WhereCondition)
    (c : WhereCondition) :
  ws !! k = Some c ->
  loopClauses prefix start ws =
    loopClauses prefix start (take k ws) ++
    stepClauses prefix (start + k) c ++
    loopClauses prefix (S (start + k)) (drop (S k) ws) /\
  loopBindings prefix start ws =
    loopBindings prefix start (take k ws) ++
    stepBindings prefix (start + k) c ++
    loopBindings prefix (S (start + k)) (drop (S k) ws).
Proof.
  intros Hk.
  pose proof (take_drop_middle ws k c Hk) as Hsplit.
  pose proof (lookup_lt_Some _ _ _ Hk) as Hlt.
  assert (Hlen : length (take k ws) = k) by (rewrite length_take_le; lia).
  revert Hsplit Hlen.
  generalize (take k ws) (drop (S k) ws). intros l1 l2 <- <-.
  rewrite loopClauses_app, loopBindings_app, loopClauses_cons,
    loopBindings_cons.
  split; reflexivity.
Qed.

Lemma loopNames_range (prefix : string) (ws : list WhereCondition)
    (x : string) :
  forall k, x ∈ concat (loopNames prefix k ws) ->
            exists j, k <= j < k + length ws /\ generatedBy prefix j x.
Proof.
  induction ws as [|c ws IH]; intros k.
  - intros []%elem_of_nil.
  - rewrite loopNames_cons, concat_app. simpl length.
    intros [H | H]%elem_of_app.
    + exists k. split; [lia | now apply stepNames_generated in H].
    + destruct (IH _ H) as (j & Hj & Hg). exists j. split; [lia | exact Hg].
Qed.

(** A binding made for the predicate at position [k] is in the finished
    map. *)
Lemma bound_at (prefix : string) (start k : nat) (ws : list WhereCondition)
    (c : WhereCondition) (m : gmap string Js.Value) (x : string)
    (v : Js.Value) :
  ws !! k = Some c -> (x, v) ∈ stepBindings prefix (start + k) c ->
  bindAll m (loopBindings prefix start ws) !! x = Some v.
Proof.
  intros Hk Hx. apply lookup_bindAll.
  - rewrite loopBindings_names. apply NoDup_loopNames.
  - destruct (loop_split prefix start k ws c Hk) as [_ ->].
    apply elem_of_app. right. apply elem_of_app. now left.
Qed.

(** When the predicate at position [k] binds nothing, the names of its
    iteration are left as they were before the loop. *)
Lemma unbound_at (prefix : string) (start k : nat) (ws : list WhereCondition)
    (c : WhereCondition) (m : gmap string Js.Value) (x : string) :
  ws !! k = Some c -> stepBindings prefix (start + k) c = [] ->
  generatedBy prefix (start + k) x ->
  bindAll m (loopBindings prefix start ws) !! x = m !! x.
Proof.
  intros Hk Hnone Hx. apply lookup_bindAll_other.
  destruct (loop_split prefix start k ws c Hk) as [_ ->].
  pose proof (lookup_lt_Some _ _ _ Hk) as Hlt.
  rewrite Hnone, !fmap_app, !loopBindings_names. simpl.
  intros [H | H]%elem_of_app.
  - apply loopNames_range in H as (j & Hj & Hg).
    rewrite length_take_le in Hj by lia.
    pose proof (generatedBy_inj _ _ _ _ Hx Hg). lia.
  - apply loopNames_range in H as (j & Hj & Hg).
    pose proof (generatedBy_inj _ _ _ _ Hx Hg). lia.
Qed.

Lemma join_split (sep x : string) (l1 l2 : list string) :
  Js.join sep (l1 ++ x :: l2) =
  (match l1 with [] => "" | _ => Js.join sep l1 +:+ sep end) +:+ x +:+
  (match l2 with [] => "" | _ => sep +:+ Js.join sep l2 end).
Proof.
  induction l1 as [|y l1 IH].
  - destruct l2 as [|z l2]; simpl app.
    + simpl. now rewrite app_nil_l, app_nil_r.
    + rewrite join_cons by congruence. now rewrite app_nil_l.
  - change ((y :: l1) ++ x :: l2) with (y :: (l1 ++ x :: l2)).
    rewrite join_cons by (destruct l1; simpl; congruence).
    rewrite IH. destruct l1 as [|y' l1].
    + simpl Js.join. now rewrite app_nil_l, !app_assoc.
    + rewrite (join_cons sep y (y' :: l1)) by congruence.
      now rewrite !app_assoc.
Qed.

Lemma clause_at (prefix : string) (start k : nat) (ws : list WhereCondition)
    (c : WhereCondition) (cl : string) :
  ws !! k = Some c -> stepClauses prefix (start + k) c = [cl] ->
  occursIn cl (Js.join " AND " (loopClauses prefix start ws)).
Proof.
  intros Hk Hcl.
  destruct (loop_split prefix start k ws c Hk) as [-> _].
  rewrite Hcl. apply join_middle.
Qed.

Lemma join_two (sep x y : string) (l1 l2 l3 : list string) :
  occursBefore x y (Js.join sep (l1 ++ x :: l2 ++ y :: l3)).
Proof.
  rewrite join_split.
  destruct (join_middle sep y l2 l3) as (b & c & Hb).
  destruct (l2 ++ y :: l3) as [|z zs] eqn:Hz; [now destruct l2|].
  rewrite Hb.
  exists (match l1 with [] => "" | _ :: _ => Js.join sep l1 +:+ sep end),
         (sep +:+ b), c.
  now rewrite !app_assoc.
Qed.

Lemma clauses_in_order (prefix : string) (start k1 k2 : nat)
    (ws : list WhereCondition) (c1 c2 : WhereCondition) (cl1 cl2 : string) :
  k1 < k2 -> ws !! k1 = Some c1 -> ws !! k2 = Some c2 ->
  stepClauses prefix (start + k1) c1 = [cl1] ->
  stepClauses prefix (start + k2) c2 = [cl2] ->
  occursBefore cl1 cl2 (Js.join " AND " (loopClauses prefix start ws)).
Proof.
  intros Hlt H1 H2 Hcl1 Hcl2.
  destruct (loop_split prefix start k1 ws c1 H1) as [Hall _].
  assert (H2' : drop (S k1) ws !! (k2 - S k1) = Some c2).
  { rewrite lookup_drop. now replace (S k1 + (k2 - S k1)) with k2 by lia. }
  destruct (loop_split prefix (S (start + k1)) (k2 - S k1) _ c2 H2')
    as [Hrest _].
  replace (S (start + k1) + (k2 - S k1)) with (start + k2) in Hrest by lia.
  rewrite Hcl2 in Hrest. rewrite Hcl1, Hrest in Hall. rewrite Hall.
  apply (join_two " AND " cl1 cl2).
Qed.

Lemma occursBefore_app (s1 s2 a t b : string) :
  occursBefore s1 s2 t -> occursBefore s1 s2 (a +:+ t +:+ b).
Proof.
  intros (x & y & z & ->). exists (a +:+ x), y, (z +:+ b).
  now rewrite !app_assoc.
Qed.

Lemma occursBefore_app_l (s1 s2 a t : string) :
  occursBefore s1 s2 t -> occursBefore s1 s2 (a +:+ t).
Proof.
  intros H. rewrite <- (app_nil_r t). now apply occursBefore_app.
Qed.

Lemma lookup_list_to_map_get (d : Js.Obj) (k : string) :
  k ∈ Js.keys d ->
  (list_to_map d : gmap string Js.Value) !! k = Some (Js.get d k).
Proof.
  induction d as [|[k' v] d IH]; [intros []%elem_of_nil|].
  simpl. intros Hin. destruct (decide (k' = k)) as [-> | Hne].
  - apply lookup_insert_eq.
  - rewrite lookup_insert_ne by exact Hne. apply IH.
    apply elem_of_cons in Hin as [Heq | Hin]; [congruence | exact Hin].
Qed.

Lemma length_stepBindings (prefix : string) (k : nat) (c : WhereCondition) :
  length (stepBindings prefix k c) = paramCount c.
Proof.
  unfold stepBindings, paramCount.
  destruct (operator c); try reflexivity.
  all: destruct (value c); try reflexivity; apply length_imap.
Qed.

Lemma length_loopBindings (prefix : string) (ws : list WhereCondition) :
  forall k, length (loopBindings prefix k ws) = sum_list (paramCount <$> ws).
Proof.
  induction ws as [|c ws IH]; intros k; [reflexivity|].
  rewrite loopBindings_cons, List.length_app, length_stepBindings, IH.
  reflexivity.
Qed.

Lemma size_bindAll_fresh (bs : list (string * Js.Value)) :
  NoDup bs.*1 -> size (bindAll ∅ bs) = length bs.
Proof.
  intros Hnd.
  rewrite <- size_dom, dom_bindAll, dom_empty_L, (left_id_L ∅ (∪)).
  rewrite size_list_to_set by exact Hnd. apply length_fmap.
Qed.

End PredicateFacts.

Import PredicateFacts.

Lemma comparison_step (prefix : string) (k : nat) (c : WhereCondition) :
  isComparison (operator c) = true ->
  stepClauses prefix k c = [comparisonClause prefix k c] /\
  stepBindings prefix k c = [(plainName prefix k, value c)].
Proof.
  unfold stepClauses, stepBindings, comparisonClause.
  destruct (operator c); try discriminate; intros _; split; reflexivity.
Qed.

Lemma nullTest_step (prefix : string) (k : nat) (c : WhereCondition) :
  isNullTest (operator c) = true ->
  stepClauses prefix k c = [nullClause c] /\ stepBindings prefix k c = [].
Proof.
  unfold stepClauses, stepBindings, nullClause.
  destruct (operator c); try discriminate; intros _; split; reflexivity.
Qed.

(** The WHERE text of the three builders for a non-empty predicate list. *)
Lemma select_where_text (p : QueryParams) (ws : list WhereCondition) (s : string) :
  where_ p = Some ws -> ws <> [] ->
  occursIn s (Js.join " AND " (loopClauses "param" 1 ws)) ->
  occursIn s (query (buildSelectQuery p)).
Proof.
  intros Hp Hne Hs.
  destruct (select_query_tail p) as (before & after & ->).
  apply occursIn_app. unfold selectTail. rewrite Hp. simpl default.
  destruct ws as [|c ws]; [congruence|].
  change (0 <? length (c :: ws))%nat with true. cbv iota.
  now apply occursIn_app, occursIn_app_l.
Qed.

Lemma update_where_text (t : string) (d : Js.Obj) (ws : list WhereCondition)
    (s : string) :
  ws <> [] ->
  occursIn s (Js.join " AND " (loopClauses "where_param" 1000 ws)) ->
  occursIn s (query (buildUpdateQuery t d ws)).
Proof.
  intros Hne Hs. rewrite update_closed. cbn [query].
  destruct ws as [|c ws]; [congruence|].
  change (0 <? length (c :: ws))%nat with true. cbv iota.
  now do 5 apply occursIn_app_l.
Qed.

Lemma delete_where_text (t : string) (ws : list WhereCondition) (s : string) :
  ws <> [] ->
  occursIn s (Js.join " AND " (loopClauses "param" 1 ws)) ->
  occursIn s (query (buildDeleteQuery t ws)).
Proof.
  intros Hne Hs. rewrite delete_closed. cbn [query].
  destruct ws as [|c ws]; [congruence|].
  change (0 <? length (c :: ws))%nat with true. cbv iota.
  now do 4 apply occursIn_app_l.
Qed.

Lemma lookup_nonempty {A : Type} (l : list A) (k : nat) (x : A) :
  l !! k = Some x -> l <> [].
Proof. now destruct l. Qed.

(** X1. A predicate with one of the seven comparison operators, at position
    [k] of the predicate sequence: its clause [[col] OP @<name>] occurs in the
    text built by [buildSelectQuery], [buildUpdateQuery] and
    [buildDeleteQuery], where [<name>] is [param<k+1>] (for UPDATE
    [where_param<1000+k>]), and the finished parameter map binds that name to
    the value of the predicate. *)
Theorem X1_comparison_predicate_bound
    (p : QueryParams) (t : string) (d : Js.Obj) (ws : list WhereCondition)
    (k : nat) (c : WhereCondition) :
  where_ p = Some ws -> ws !! k = Some c ->
  isComparison (operator c) = true ->
  (occursIn (comparisonClause "param" (1 + k) c) (query (buildSelectQuery p)) /\
   inputs (buildSelectQuery p) !! plainName "param" (1 + k) = Some (value c)) /\
  (occursIn (comparisonClause "where_param" (1000 + k) c)
            (query (buildUpdateQuery t d ws)) /\
   inputs (buildUpdateQuery t d ws) !! plainName "where_param" (1000 + k) =
     Some (value c)) /\
  (occursIn (comparisonClause "param" (1 + k) c)
            (query (buildDeleteQuery t ws)) /\
   inputs (buildDeleteQuery t ws) !! plainName "param" (1 + k) =
     Some (value c)).
Proof.
  intros Hp Hk Hop.
  pose proof (lookup_nonempty _ _ _ Hk) as Hne.
  destruct (comparison_step "param" (1 + k) c Hop) as [Hcl Hb].
  destruct (comparison_step "where_param" (1000 + k) c Hop) as [Hclu Hbu].
  split; [|split]; split.
  - apply (select_where_text p ws _ Hp Hne).
    now apply (clause_at "param" 1 k ws c).
  - rewrite select_inputs, Hp. simpl default.
    apply (bound_at "param" 1 k ws c); [exact Hk|].
    rewrite Hb. apply list_elem_of_singleton. reflexivity.
  - apply (update_where_text t d ws _ Hne).
    now apply (clause_at "where_param" 1000 k ws c).
  - rewrite update_closed. cbn [inputs].
    apply (bound_at "where_param" 1000 k ws c); [exact Hk|].
    rewrite Hbu. apply list_elem_of_singleton. reflexivity.
  - apply (delete_where_text t ws _ Hne).
    now apply (clause_at "param" 1 k ws c).
  - rewrite delete_closed. cbn [inputs].
    apply (bound_at "param" 1 k ws c); [exact Hk|].
    rewrite Hb. apply list_elem_of_singleton. reflexivity.
Qed.

Lemma X1_witness :
  occursIn "[name] LIKE @param3" (query (buildSelectQuery adults)) /\
  inputs (buildSelectQuery adults) !! "param3" = Some (Js.Str "A%").
Proof.
  destruct (X1_comparison_predicate_bound adults "users" [] 
              [ageAtLeast18; notDeleted; nameLikeA] 2 nameLikeA
              eq_refl eq_refl eq_refl) as ((Hocc & Hb) & _).
  split; [exact Hocc | exact Hb].
Defined.

(** X2. A null-test predicate ([IS NULL], [IS NOT NULL]) at position [k]: its
    clause [[col] IS NULL] / [[col] IS NOT NULL] occurs in the text of the
    three builders and its iteration binds nothing, whatever value the
    predicate carries: no name of that iteration is a key of the SELECT or
    DELETE map, and in the UPDATE map such a name is bound only if it is a key
    of the record, to the record's value. *)
Theorem X2_null_test_binds_nothing
    (p : QueryParams) (t : string) (d : Js.Obj) (ws : list WhereCondition)
    (k : nat) (c : WhereCondition) :
  where_ p = Some ws -> ws !! k = Some c ->
  isNullTest (operator c) = true ->
  (occursIn (nullClause c) (query (buildSelectQuery p)) /\
   forall x, generatedBy "param" (1 + k) x ->
             inputs (buildSelectQuery p) !! x = None) /\
  (occursIn (nullClause c) (query (buildUpdateQuery t d ws)) /\
   forall x, generatedBy "where_param" (1000 + k) x ->
             inputs (buildUpdateQuery t d ws) !! x =
             (list_to_map d : gmap string Js.Value) !! x) /\
  (occursIn (nullClause c) (query (buildDeleteQuery t ws)) /\
   forall x, generatedBy "param" (1 + k) x ->
             inputs (buildDeleteQuery t ws) !! x = None).
Proof.
  intros Hp Hk Hop.
  pose proof (lookup_nonempty _ _ _ Hk) as Hne.
  destruct (nullTest_step "param" (1 + k) c Hop) as [Hcl Hb].
  destruct (nullTest_step "where_param" (1000 + k) c Hop) as [Hclu Hbu].
  split; [|split]; split.
  - apply (select_where_text p ws _ Hp Hne).
    now apply (clause_at "param" 1 k ws c).
  - intros x Hx. rewrite select_inputs, Hp. simpl default.
    now rewrite (unbound_at "param" 1 k ws c ∅ x Hk Hb Hx).
  - apply (update_where_text t d ws _ Hne).
    now apply (clause_at "where_param" 1000 k ws c).
  - intros x Hx. rewrite update_closed. cbn [inputs].
    exact (unbound_at "where_param" 1000 k ws c _ x Hk Hbu Hx).
  - apply (delete_where_text t ws _ Hne).
    now apply (clause_at "param" 1 k ws c).
  - intros x Hx. rewrite delete_closed. cbn [inputs].
    now rewrite (unbound_at "param" 1 k ws c ∅ x Hk Hb Hx).
Qed.

Lemma X2_witness :
  occursIn "[deleted] IS NULL" (query (buildSelectQuery adults)) /\
  inputs (buildSelectQuery adults) !! "param2" = None.
Proof.
  destruct (X2_null_test_binds_nothing adults "users" []
              [ageAtLeast18; notDeleted; nameLikeA] 1 notDeleted
              eq_refl eq_refl eq_refl) as ((Hocc & Hb) & _).
  split; [exact Hocc|]. apply Hb. left. reflexivity.
Defined.

Lemma list_split_two {A : Type} (l : list A) (k1 k2 : nat) (a b : A) :
  k1 < k2 -> l !! k1 = Some a -> l !! k2 = Some b ->
  exists l1 l2 l3, l = l1 ++ a :: l2 ++ b :: l3.
Proof.
  intros Hlt H1 H2.
  assert (H2' : drop (S k1) l !! (k2 - S k1) = Some b).
  { rewrite lookup_drop. now replace (S k1 + (k2 - S k1)) with k2 by lia. }
  exists (take k1 l), (take (k2 - S k1) (drop (S k1) l)),
         (drop (S (k2 - S k1)) (drop (S k1) l)).
  rewrite (take_drop_middle _ _ _ H2'). symmetry.
  now apply take_drop_middle.
Qed.

Lemma join_map_in_order {A : Type} (sep : string) (f : A -> string)
    (l : list A) (k1 k2 : nat) (a b : A) :
  k1 < k2 -> l !! k1 = Some a -> l !! k2 = Some b ->
  occursBefore (f a) (f b) (Js.join sep (map f l)).
Proof.
  intros Hlt H1 H2.
  destruct (list_split_two l k1 k2 a b Hlt H1 H2) as (l1 & l2 & l3 & ->).
  rewrite map_app. simpl map. rewrite map_app. simpl map.
  apply join_two.
Qed.

Lemma occursBefore_app_r (s1 s2 t b : string) :
  occursBefore s1 s2 t -> occursBefore s1 s2 (t +:+ b).
Proof.
  intros H. rewrite <- (app_nil_l (t +:+ b)). now apply occursBefore_app.
Qed.

Lemma select_tail_order (p : QueryParams) (s1 s2 : string) :
  occursBefore s1 s2 (selectTail p) ->
  occursBefore s1 s2 (query (buildSelectQuery p)).
Proof.
  intros H. destruct (select_query_tail p) as (before & after & ->).
  now apply occursBefore_app.
Qed.

(** X3. Predicates keep their input order in the WHERE clause: when the
    predicate at position [k1] emits the clause [cl1] and the predicate at a
    later position [k2] emits [cl2], then [cl1] occurs in the text built by
    [buildSelectQuery], [buildUpdateQuery] and [buildDeleteQuery] and [cl2]
    occurs after it. *)
Theorem X3_predicates_keep_input_order
    (p : QueryParams) (t : string) (d : Js.Obj) (ws : list WhereCondition)
    (k1 k2 : nat) (c1 c2 : WhereCondition) :
  where_ p = Some ws -> k1 < k2 -> ws !! k1 = Some c1 -> ws !! k2 = Some c2 ->
  (forall cl1 cl2,
     stepClauses "param" (1 + k1) c1 = [cl1] ->
     stepClauses "param" (1 + k2) c2 = [cl2] ->
     occursBefore cl1 cl2 (query (buildSelectQuery p)) /\
     occursBefore cl1 cl2 (query (buildDeleteQuery t ws))) /\
  (forall cl1 cl2,
     stepClauses "where_param" (1000 + k1) c1 = [cl1] ->
     stepClauses "where_param" (1000 + k2) c2 = [cl2] ->
     occursBefore cl1 cl2 (query (buildUpdateQuery t d ws))).
Proof.
  intros Hp Hlt H1 H2.
  assert (Hlen : (0 <? length ws)%nat = true).
  { apply Nat.ltb_lt. apply lookup_lt_Some in H1. lia. }
  split.
  - intros cl1 cl2 Hcl1 Hcl2.
    pose proof (clauses_in_order "param" 1 k1 k2 ws c1 c2 cl1 cl2
                  Hlt H1 H2 Hcl1 Hcl2) as Hord.
    split.
    + apply select_tail_order. unfold selectTail. rewrite Hp. simpl default.
      rewrite Hlen. now apply occursBefore_app, occursBefore_app_l.
    + rewrite delete_closed. cbn [query]. rewrite Hlen.
      now do 4 apply occursBefore_app_l.
  - intros cl1 cl2 Hcl1 Hcl2.
    pose proof (clauses_in_order "where_param" 1000 k1 k2 ws c1 c2 cl1 cl2
                  Hlt H1 H2 Hcl1 Hcl2) as Hord.
    rewrite update_closed. cbn [query]. rewrite Hlen.
    now do 5 apply occursBefore_app_l.
Qed.

Lemma X3_witness :
  occursBefore "[age] >= @param1" "[name] LIKE @param3"
               (query (buildSelectQuery adults)).
Proof.
  destruct (X3_predicates_keep_input_order adults "users" []
              [ageAtLeast18; notDeleted; nameLikeA] 0 2 ageAtLeast18 nameLikeA
              eq_refl) as [Hsel _]; [lia | reflexivity | reflexivity |].
  apply (Hsel "[age] >= @param1" "[name] LIKE @param3" eq_refl eq_refl).
Defined.

(** X4. Joins and ordering terms keep their input order in the text of
    [buildSelectQuery]: the JOIN clause of an earlier join occurs before that
    of a later one, and the ORDER BY term of an earlier ordering term before
    that of a later one. *)
Theorem X4_joins_and_ordering_keep_input_order
    (p : QueryParams) (js : list JoinCondition) (os : list OrderTerm)
    (k1 k2 i1 i2 : nat) (j1 j2 : JoinCondition) (o1 o2 : OrderTerm) :
  joins p = Some js -> k1 < k2 -> js !! k1 = Some j1 -> js !! k2 = Some j2 ->
  orderBy p = Some os -> i1 < i2 -> os !! i1 = Some o1 -> os !! i2 = Some o2 ->
  occursBefore (joinText j1) (joinText j2) (query (buildSelectQuery p)) /\
  occursBefore (orderText o1) (orderText o2) (query (buildSelectQuery p)).
Proof.
  intros Hj Hk Hj1 Hj2 Ho Hi Ho1 Ho2. split.
  - apply select_tail_order. unfold selectTail. rewrite Hj. simpl default.
    apply occursBefore_app_r.
    now apply (join_map_in_order "" joinText js k1 k2).
  - apply select_tail_order. unfold selectTail. rewrite Ho. simpl default.
    assert (Hlen : (0 <? length os)%nat = true).
    { apply Nat.ltb_lt. apply lookup_lt_Some in Ho1. lia. }
    rewrite Hlen. do 3 apply occursBefore_app_l.
    now apply (join_map_in_order ", " orderText os i1 i2).
Qed.

Lemma X4_witness :
  occursBefore (joinText joinOrders) (joinText joinCities)
               (query (buildSelectQuery adults)) /\
  occursBefore "[age] DESC" "[name] ASC" (query (buildSelectQuery adults)).
Proof.
  apply (X4_joins_and_ordering_keep_input_order adults
           [joinOrders; joinCities] [byAge; byName] 0 1 0 1
           joinOrders joinCities byAge byName);
    first [reflexivity | lia].
Defined.

(** X5. The values of a record reach the parameter map under their column
    names: [buildInsertQuery] binds every key of the record to the record's
    value at that key, and so does [buildUpdateQuery] for every key that is
    not one of the names its WHERE loop generates for this statement
    ([where_param<j>] or [where_param<j>_<i>] with [j] from 1000 up to the
    number of predicates). *)
Theorem X5_record_values_bound
    (t : string) (d : Js.Obj) (ws : list WhereCondition) (key : string) :
  key ∈ Js.keys d ->
  inputs (buildInsertQuery t d) !! key = Some (Js.get d key) /\
  ((forall j, 1000 <= j < 1000 + length ws ->
              ~ generatedBy "where_param" j key) ->
   inputs (buildUpdateQuery t d ws) !! key = Some (Js.get d key)).
Proof.
  intros Hkey. split.
  - unfold buildInsertQuery. cbn [inputs]. now apply lookup_list_to_map_get.
  - intros Hfree. rewrite update_closed. cbn [inputs].
    rewrite lookup_bindAll_other; [now apply lookup_list_to_map_get|].
    rewrite loopBindings_names.
    intros (j & Hj & Hg)%loopNames_range. now apply (Hfree j).
Qed.

Lemma X5_witness :
  inputs (buildInsertQuery "users" (exampleRecord (Js.Str "Ann") (Js.Number 3)))
    !! "age" = Some (Js.Number 3) /\
  inputs (buildUpdateQuery "users" (exampleRecord (Js.Str "Ann") (Js.Number 3))
            []) !! "age" = Some (Js.Number 3).
Proof.
  destruct (X5_record_values_bound "users"
              (exampleRecord (Js.Str "Ann") (Js.Number 3)) [] "age")
    as [Hi Hu].
  - unfold exampleRecord, Js.keys. simpl. apply elem_of_cons. right.
    apply elem_of_cons. left. reflexivity.
  - split; [exact Hi|]. apply Hu. intros j Hj. simpl in Hj. lia.
Defined.

(** X6. Without a limit, or with limit [0], [buildSelectQuery] paginates
    nothing: the offset is ignored whatever it is and the result is that of
    the description without limit and offset. *)
Theorem X6_offset_is_ignored_without_limit (p : QueryParams) :
  limit p = None \/ limit p = Some 0%Z ->
  buildSelectQuery p = buildSelectQuery (unpaginated p).
Proof.
  intros Hl.
  assert (Ht : Js.truthy (limit p) = false) by (now destruct Hl as [-> | ->]).
  assert (Hq : query (buildSelectQuery p) =
               query (buildSelectQuery (unpaginated p))).
  { rewrite !select_query. cbv zeta. rewrite Ht.
    unfold unpaginated at 1. cbn [limit Js.truthy]. reflexivity. }
  assert (Hi : inputs (buildSelectQuery p) =
               inputs (buildSelectQuery (unpaginated p))).
  { now rewrite !select_inputs. }
  destruct (buildSelectQuery p), (buildSelectQuery (unpaginated p)).
  simpl in Hq, Hi. now subst.
Qed.

Lemma X6_witness :
  buildSelectQuery adults = buildSelectQuery (unpaginated adults).
Proof.
  apply X6_offset_is_ignored_without_limit. left. reflexivity.
Defined.

(** X7. Within one SELECT or DELETE statement no two bindings share a name:
    the parameter map has exactly one entry per binding made, that is one per
    comparison predicate and one per element of the sequence of a membership
    predicate. *)
Theorem X7_one_entry_per_binding (p : QueryParams) (t : string)
    (ws : list WhereCondition) :
  size (inputs (buildSelectQuery p)) =
    sum_list (paramCount <$> default [] (where_ p)) /\
  size (inputs (buildDeleteQuery t ws)) = sum_list (paramCount <$> ws).
Proof.
  split.
  - rewrite select_inputs, size_bindAll_fresh.
    + apply length_loopBindings.
    + rewrite loopBindings_names. apply NoDup_loopNames.
  - rewrite delete_closed. cbn [inputs]. rewrite size_bindAll_fresh.
    + apply length_loopBindings.
    + rewrite loopBindings_names. apply NoDup_loopNames.
Qed.

(** * The SELECT and INSERT tools *)

(** ** Parameter names and the driver *)

Module DriverFacts.

Lemma includes_identifier (c : ascii) (needle s : string) :
  isIdentChar c = false -> identifier s = true ->
  Mssql.includes (String c needle) s = false.
Proof.
  intros Hc. induction s as [|a s IH]; [reflexivity|].
  cbn [identifier]. intros [Ha Hs]%andb_true_iff.
  cbn [Mssql.includes Js.startsWith].
  destruct (Ascii.eqb c a) eqn:Heq.
  - apply Ascii.eqb_eq in Heq as ->. congruence.
  - now rewrite (IH Hs).
Qed.

(** The driver takes every name made of identifier characters. *)
Lemma refusesName_identifier (n : string) :
  identifier n = true -> Mssql.refusesName n = false.
Proof.
  intros Hn. unfold Mssql.refusesName.
  now rewrite !includes_identifier by first [reflexivity | exact Hn].
Qed.

Lemma submit_accepted (text : string) (m : gmap string Js.Value) :
  (forall k, k ∈ dom m -> Mssql.refusesName k = false) ->
  CrudTools.submit text m = CrudTools.Submitted text m.
Proof.
  intros Hm. unfold CrudTools.submit.
  destruct (existsb _ _) eqn:Hex; [|reflexivity].
  apply existsb_exists in Hex as (k & Hk & Hr).
  apply list_elem_of_In, list_elem_of_fmap in Hk as ([k' v] & -> & Hkv).
  apply elem_of_map_to_list in Hkv.
  rewrite Hm in Hr; [discriminate|]. apply elem_of_dom. now exists v.
Qed.

Lemma submit_refused (text : string) (m : gmap string Js.Value) :
  CrudTools.submit text m = CrudTools.ParameterError <->
  exists k, k ∈ dom m /\ Mssql.refusesName k = true.
Proof.
  unfold CrudTools.submit. split.
  - destruct (existsb _ _) eqn:Hex; [intros _ | discriminate].
    apply existsb_exists in Hex as (k & Hk & Hr).
    apply list_elem_of_In, list_elem_of_fmap in Hk as ([k' v] & -> & Hkv).
    apply elem_of_map_to_list in Hkv.
    exists k'. split; [|exact Hr]. apply elem_of_dom. now exists v.
  - intros (k & [v Hk]%elem_of_dom & Hr).
    assert (Hex : existsb Mssql.refusesName (map_to_list m).*1 = true).
    { apply existsb_exists. exists k. split; [|exact Hr].
      apply list_elem_of_In, list_elem_of_fmap. exists (k, v).
      split; [reflexivity|]. now apply elem_of_map_to_list. }
    now rewrite Hex.
Qed.

(** The names the loops of the builders generate are taken. *)
Lemma loopBindings_accepted (prefix : string) (start : nat)
    (ws : list WhereCondition) (k : string) :
  identifier prefix = true ->
  k ∈ (loopBindings prefix start ws).*1 -> Mssql.refusesName k = false.
Proof.
  intros Hp Hk. rewrite loopBindings_names in Hk.
  apply loopNames_generated in Hk as (j & _ & [-> | (i & ->)]);
    apply refusesName_identifier;
    [now apply identifier_plainName | now apply identifier_inName].
Qed.

(** [executeSelect] and [executeDelete] bind generated names only, so the
    driver takes them all and the statement is sent. *)
Lemma select_submitted (p : QueryParams) (text : string) :
  CrudTools.submit text (inputs (buildSelectQuery p)) =
  CrudTools.Submitted text (inputs (buildSelectQuery p)).
Proof.
  apply submit_accepted. intros k Hk.
  rewrite select_inputs, dom_bindAll in Hk.
  apply elem_of_union in Hk as [Hk | Hk]; [set_solver|].
  apply elem_of_list_to_set in Hk.
  now apply (loopBindings_accepted "param" 1 _ k eq_refl) in Hk.
Qed.

(** The names of the batched operations are taken as well, so
    [request.input] never throws in [bulkInsert], [batchUpdate] and
    [batchDelete]. *)
Lemma tagged_accepted (pos : nat) (x : string) :
  tagged pos x -> Mssql.refusesName x = false.
Proof.
  intros (prefix & idx & Hp & ->). apply refusesName_identifier.
  rewrite !identifier_app, !identifier_showNat.
  now destruct Hp as [-> | [-> | ->]].
Qed.

Lemma batched_names_accepted (t : string) (i : nat) (rows : list Js.Obj)
    (entries : list BulkTools.UpdateEntry)
    (filters : list (list WhereCondition)) :
  Forall (fun x => Mssql.refusesName x = false)
         (requestNames (BulkTools.insertBatch t i rows)) /\
  Forall (fun x => Mssql.refusesName x = false)
         (BulkTools.names (BulkTools.updateBatch t i entries)) /\
  Forall (fun x => Mssql.refusesName x = false)
         (BulkTools.names (BulkTools.deleteBatch t i filters)).
Proof.
  split; [|split]; apply Forall_forall; intros x Hx.
  - apply (insertBatch_distinct t i rows) in Hx as (pos & _ & Hx).
    now apply tagged_accepted in Hx.
  - apply (updateBatch_distinct t i entries) in Hx as (pos & _ & Hx).
    now apply tagged_accepted in Hx.
  - apply (deleteBatch_distinct t i filters) in Hx as (pos & _ & Hx).
    now apply tagged_accepted in Hx.
Qed.

End DriverFacts.

Import DriverFacts.

Example showZ_numbers :
  Js.showZ 0 = "0" /\ Js.showZ 20 = "20" /\ Js.showZ (-5) = "-5" /\
  Js.showZ (2 ^ 53) = "9007199254740992" /\
  Js.showZ (2 ^ 64) = "18446744073709552000" /\
  Js.showZ (10 ^ 20) = "100000000000000000000" /\
  Js.showZ (10 ^ 21) = "1e+21" /\
  Js.showZ (2 ^ 70) = "1.1805916207174113e+21" /\
  Js.showZ (- 2 ^ 80) = "-1.2089258196146292e+24".
Proof. repeat split; vm_compute; reflexivity. Qed.

Lemma effectiveLimit_default (limit : option Z) :
  match limit with Some l => (1 <=? l)%Z && (l <=? 10000)%Z | None => true end
    = true ->
  CrudTools.effectiveLimit limit CrudTools.defaultQueryOptions =
    Z.min (default 1000%Z limit) 1000 /\
  (1 <= Z.min (default 1000%Z limit) 1000 <= 1000)%Z.
Proof.
  unfold CrudTools.effectiveLimit, CrudTools.defaultQueryOptions.
  cbn [CrudTools.maxRows]. destruct limit as [l|]; simpl.
  - intros [H1 H2]%andb_true_iff.
    apply Z.leb_le in H1. apply Z.leb_le in H2.
    assert (Hnz : (l =? 0)%Z = false) by (apply Z.eqb_neq; lia).
    rewrite Hnz. simpl. split; [reflexivity | lia].
  - intros _. split; [reflexivity | lia].
Qed.

(** X8. Row ceiling of [sql_select]: for every request that passes the
    schema the statement sent is bounded by [n], the requested limit lowered
    to 1000 when it is higher or absent. With no offset, or offset [0], the
    text begins with [SELECT TOP <n> ]; with a positive offset it ends with
    [ OFFSET <offset> ROWS FETCH NEXT <n> ROWS ONLY]. A request that fails
    the schema is answered with an input error. *)
Theorem X8_sql_select_row_ceiling (args : CrudTools.SelectArgs) :
  CrudTools.SelectToolSchema args = true ->
  let n := Z.min (default 1000%Z (CrudTools.select_limit args)) 1000 in
  (1 <= n <= 1000)%Z /\
  exists text params,
    CrudTools.sql_select args = CrudTools.Submitted text params /\
    (CrudTools.select_offset args = None \/
     CrudTools.select_offset args = Some 0%Z ->
     exists rest, text = "SELECT TOP " +:+ Js.showZ n +:+ " " +:+ rest) /\
    (forall o, CrudTools.select_offset args = Some o -> o <> 0%Z ->
       exists before,
         text = before +:+ " OFFSET " +:+ Js.showZ o +:+
                " ROWS FETCH NEXT " +:+ Js.showZ n +:+ " ROWS ONLY").
Proof.
  intros Hschema n.
  assert (Hlimit :
    match CrudTools.select_limit args with
    | Some l => (1 <=? l)%Z && (l <=? 10000)%Z
    | None => true
    end = true).
  { unfold CrudTools.SelectToolSchema in Hschema.
    apply andb_true_iff in Hschema as [Hschema _].
    now apply andb_true_iff in Hschema as [_ Hschema]. }
  destruct (effectiveLimit_default _ Hlimit) as [Heff Hrange].
  fold n in Heff, Hrange. split; [exact Hrange|].
  unfold CrudTools.sql_select. rewrite Hschema.
  unfold CrudTools.executeSelect. rewrite Heff. cbv zeta.
  rewrite select_submitted.
  eexists _, _. split; [reflexivity|].
  set (qp := {| table := CrudTools.select_table args;
                columns := CrudTools.select_columns args;
                where_ := CrudTools.select_where args;
                joins := CrudTools.select_joins args;
                orderBy := CrudTools.select_orderBy args;
                limit := Some n;
                offset := CrudTools.select_offset args |}).
  assert (Htl : Js.truthy (limit qp) = true).
  { simpl. apply negb_true_iff, Z.eqb_neq. lia. }
  split.
  - intros Hoff.
    assert (Hto : Js.truthy (offset qp) = false).
    { simpl. now destruct Hoff as [-> | ->]. }
    rewrite select_query. cbv zeta. rewrite Htl, Hto.
    change (default 0%Z (limit qp)) with n.
    eexists. reflexivity.
  - intros o Ho Hnz.
    assert (Hto : Js.truthy (offset qp) = true).
    { simpl. rewrite Ho. simpl. now apply negb_true_iff, Z.eqb_neq. }
    rewrite select_query. cbv zeta. rewrite Htl, Hto.
    change (default 0%Z (limit qp)) with n.
    change (offset qp) with (CrudTools.select_offset args). rewrite Ho.
    change (default 0%Z (Some o)) with o.
    exists (selectHead qp +:+ selectTail qp). now rewrite !app_assoc.
Qed.

Lemma X8_witness :
  let n := Z.min (default 1000%Z (CrudTools.select_limit manyUsers)) 1000 in
  (1 <= n <= 1000)%Z /\
  exists text params,
    CrudTools.sql_select manyUsers = CrudTools.Submitted text params /\
    (CrudTools.select_offset manyUsers = None \/
     CrudTools.select_offset manyUsers = Some 0%Z ->
     exists rest, text = "SELECT TOP " +:+ Js.showZ n +:+ " " +:+ rest) /\
    (forall o, CrudTools.select_offset manyUsers = Some o -> o <> 0%Z ->
       exists before,
         text = before +:+ " OFFSET " +:+ Js.showZ o +:+
                " ROWS FETCH NEXT " +:+ Js.showZ n +:+ " ROWS ONLY").
Proof. apply (X8_sql_select_row_ceiling manyUsers). reflexivity. Defined.

Example manyUsers_statement :
  CrudTools.sql_select manyUsers =
    CrudTools.Submitted "SELECT TOP 1000 * FROM [users][users]" ∅ /\
  CrudTools.sql_select secondPage =
    CrudTools.Submitted
      "SELECT * FROM [users] ORDER BY [name] ASC OFFSET 10 ROWS FETCH NEXT 10 ROWS ONLY"
      ∅ /\
  CrudTools.sql_select farPage =
    CrudTools.Submitted
      "SELECT * FROM [users] ORDER BY [name] ASC OFFSET 1e+21 ROWS FETCH NEXT 10 ROWS ONLY"
      ∅.
Proof. repeat split; vm_compute; reflexivity. Qed.

Example insert_refusals :
  CrudTools.sql_insert insertFirstName = CrudTools.ParameterError /\
  CrudTools.sql_insert insertProto = CrudTools.InputError /\
  CrudTools.sql_insert emptyRecordInsert = CrudTools.InputError.
Proof. repeat split; vm_compute; reflexivity. Qed.

(** X9. What [sql_insert] does with a request, [record] being the copy
    [z.record] makes of the record, that is the record without a key
    [__proto__]. It answers with an input error exactly when the table name
    is empty or [record] has no key. It answers with the error of the
    driver, and sends nothing, exactly when neither is empty and a key of
    [record] is a name [request.input] refuses (one with a space, a single
    quote, two dashes or a comment mark). In every other case it sends the
    INSERT of [buildInsertQuery] for [record] followed by the row count
    query, with a parameter map whose keys are the keys of [record], each
    bound to the value [record] holds. *)
Theorem X9_sql_insert_validates_and_binds (args : CrudTools.InsertArgs) :
  let record := Zod.record (CrudTools.insert_data args) in
  (CrudTools.sql_insert args = CrudTools.InputError <->
   CrudTools.insert_table args = "" \/ record = []) /\
  (CrudTools.sql_insert args = CrudTools.ParameterError <->
   CrudTools.insert_table args <> "" /\ record <> [] /\
   Exists (fun key => Mssql.refusesName key = true) (Js.keys record)) /\
  (CrudTools.insert_table args <> "" -> record <> [] ->
   Forall (fun key => Mssql.refusesName key = false) (Js.keys record) ->
   exists params,
     CrudTools.sql_insert args =
       CrudTools.Submitted
         (query (buildInsertQuery (CrudTools.insert_table args) record) +:+
          "; SELECT @@ROWCOUNT as rowsAffected") params /\
     dom params = list_to_set (Js.keys record) /\
     forall key, key ∈ Js.keys record ->
       params !! key = Some (Js.get record key)).
Proof.
  unfold CrudTools.sql_insert, CrudTools.InsertToolSchema. cbv zeta.
  destruct args as [t d]. cbn [CrudTools.insert_table CrudTools.insert_data].
  set (record := Zod.record d). clearbody record.
  destruct t as [|ch t]; [|destruct record as [|kv record]].
  - split; [split; [now left | reflexivity]|].
    split; [split; [discriminate | now intros [H _]]|]. now intros H.
  - split; [split; [now right | reflexivity]|].
    split; [split; [discriminate | now intros (_ & H & _)]|]. now intros _ H.
  - change ((1 <=? String.length (String ch t))%nat &&
            (0 <? length (Js.keys (kv :: record)))%nat) with true.
    cbv iota. unfold CrudTools.executeInsert.
    cbn [CrudTools.insert_table CrudTools.insert_data].
    set (text := query _ +:+ _).
    assert (Hdom : dom (inputs (buildInsertQuery (String ch t) (kv :: record)))
                   = list_to_set (Js.keys (kv :: record)))
      by (unfold buildInsertQuery; cbn [inputs]; apply dom_list_to_map_L).
    split; [|split].
    + split; [|intros [H | H]; discriminate].
      unfold CrudTools.submit. destruct (existsb _ _); discriminate.
    + rewrite submit_refused, Hdom. split.
      * intros (k & Hk & Hr). split; [discriminate|]. split; [discriminate|].
        apply Exists_exists. exists k. split; [|exact Hr].
        now apply elem_of_list_to_set in Hk.
      * intros (_ & _ & (k & Hk & Hr)%Exists_exists).
        exists k. split; [|exact Hr]. now apply elem_of_list_to_set.
    + intros _ _ Hall. eexists. split; [|split; [exact Hdom|]].
      * apply submit_accepted. intros k Hk. rewrite Hdom in Hk.
        apply elem_of_list_to_set in Hk.
        rewrite Forall_forall in Hall. now apply Hall.
      * intros key Hkey. unfold buildInsertQuery. cbn [inputs].
        now apply lookup_list_to_map_get.
Qed.

Lemma X9_witness :
  exists params,
    CrudTools.sql_insert insertAnn =
      CrudTools.Submitted
        (query (buildInsertQuery (CrudTools.insert_table insertAnn)
                  (Zod.record (CrudTools.insert_data insertAnn))) +:+
         "; SELECT @@ROWCOUNT as rowsAffected") params /\
    dom params =
      list_to_set (Js.keys (Zod.record (CrudTools.insert_data insertAnn))) /\
    forall key,
      key ∈ Js.keys (Zod.record (CrudTools.insert_data insertAnn)) ->
      params !! key =
      Some (Js.get (Zod.record (CrudTools.insert_data insertAnn)) key).
Proof.
  destruct (X9_sql_insert_validates_and_binds insertAnn) as (_ & _ & H).
  apply H.
  - discriminate.
  - vm_compute. discriminate.
  - vm_compute. repeat constructor.
Defined.

(** ** Runs of the batched operations *)

(** X10. With a positive batch size each of the three batched operations
    returns, and the requests it sends are built from the batches of its
    input: consecutive slices that concatenate to the input in order, none
    empty, every one but possibly the last of exactly [batchSize] entries,
    [ceil (n / batchSize)] of them, the one numbered [j] built with start
    position [j * batchSize]. *)
Theorem X10_batches_partition_the_input
    (pi : BulkTools.BulkInsertParams) (pu : BulkTools.BatchUpdateParams)
    (pd : BulkTools.BatchDeleteParams) :
  0 < BulkTools.insert_batchSize pi ->
  0 < BulkTools.update_batchSize pu ->
  0 < BulkTools.delete_batchSize pd ->
  (exists chunks,
     batchesOf (BulkTools.insert_data pi) (BulkTools.insert_batchSize pi)
       chunks /\
     BulkTools.bulkInsert pi =
       Some (imap (fun j c =>
                     BulkTools.insertBatch (BulkTools.insert_table pi)
                       (j * BulkTools.insert_batchSize pi) c) chunks)) /\
  (exists chunks,
     batchesOf (BulkTools.updates pu) (BulkTools.update_batchSize pu)
       chunks /\
     BulkTools.batchUpdate pu =
       Some (imap (fun j c =>
                     BulkTools.updateBatch (BulkTools.update_table pu)
                       (j * BulkTools.update_batchSize pu) c) chunks)) /\
  (exists chunks,
     batchesOf (BulkTools.delete_conditions pd)
       (BulkTools.delete_batchSize pd) chunks /\
     BulkTools.batchDelete pd =
       Some (imap (fun j c =>
                     BulkTools.deleteBatch (BulkTools.delete_table pd)
                       (j * BulkTools.delete_batchSize pd) c) chunks)).
Proof.
  intros Hi Hu Hd. split; [|split].
  - exact (forEachBatch_chunks _ _ _ Hi).
  - exact (forEachBatch_chunks _ _ _ Hu).
  - exact (forEachBatch_chunks _ _ _ Hd).
Qed.

Lemma X10_witness :
  (exists chunks,
     batchesOf (BulkTools.insert_data fiveNames)
       (BulkTools.insert_batchSize fiveNames) chunks /\
     BulkTools.bulkInsert fiveNames =
       Some (imap (fun j c =>
                     BulkTools.insertBatch (BulkTools.insert_table fiveNames)
                       (j * BulkTools.insert_batchSize fiveNames) c) chunks)) /\
  (exists chunks,
     batchesOf (BulkTools.updates renameFive)
       (BulkTools.update_batchSize renameFive) chunks /\
     BulkTools.batchUpdate renameFive =
       Some (imap (fun j c =>
                     BulkTools.updateBatch (BulkTools.update_table renameFive)
                       (j * BulkTools.update_batchSize renameFive) c) chunks)) /\
  (exists chunks,
     batchesOf (BulkTools.delete_conditions deleteFive)
       (BulkTools.delete_batchSize deleteFive) chunks /\
     BulkTools.batchDelete deleteFive =
       Some (imap (fun j c =>
                     BulkTools.deleteBatch (BulkTools.delete_table deleteFive)
                       (j * BulkTools.delete_batchSize deleteFive) c) chunks)).
Proof.
  apply (X10_batches_partition_the_input fiveNames renameFive deleteFive);
    simpl; lia.
Defined.

Module AccountFacts.

Import BulkTools.

Lemma failuresFrom_cons (k : nat) (out : string + Z)
    (outs : list (string + Z)) :
  failuresFrom k (out :: outs) = failureOf k out ++ failuresFrom (S k) outs.
Proof.
  unfold failuresFrom. rewrite imap_cons. simpl concat.
  f_equal; [f_equal; lia|]. f_equal. apply imap_ext. intros j o _.
  unfold compose. f_equal. lia.
Qed.

Lemma batchLabel_start (k batchSize : nat) (message : string) :
  0 < batchSize ->
  [batchLabel (k * batchSize) batchSize message] = failureOf k (inl message).
Proof.
  intros Hbs. unfold batchLabel, failureOf.
  now rewrite Nat.div_mul by lia.
Qed.

Lemma no_failures (k : nat) (outs : list (string + Z)) :
  (length (failuresFrom k outs) =? 0)%nat = forallb succeeded outs.
Proof.
  revert k; induction outs as [|out outs IH]; intros k; [reflexivity|].
  rewrite failuresFrom_cons, List.length_app. destruct out as [m | rows].
  - reflexivity.
  - simpl. apply IH.
Qed.

(** The loop with its effects sends exactly the requests of the loop without
    them, whatever the answers are, and folds the answers into its state. *)
Lemma runBatches_outcomes {A Db : Type}
    (runQuery : Db -> Request -> Db * (string + Z)) (typeError : string)
    (items : list A) (batchSize : nat)
    (build : nat -> list A -> option Request)
    (body : nat -> list A -> Request) :
  0 < batchSize ->
  (forall i, i < length items ->
     build i (slice items i (i + batchSize)) =
     Some (body i (slice items i (i + batchSize)))) ->
  forall fuel k db total errs,
    length items - k * batchSize < fuel ->
    exists reqs,
      forEachBatch fuel items batchSize (k * batchSize) body = Some reqs /\
      forEachBatch fuel items batchSize (k * batchSize) build =
        Some (Some <$> reqs) /\
      runBatches runQuery typeError fuel items batchSize (k * batchSize) build
        (db, total, errs) =
        Some ((outcomes runQuery db reqs).2,
              (total + sumRows (outcomes runQuery db reqs).1)%Z,
              errs ++ failuresFrom k (outcomes runQuery db reqs).1).
Proof.
  intros Hbs Hbuild. induction fuel as [|fuel IH]; intros k db total errs Hfuel.
  - lia.
  - simpl. destruct (k * batchSize <? length items)%nat eqn:Hi.
    + apply Nat.ltb_lt in Hi. rewrite (Hbuild _ Hi).
      set (r := body (k * batchSize) _).
      replace (k * batchSize + batchSize) with (S k * batchSize) by lia.
      unfold attempt. destruct (runQuery db r) as [db' out] eqn:Hrun.
      destruct out as [message | rows].
      * destruct (IH (S k) db' total
                    (errs ++ [batchLabel (k * batchSize) batchSize message]))
          as (reqs & -> & -> & ->); [lia|].
        exists (r :: reqs). split; [reflexivity|]. split; [reflexivity|].
        simpl outcomes. rewrite Hrun.
        destruct (outcomes runQuery db' reqs) as [outs db''].
        cbn [fst snd]. rewrite failuresFrom_cons, batchLabel_start by exact Hbs.
        unfold sumRows. cbn [map foldr rowsOf].
        now rewrite <- List.app_assoc.
      * destruct (IH (S k) db' (total + rows)%Z errs)
          as (reqs & -> & -> & ->); [lia|].
        exists (r :: reqs). split; [reflexivity|]. split; [reflexivity|].
        simpl outcomes. rewrite Hrun.
        destruct (outcomes runQuery db' reqs) as [outs db''].
        cbn [fst snd]. rewrite failuresFrom_cons.
        unfold sumRows. cbn [map foldr rowsOf failureOf app].
        do 2 f_equal. f_equal. lia.
    + exists []. split; [reflexivity|]. split; [reflexivity|].
      simpl. unfold sumRows, failuresFrom. simpl.
      now rewrite Z.add_0_r, List.app_nil_r.
Qed.

Lemma length_forEachBatch {A B : Type} (items : list A) (batchSize : nat)
    (body : nat -> list A -> B) (rs : list B) :
  0 < batchSize ->
  forEachBatch (S (length items)) items batchSize 0 body = Some rs ->
  length rs = (length items + batchSize - 1) / batchSize.
Proof.
  intros Hbs Hrs.
  destruct (forEachBatch_chunks items batchSize body Hbs)
    as (chunks & (_ & Hlen & _) & Heq).
  rewrite Heq in Hrs. injection Hrs as <-. now rewrite length_imap.
Qed.

(** The whole operation: loop, then [return]. *)
Lemma run_accounted {A Db : Type}
    (runQuery : Db -> Request -> Db * (string + Z)) (typeError : string)
    (items : list A) (batchSize : nat)
    (build : nat -> list A -> option Request)
    (body : nat -> list A -> Request) (db : Db) :
  0 < batchSize ->
  (forall i, i < length items ->
     build i (slice items i (i + batchSize)) =
     Some (body i (slice items i (i + batchSize)))) ->
  exists reqs res,
    forEachBatch (S (length items)) items batchSize 0 body = Some reqs /\
    forEachBatch (S (length items)) items batchSize 0 build =
      Some (Some <$> reqs) /\
    report (length items) batchSize <$>
      runBatches runQuery typeError (S (length items)) items batchSize 0 build
        (db, 0%Z, []) = Some res /\
    accounted runQuery batchSize reqs db res.
Proof.
  intros Hbs Hbuild.
  destruct (runBatches_outcomes runQuery typeError items batchSize build body
              Hbs Hbuild (S (length items)) 0 db 0%Z [])
    as (reqs & Hreqs & Hopt & Hrun); [simpl; lia|].
  change (0 * batchSize) with 0 in Hreqs, Hopt, Hrun.
  exists reqs. eexists. split; [exact Hreqs|]. split; [exact Hopt|].
  rewrite Hrun. split; [reflexivity|].
  pose proof (length_forEachBatch _ _ _ _ Hbs Hreqs) as Hlen.
  unfold accounted, report. cbn [fst snd success totalRowsAffected errors
                                 batchCount BulkTools.batchSize].
  rewrite List.app_nil_l.
  split; [reflexivity|]. split; [apply Z.add_0_l|]. split; [|split; [|split]].
  - now destruct (failuresFrom 0 _).
  - apply no_failures.
  - unfold ceilDiv. destruct (Nat.eqb_spec batchSize 0); [lia|].
    now rewrite Hlen.
  - reflexivity.
Qed.

End AccountFacts.

Import AccountFacts.

Example fiveNames_run :
  BulkTools.bulkInsertRun secondFails "no keys" fiveNames 0 =
  Some (3, {| BulkTools.success := false;
              BulkTools.totalRowsAffected := 3;
              BulkTools.batchCount := Some 3;
              BulkTools.batchSize := 2;
              BulkTools.errors := Some ["Batch 2: Timeout"] |}).
Proof. reflexivity. Qed.

(** X11. With a positive batch size each of the three batched operations
    returns whatever the server answers: a failed request does not stop the
    run, every request of the operation is sent once, in order, to the
    server the request before it left behind. The returned object accounts
    for the answers: [totalRowsAffected] adds up the row counts of the
    requests that succeeded, [errors] lists the failed ones as
    [Batch <number>: <message>] numbered from 1 and is absent when none
    failed, [success] tells that none failed, and [batchCount] is the number
    of requests sent. [bulkInsert] never fails before sending. *)
Theorem X11_batched_results_account_for_every_request {Db : Type}
    (runQuery : Db -> BulkTools.Request -> Db * (string + Z))
    (typeError : string) (db : Db)
    (pi : BulkTools.BulkInsertParams) (pu : BulkTools.BatchUpdateParams)
    (pd : BulkTools.BatchDeleteParams) :
  0 < BulkTools.insert_batchSize pi ->
  0 < BulkTools.update_batchSize pu ->
  0 < BulkTools.delete_batchSize pd ->
  (exists reqs res,
     BulkTools.bulkInsert pi = Some (Some <$> reqs) /\
     BulkTools.bulkInsertRun runQuery typeError pi db = Some res /\
     accounted runQuery (BulkTools.insert_batchSize pi) reqs db res) /\
  (exists reqs res,
     BulkTools.batchUpdate pu = Some reqs /\
     BulkTools.batchUpdateRun runQuery typeError pu db = Some res /\
     accounted runQuery (BulkTools.update_batchSize pu) reqs db res) /\
  (exists reqs res,
     BulkTools.batchDelete pd = Some reqs /\
     BulkTools.batchDeleteRun runQuery typeError pd db = Some res /\
     accounted runQuery (BulkTools.delete_batchSize pd) reqs db res).
Proof.
  intros Hi Hu Hd. split; [|split].
  - destruct (run_accounted runQuery typeError (BulkTools.insert_data pi)
                (BulkTools.insert_batchSize pi)
                (BulkTools.insertBatch (BulkTools.insert_table pi))
                (fun i batch =>
                   default {| BulkTools.parameters := [];
                              BulkTools.statement := "" |}
                     (BulkTools.insertBatch (BulkTools.insert_table pi)
                        i batch))
                db Hi)
      as (reqs & res & _ & Hopt & Hres & Hacc).
    + intros i Hlt.
      pose proof (slice_nonempty (BulkTools.insert_data pi) i
                    (BulkTools.insert_batchSize pi) Hlt Hi) as Hne.
      destruct (BulkTools.slice _ _ _) as [|first rest]; [now elim Hne|].
      reflexivity.
    + now exists reqs, res.
  - destruct (run_accounted runQuery typeError (BulkTools.updates pu)
                (BulkTools.update_batchSize pu)
                (fun i batch =>
                   Some (BulkTools.updateBatch (BulkTools.update_table pu)
                           i batch))
                (BulkTools.updateBatch (BulkTools.update_table pu)) db Hu)
      as (reqs & res & Hreqs & _ & Hres & Hacc); [reflexivity|].
    now exists reqs, res.
  - destruct (run_accounted runQuery typeError (BulkTools.delete_conditions pd)
                (BulkTools.delete_batchSize pd)
                (fun i batch =>
                   Some (BulkTools.deleteBatch (BulkTools.delete_table pd)
                           i batch))
                (BulkTools.deleteBatch (BulkTools.delete_table pd)) db Hd)
      as (reqs & res & Hreqs & _ & Hres & Hacc); [reflexivity|].
    now exists reqs, res.
Qed.

Lemma X11_witness :
  (exists reqs res,
     BulkTools.bulkInsert fiveNames = Some (Some <$> reqs) /\
     BulkTools.bulkInsertRun secondFails "no keys" fiveNames 0 = Some res /\
     accounted secondFails (BulkTools.insert_batchSize fiveNames) reqs 0
       res) /\
  (exists reqs res,
     BulkTools.batchUpdate renameFive = Some reqs /\
     BulkTools.batchUpdateRun secondFails "no keys" renameFive 0 = Some res /\
     accounted secondFails (BulkTools.update_batchSize renameFive) reqs 0
       res) /\
  (exists reqs res,
     BulkTools.batchDelete deleteFive = Some reqs /\
     BulkTools.batchDeleteRun secondFails "no keys" deleteFive 0 = Some res /\
     accounted secondFails (BulkTools.delete_batchSize deleteFive) reqs 0
       res).
Proof.
  apply (X11_batched_results_account_for_every_request secondFails "no keys" 0
           fiveNames renameFive deleteFive); simpl; lia.
Defined.

(** ** Bindings over a whole run *)

Module BindingFacts.

Import BulkTools.

(** When what a batch contributes is what its entries contribute one after
    the other, each by its position in the input, the batch size leaves no
    trace in the contributions of the whole run. *)
Lemma forEachBatch_concat {A B C : Type} (items : list A) (batchSize : nat)
    (body : nat -> list A -> B) (proj : B -> list C)
    (h : nat -> A -> list C) :
  0 < batchSize ->
  (forall i, i < length items ->
     proj (body i (slice items i (i + batchSize))) =
     concat (imap (fun b => h (i + b)) (slice items i (i + batchSize)))) ->
  exists rs,
    forEachBatch (S (length items)) items batchSize 0 body = Some rs /\
    concat (map proj rs) = concat (imap h items).
Proof.
  intros Hbs Hbody.
  destruct (forEachBatch_run items batchSize body
              (fun i rs =>
                 concat (map proj rs) =
                 concat (imap (fun b => h (i + b)) (drop i items)))
              Hbs) with (fuel := S (length items)) (i := 0)
    as (rs & Hrs & Hflat).
  - intros i Hi. now rewrite drop_ge.
  - intros i rs Hi IH. simpl. rewrite IH, Hbody by exact Hi.
    rewrite slice_take_drop, <- concat_app, <- (drop_drop items batchSize i).
    set (rest := drop i items).
    transitivity (concat (imap (fun b => h (i + b))
                            (take batchSize rest ++ drop batchSize rest)));
      [|now rewrite take_drop].
    rewrite imap_app. do 2 f_equal.
    destruct (decide (batchSize <= length rest)) as [Hle | Hgt].
    + rewrite length_take_le by exact Hle.
      apply imap_ext. intros b a _. f_equal. lia.
    + now rewrite !drop_ge by lia.
  - lia.
  - exists rs. split; [exact Hrs|]. now rewrite Hflat, drop_0.
Qed.

Lemma insertRow_bindings (i : nat) (columns : list string) (b : nat)
    (row : Js.Obj) :
  (insertRow i columns b row).1 = rowBindings columns (i + b) row.
Proof. reflexivity. Qed.

Lemma insertBatch_bindings (t : string) (columns : list string) (i : nat)
    (batch : list Js.Obj) :
  Forall (fun row => Js.keys row = columns) batch ->
  requestBindings (insertBatch t i batch) =
  concat (imap (fun b => rowBindings columns (i + b)) batch).
Proof.
  intros Hrows. destruct batch as [|first rest]; [reflexivity|].
  apply Forall_cons in Hrows as [Hfirst _].
  unfold insertBatch, requestBindings. cbn [parameters].
  rewrite Hfirst, fmap_imap. reflexivity.
Qed.

Lemma whereClause_bindings (i b : nat) (ws : list WhereCondition) :
  concat (imap (whereClause i b) ws).*1 = filterBindings (i + b) ws.
Proof.
  unfold filterBindings. rewrite fmap_imap. f_equal.
  apply imap_ext. intros k c _. unfold compose, whereClause.
  now destruct (Js.isDefined (value c)).
Qed.

Lemma updateStatement_bindings (t : string) (i b : nat) (u : UpdateEntry) :
  (updateStatement t i b u).1 =
  setBindings (i + b) (data u) ++ filterBindings (i + b) (where_ u).
Proof.
  unfold updateStatement. cbn [fst].
  rewrite whereClause_bindings. f_equal.
  unfold setBindings. rewrite fmap_imap. reflexivity.
Qed.

Lemma updateBatch_bindings (t : string) (i : nat) (batch : list UpdateEntry) :
  parameters (updateBatch t i batch) =
  concat (imap (fun b u => setBindings (i + b) (data u) ++
                           filterBindings (i + b) (where_ u)) batch).
Proof.
  unfold updateBatch. cbn [parameters]. rewrite fmap_imap. f_equal.
  apply imap_ext. intros b u _. apply updateStatement_bindings.
Qed.

Lemma deleteBatch_bindings (t : string) (i : nat)
    (batch : list (list WhereCondition)) :
  parameters (deleteBatch t i batch) =
  concat (imap (fun b w => filterBindings (i + b) w) batch).
Proof.
  unfold deleteBatch. cbn [parameters]. rewrite fmap_imap. f_equal.
  apply imap_ext. intros b w _. unfold deleteStatement. cbn [fst].
  apply whereClause_bindings.
Qed.

End BindingFacts.

Import BindingFacts.

(** X12. The batch size decides how the bindings are grouped into requests
    and nothing else. Over a whole run of [batchUpdate] the entry at
    position [pos] of the input binds [update_<pos>_<k>] to the value of
    its [k]-th column and [where_<pos>_<k>] to the value of its [k]-th
    predicate when that predicate carries one; [batchDelete] binds the
    latter; [bulkInsert], over rows that all have the column list
    [columns], binds [param_<pos>_<k>] to the row's value for the [k]-th
    column. The bindings are made in input order. *)
Theorem X12_bindings_do_not_depend_on_batch_size
    (columns : list string)
    (pi : BulkTools.BulkInsertParams) (pu : BulkTools.BatchUpdateParams)
    (pd : BulkTools.BatchDeleteParams) :
  0 < BulkTools.insert_batchSize pi ->
  0 < BulkTools.update_batchSize pu ->
  0 < BulkTools.delete_batchSize pd ->
  Forall (fun row => Js.keys row = columns) (BulkTools.insert_data pi) ->
  (exists reqs,
     BulkTools.bulkInsert pi = Some reqs /\
     concat (map requestBindings reqs) =
     concat (imap (rowBindings columns) (BulkTools.insert_data pi))) /\
  (exists reqs,
     BulkTools.batchUpdate pu = Some reqs /\
     concat (map BulkTools.parameters reqs) =
     concat (imap (fun pos u =>
                     setBindings pos (BulkTools.data u) ++
                     filterBindings pos (BulkTools.where_ u))
                  (BulkTools.updates pu))) /\
  (exists reqs,
     BulkTools.batchDelete pd = Some reqs /\
     concat (map BulkTools.parameters reqs) =
     concat (imap filterBindings (BulkTools.delete_conditions pd))).
Proof.
  intros Hi Hu Hd Hrows. split; [|split].
  - apply (forEachBatch_concat _ _ _ requestBindings (rowBindings columns) Hi).
    intros i _. apply insertBatch_bindings. now apply Forall_slice.
  - apply (forEachBatch_concat _ _ _ BulkTools.parameters
             (fun pos u => setBindings pos (BulkTools.data u) ++
                           filterBindings pos (BulkTools.where_ u)) Hu).
    intros i _. apply updateBatch_bindings.
  - apply (forEachBatch_concat _ _ _ BulkTools.parameters filterBindings Hd).
    intros i _. apply deleteBatch_bindings.
Qed.

Lemma X12_witness :
  (exists reqs,
     BulkTools.bulkInsert fiveNames = Some reqs /\
     concat (map requestBindings reqs) =
     concat (imap (rowBindings ["name"]) (BulkTools.insert_data fiveNames))) /\
  (exists reqs,
     BulkTools.batchUpdate renameFive = Some reqs /\
     concat (map BulkTools.parameters reqs) =
     concat (imap (fun pos u =>
                     setBindings pos (BulkTools.data u) ++
                     filterBindings pos (BulkTools.where_ u))
                  (BulkTools.updates renameFive))) /\
  (exists reqs,
     BulkTools.batchDelete deleteFive = Some reqs /\
     concat (map BulkTools.parameters reqs) =
     concat (imap filterBindings (BulkTools.delete_conditions deleteFive))).
Proof.
  apply (X12_bindings_do_not_depend_on_batch_size ["name"]
           fiveNames renameFive deleteFive); simpl; try lia.
  repeat constructor.
Defined.

(** ** Placeholders of the batched statements *)

Module BatchTextFacts.

Import BulkTools.

Lemma identifier_positionName (prefix : string) (pos k : nat) :
  identifier prefix = true -> identifier (positionName prefix pos k) = true.
Proof.
  intros Hp. unfold positionName.
  now rewrite !identifier_app, Hp, !identifier_showNat.
Qed.

Lemma Forall_imap_intro {A B : Type} (P : B -> Prop) (f : nat -> A -> B)
    (l : list A) :
  (forall b a, l !! b = Some a -> P (f b a)) -> Forall P (imap f l).
Proof.
  intros H. apply Forall_forall. intros x Hx.
  apply elem_of_lookup_imap in Hx as (b & a & -> & Hb). now apply H.
Qed.

(** Texts paired with the bindings they come with: joined, they reference
    the names bound, in order. *)
Lemma emits_joined {A : Type} (sep : string)
    (parts : list (list (string * A) * string)) :
  noAt sep = true -> (forall x, safeStart (sep +:+ x)) ->
  Forall (fun part => emits part.2 part.1.*1) parts ->
  emits (Js.join sep parts.*2) (concat parts.*1).*1.
Proof.
  intros Hsep Hsafe Hparts. rewrite fst_concat.
  apply emits_join; [exact Hsep | exact Hsafe|].
  change (map ?f ?l) with (f <$> l). rewrite <- list_fmap_compose.
  apply Forall2_fmap, Forall_Forall2_diag.
  eapply Forall_impl; [exact Hparts|]. intros part Hpart. exact Hpart.
Qed.

Lemma safeStart_sep (c : ascii) (s x : string) :
  isIdentChar c = false -> safeStart (String c s +:+ x).
Proof. intros Hc. rewrite app_cons. now apply safeStart_cons. Qed.

Lemma emits_rowCount :
  emits "; SELECT @@ROWCOUNT as rowsAffected" [""; "ROWCOUNT"].
Proof.
  change "; SELECT @@ROWCOUNT as rowsAffected"
    with ("; SELECT " +:+ "@" +:+ "" +:+ "@" +:+ "ROWCOUNT" +:+
          " as rowsAffected").
  apply emits_noAt; [reflexivity|].
  apply emits_at; [reflexivity | now apply safeStart_sep |].
  apply emits_at; [reflexivity | now apply safeStart_cons |].
  now apply emits_clean.
Qed.

Lemma insertRow_emits (i : nat) (columns : list string) (b : nat)
    (row : Js.Obj) :
  emits (insertRow i columns b row).2 (insertRow i columns b row).1.*1.
Proof.
  unfold insertRow. cbn [fst snd].
  set (cells := imap _ columns).
  apply emits_noAt; [reflexivity|].
  rewrite <- (map_map fst (fun n => "@" +:+ n) cells).
  apply emits_in_list. change (map fst cells) with (cells.*1).
  apply Forall_fmap.
  apply Forall_imap_intro. intros k column _.
  now apply (identifier_positionName "param_").
Qed.

Lemma insertBatch_references_cons (t : string) (i : nat) (first : Js.Obj)
    (rest : list Js.Obj) :
  noAt t = true -> cleanRecord first ->
  exists r,
    insertBatch t i (first :: rest) = Some r /\ referencesItsBindings r.
Proof.
  intros Ht Hfirst. eexists. split; [reflexivity|].
  unfold referencesItsBindings, names.
  cbn [statement parameters]. apply emits_placeholders.
  apply emits_noAt; [reflexivity|]. apply emits_noAt; [exact Ht|].
  apply emits_noAt; [reflexivity|].
  apply emits_noAt.
  { apply noAt_join; [reflexivity | exact Hfirst]. }
  apply emits_noAt; [reflexivity|].
  apply emits_app; [|apply emits_rowCount | now apply safeStart_cons].
  apply emits_joined; [reflexivity | intros x; now apply safeStart_sep |].
  apply Forall_imap_intro. intros b row _. apply insertRow_emits.
Qed.

Lemma insertBatch_references (t : string) (i : nat) (batch : list Js.Obj)
    (r : Request) :
  noAt t = true -> Forall cleanRecord batch ->
  insertBatch t i batch = Some r -> referencesItsBindings r.
Proof.
  intros Ht Hbatch Hr. destruct batch as [|first rest]; [discriminate|].
  apply Forall_cons in Hbatch as [Hfirst _].
  destruct (insertBatch_references_cons t i first rest Ht Hfirst)
    as (r' & Hr' & Href).
  rewrite Hr' in Hr. now injection Hr as <-.
Qed.

Lemma setClause_emits (i b k : nat) (entry : string * Js.Value) :
  noAt entry.1 = true ->
  emits (setClause i b k entry).2 [(setClause i b k entry).1.1].
Proof.
  intros Hcol. unfold setClause. cbn [fst snd].
  apply emits_noAt; [reflexivity|]. apply emits_noAt; [exact Hcol|].
  change ("] = @" +:+ ?n) with ("] = " +:+ "@" +:+ n).
  apply emits_noAt; [reflexivity|].
  now apply emits_at_end, (identifier_positionName "update_").
Qed.

Lemma whereClause_emits (i b k : nat) (c : WhereCondition) :
  noAt (column c) = true ->
  emits (whereClause i b k c).2 (whereClause i b k c).1.*1.
Proof.
  intros Hcol. unfold whereClause.
  destruct (Js.isDefined (value c)); cbn [fst snd fmap list_fmap].
  - apply emits_noAt; [reflexivity|]. apply emits_noAt; [exact Hcol|].
    apply emits_noAt; [reflexivity|].
    apply emits_noAt; [apply noAt_operatorText|].
    change (" @" +:+ ?n) with (" " +:+ "@" +:+ n).
    apply emits_noAt; [reflexivity|].
    now apply emits_at_end, (identifier_positionName "where_").
  - apply emits_clean. now rewrite !noAt_app, Hcol, noAt_operatorText.
Qed.

Lemma wheres_emit (i b : nat) (ws : list WhereCondition) :
  cleanFilter ws ->
  emits (Js.join " AND " (imap (whereClause i b) ws).*2)
        (concat (imap (whereClause i b) ws).*1).*1.
Proof.
  intros Hws.
  apply emits_joined; [reflexivity | intros x; now apply safeStart_sep |].
  apply Forall_imap_intro. intros k c Hk. apply whereClause_emits.
  exact (Forall_lookup_1 _ _ _ _ Hws Hk).
Qed.

Lemma updateStatement_emits (t : string) (i b : nat) (u : UpdateEntry) :
  noAt t = true -> cleanRecord (data u) -> cleanFilter (where_ u) ->
  emits (updateStatement t i b u).2 (updateStatement t i b u).1.*1.
Proof.
  intros Ht Hd Hw. unfold updateStatement. cbn [fst snd].
  rewrite fmap_app.
  apply emits_noAt; [reflexivity|]. apply emits_noAt; [exact Ht|].
  apply emits_noAt; [reflexivity|].
  apply emits_app.
  - replace ((imap (setClause i b) (data u)).*1.*1)
      with (concat (map (fun part : string * Js.Value * string => [part.1.1])
                        (imap (setClause i b) (data u)))).
    + apply emits_join; [reflexivity | intros x; now apply safeStart_sep |].
      change (map ?f ?l) with (f <$> l).
      apply Forall2_fmap, Forall_Forall2_diag.
      apply Forall_imap_intro. intros k entry Hk. apply setClause_emits.
      unfold cleanRecord, Js.keys in Hd.
      apply (Forall_lookup_1 _ _ k entry.1) in Hd; [exact Hd|].
      now rewrite list_lookup_fmap, Hk.
    + rewrite concat_map_singleton. change (map ?f ?l) with (f <$> l).
      now rewrite <- list_fmap_compose.
  - apply emits_noAt; [reflexivity|]. now apply wheres_emit.
  - now apply safeStart_sep.
Qed.

Lemma updateBatch_references (t : string) (i : nat) (batch : list UpdateEntry) :
  noAt t = true ->
  Forall (fun u => cleanRecord (data u) /\ cleanFilter (where_ u)) batch ->
  referencesItsBindings (updateBatch t i batch).
Proof.
  intros Ht Hbatch. unfold referencesItsBindings, names, updateBatch.
  cbn [statement parameters]. apply emits_placeholders.
  apply emits_app; [|apply emits_rowCount | now apply safeStart_cons].
  apply emits_joined; [reflexivity | intros x; now apply safeStart_sep |].
  apply Forall_imap_intro. intros b u Hb.
  destruct (Forall_lookup_1 _ _ _ _ Hbatch Hb) as [Hd Hw].
  now apply updateStatement_emits.
Qed.

Lemma deleteBatch_references (t : string) (i : nat)
    (batch : list (list WhereCondition)) :
  noAt t = true -> Forall cleanFilter batch ->
  referencesItsBindings (deleteBatch t i batch).
Proof.
  intros Ht Hbatch. unfold referencesItsBindings, names, deleteBatch.
  cbn [statement parameters]. apply emits_placeholders.
  apply emits_app; [|apply emits_rowCount | now apply safeStart_cons].
  apply emits_joined; [reflexivity | intros x; now apply safeStart_sep |].
  apply Forall_imap_intro. intros b w Hb.
  unfold deleteStatement. cbn [fst snd].
  apply emits_noAt; [reflexivity|]. apply emits_noAt; [exact Ht|].
  apply emits_noAt; [reflexivity|].
  apply wheres_emit. exact (Forall_lookup_1 _ _ _ _ Hbatch Hb).
Qed.

(** A property of the request of every batch holds of every request of the
    run. *)
Lemma forEachBatch_Forall {A B : Type} (items : list A) (batchSize : nat)
    (body : nat -> list A -> B) (ok : A -> Prop) (Q : B -> Prop) :
  0 < batchSize ->
  (forall i batch, Forall ok batch -> Q (body i batch)) ->
  Forall ok items ->
  exists rs,
    forEachBatch (S (length items)) items batchSize 0 body = Some rs /\
    Forall Q rs.
Proof.
  intros Hbs Hbody Hitems.
  apply (forEachBatch_run items batchSize body (fun _ rs => Forall Q rs) Hbs).
  - intros i _. constructor.
  - intros i rs _ Hrs. constructor; [|exact Hrs].
    apply Hbody. now apply Forall_slice.
  - lia.
Qed.

End BatchTextFacts.

Import BatchTextFacts.

Example spacedRows_request :
  BulkTools.bulkInsert spacedRows =
  Some [Some {| BulkTools.parameters := [("param_0_0", Js.Str "Ann")];
                BulkTools.statement :=
                  "INSERT INTO [users] ([first name]) VALUES (@param_0_0); SELECT @@ROWCOUNT as rowsAffected" |}].
Proof. reflexivity. Qed.

(** X13. The statements of the batched operations reference exactly the
    parameters bound to their request. With a positive batch size, a table
    name free of [@] and column names free of [@], the placeholders of the
    text of every request are the names bound to it, in binding order,
    followed by the [@@ROWCOUNT] of the row count query. The names are
    generated from positions, so the column names need not be
    identifiers. *)
Theorem X13_batched_statements_reference_their_bindings
    (pi : BulkTools.BulkInsertParams) (pu : BulkTools.BatchUpdateParams)
    (pd : BulkTools.BatchDeleteParams) :
  0 < BulkTools.insert_batchSize pi ->
  0 < BulkTools.update_batchSize pu ->
  0 < BulkTools.delete_batchSize pd ->
  noAt (BulkTools.insert_table pi) = true ->
  noAt (BulkTools.update_table pu) = true ->
  noAt (BulkTools.delete_table pd) = true ->
  Forall cleanRecord (BulkTools.insert_data pi) ->
  Forall (fun u => cleanRecord (BulkTools.data u) /\
                   cleanFilter (BulkTools.where_ u)) (BulkTools.updates pu) ->
  Forall cleanFilter (BulkTools.delete_conditions pd) ->
  (exists reqs,
     BulkTools.bulkInsert pi = Some reqs /\
     Forall (fun request =>
               forall r, request = Some r -> referencesItsBindings r) reqs) /\
  (exists reqs,
     BulkTools.batchUpdate pu = Some reqs /\
     Forall referencesItsBindings reqs) /\
  (exists reqs,
     BulkTools.batchDelete pd = Some reqs /\
     Forall referencesItsBindings reqs).
Proof.
  intros Hi Hu Hd Hti Htu Htd Hci Hcu Hcd. split; [|split].
  - apply (forEachBatch_Forall _ _ _ cleanRecord); [exact Hi | | exact Hci].
    intros i batch Hbatch r Hr.
    exact (insertBatch_references _ i batch r Hti Hbatch Hr).
  - apply (forEachBatch_Forall _ _ _
             (fun u => cleanRecord (BulkTools.data u) /\
                       cleanFilter (BulkTools.where_ u)));
      [exact Hu | | exact Hcu].
    intros i batch Hbatch. now apply updateBatch_references.
  - apply (forEachBatch_Forall _ _ _ cleanFilter); [exact Hd | | exact Hcd].
    intros i batch Hbatch. now apply deleteBatch_references.
Qed.

Lemma X13_witness :
  (exists reqs,
     BulkTools.bulkInsert spacedRows = Some reqs /\
     Forall (fun request =>
               forall r, request = Some r -> referencesItsBindings r) reqs) /\
  (exists reqs,
     BulkTools.batchUpdate renameFive = Some reqs /\
     Forall referencesItsBindings reqs) /\
  (exists reqs,
     BulkTools.batchDelete deleteFive = Some reqs /\
     Forall referencesItsBindings reqs).
Proof.
  apply (X13_batched_statements_reference_their_bindings
           spacedRows renameFive deleteFive);
    try (simpl; lia); try reflexivity.
  - repeat constructor.
  - repeat constructor.
  - repeat constructor.
Defined.

(** ** CSV lines *)

Module CsvFacts.

Import BulkTools.

Lemma scan_nil (delimiter : string) (inQuotes : bool) (current : string)
    (result : list string) :
  scanCsvLine delimiter "" inQuotes current result = result ++ [current].
Proof. reflexivity. Qed.

Lemma scan_plain (delimiter : string) (char : ascii) (rest : string)
    (inQuotes : bool) (current : string) (result : list string) :
  Ascii.eqb char Js.quote = false ->
  scanCsvLine delimiter (String char rest) inQuotes current result =
  if String.eqb (String char "") delimiter && negb inQuotes
  then scanCsvLine delimiter rest inQuotes "" (result ++ [current])
  else scanCsvLine delimiter rest inQuotes (current +:+ String char "") result.
Proof. intros Hc. cbn [scanCsvLine]. now rewrite Hc. Qed.

Lemma scan_escaped (delimiter : string) (rest : string) (current : string)
    (result : list string) :
  scanCsvLine delimiter (String Js.quote (String Js.quote rest)) true current
    result =
  scanCsvLine delimiter rest true (current +:+ String Js.quote "") result.
Proof. reflexivity. Qed.

Lemma scan_toggle (delimiter : string) (rest : string) (inQuotes : bool)
    (current : string) (result : list string) :
  inQuotes && startsWithQuote rest = false ->
  scanCsvLine delimiter (String Js.quote rest) inQuotes current result =
  scanCsvLine delimiter rest (negb inQuotes) current result.
Proof.
  intros H. cbn [scanCsvLine].
  change (Ascii.eqb Js.quote Js.quote) with true. cbv iota.
  destruct inQuotes; [|reflexivity].
  destruct rest as [|next rest']; [reflexivity|].
  simpl in H. now rewrite H.
Qed.

Lemma single_char_eqb (c d : ascii) :
  String.eqb (String c "") (String d "") = Ascii.eqb c d.
Proof. simpl. now destruct (Ascii.eqb c d). Qed.

(** Inside quotes the loop copies an escaped field up to its closing
    quote. *)
Lemma scan_quoted (delimiter : string) (f : string) :
  forall current result rest,
    startsWithQuote rest = false ->
    scanCsvLine delimiter (escapeQuotes f +:+ String Js.quote rest) true
      current result =
    scanCsvLine delimiter rest false (current +:+ f) result.
Proof.
  induction f as [|c f IH]; intros current result rest Hrest.
  - change (escapeQuotes "") with "". rewrite app_nil_l, app_nil_r.
    rewrite scan_toggle; [reflexivity|]. now rewrite Hrest.
  - cbn [escapeQuotes]. destruct (Ascii.eqb c Js.quote) eqn:Hc.
    + apply Ascii.eqb_eq in Hc. subst c.
      rewrite !app_cons, scan_escaped, IH by exact Hrest.
      now rewrite app_assoc, app_cons, app_nil_l.
    + rewrite app_cons, scan_plain by exact Hc.
      rewrite andb_false_r, IH by exact Hrest.
      now rewrite app_assoc, app_cons, app_nil_l.
Qed.

Lemma scan_csvLine (d : ascii) (fields : list string) :
  Ascii.eqb d Js.quote = false ->
  forall f result,
    scanCsvLine (String d "") (csvLine d (f :: fields)) false "" result =
    result ++ f :: fields.
Proof.
  intros Hd. induction fields as [|f2 fields IH]; intros f result.
  - unfold csvLine. cbn [map Js.join]. unfold quoted.
    rewrite scan_toggle by reflexivity. cbn [negb].
    rewrite scan_quoted by reflexivity.
    now rewrite scan_nil, app_nil_l.
  - unfold csvLine. cbn [map]. rewrite join_cons by discriminate.
    change (Js.join (String d "") (quoted f2 :: map quoted fields))
      with (csvLine d (f2 :: fields)).
    unfold quoted at 1. rewrite app_cons.
    rewrite scan_toggle by reflexivity. cbn [negb].
    rewrite app_assoc, !app_cons, !app_nil_l.
    rewrite scan_quoted by exact Hd.
    rewrite scan_plain by exact Hd.
    rewrite single_char_eqb, Ascii.eqb_refl. cbn [negb andb].
    rewrite IH, app_nil_l. now rewrite <- List.app_assoc.
Qed.

Lemma split_nonempty (d : ascii) (s : string) : Js.split d s <> [].
Proof.
  destruct s as [|c s]; [discriminate|]. simpl.
  destruct (Ascii.eqb c d); [discriminate|].
  now destruct (Js.split d s).
Qed.

(** On a line without quotes the loop cuts at every delimiter. *)
Lemma scan_split (d : ascii) (line : string) :
  noQuote line = true ->
  forall current result,
    scanCsvLine (String d "") line false current result =
    result ++
    match Js.split d line with
    | [] => [current]
    | x :: l => (current +:+ x) :: l
    end.
Proof.
  induction line as [|c line IH]; intros Hline current result.
  - rewrite scan_nil. simpl. now rewrite app_nil_r.
  - simpl in Hline. apply andb_true_iff in Hline as [Hc Hline].
    apply negb_true_iff in Hc.
    rewrite scan_plain, single_char_eqb by exact Hc.
    cbn [negb Js.split]. rewrite andb_true_r.
    destruct (Ascii.eqb c d).
    + rewrite IH by exact Hline. rewrite <- List.app_assoc, app_nil_r.
      pose proof (split_nonempty d line) as Hne.
      destruct (Js.split d line) as [|x l]; [now elim Hne|].
      now rewrite app_nil_l.
    + rewrite IH by exact Hline.
      pose proof (split_nonempty d line) as Hne.
      destruct (Js.split d line) as [|x l]; [now elim Hne|].
      now rewrite app_assoc, app_cons, app_nil_l.
Qed.

Lemma eqb_not_single (c : ascii) (delimiter : string) :
  String.length delimiter <> 1 ->
  String.eqb (String c "") delimiter = false.
Proof.
  destruct delimiter as [|a [|b r]]; simpl; intros H.
  - reflexivity.
  - now elim H.
  - now destruct (Ascii.eqb c a).
Qed.

(** A delimiter that is not one character long never cuts. *)
Lemma scan_never_cuts (delimiter : string) :
  String.length delimiter <> 1 ->
  forall n line, String.length line <= n ->
    forall inQuotes current result,
      exists field,
        scanCsvLine delimiter line inQuotes current result =
        result ++ [field].
Proof.
  intros Hd. induction n as [|n IH]; intros line Hn inQuotes current result.
  - destruct line; [|simpl in Hn; lia]. now exists current.
  - destruct line as [|c line]; [now exists current|].
    simpl in Hn. destruct (Ascii.eqb c Js.quote) eqn:Hc.
    + apply Ascii.eqb_eq in Hc. subst c.
      destruct inQuotes.
      * destruct line as [|next line].
        -- rewrite scan_toggle by reflexivity. now exists current.
        -- destruct (Ascii.eqb next Js.quote) eqn:Hnext.
           ++ apply Ascii.eqb_eq in Hnext. subst next.
              rewrite scan_escaped. apply IH. simpl in Hn. lia.
           ++ rewrite scan_toggle by exact Hnext. apply IH. lia.
      * rewrite scan_toggle by reflexivity. apply IH. lia.
    + rewrite scan_plain, eqb_not_single by assumption.
      cbn [andb]. apply IH. lia.
Qed.

Lemma scan_whole (delimiter : string) (line : string) :
  String.length delimiter <> 1 -> noQuote line = true ->
  forall current result,
    scanCsvLine delimiter line false current result =
    result ++ [current +:+ line].
Proof.
  intros Hd. induction line as [|c line IH]; intros Hline current result.
  - now rewrite scan_nil, app_nil_r.
  - simpl in Hline. apply andb_true_iff in Hline as [Hc Hline].
    apply negb_true_iff in Hc.
    rewrite scan_plain, eqb_not_single by assumption.
    cbn [andb]. rewrite IH by exact Hline.
    now rewrite app_assoc, app_cons, app_nil_l.
Qed.

Lemma trimEnd_head (c : ascii) (s : string) :
  Js.isSpace c = false ->
  exists t, Js.trimEnd (String c s) = String c t.
Proof.
  intros Hc. cbn [Js.trimEnd]. rewrite Hc.
  destruct (Js.trimEnd s); eexists; reflexivity.
Qed.

Lemma trimEnd_cons (c : ascii) (s : string) :
  Js.trimEnd (String c s) =
  match Js.trimEnd s with
  | EmptyString => if Js.isSpace c then EmptyString else String c EmptyString
  | String _ _ as t => String c t
  end.
Proof. reflexivity. Qed.

Lemma trimEnd_idem (s : string) : Js.trimEnd (Js.trimEnd s) = Js.trimEnd s.
Proof.
  induction s as [|c s IH]; [reflexivity|].
  rewrite trimEnd_cons. destruct (Js.trimEnd s) as [|c' t] eqn:Ht.
  - destruct (Js.isSpace c) eqn:Hc; [reflexivity|].
    rewrite trimEnd_cons. cbn [Js.trimEnd]. now rewrite Hc.
  - rewrite (trimEnd_cons c (String c' t)), IH. reflexivity.
Qed.

Lemma trimStart_head (s : string) :
  Js.trimStart s = "" \/
  exists c t, Js.trimStart s = String c t /\ Js.isSpace c = false.
Proof.
  induction s as [|c s IH]; [now left|].
  cbn [Js.trimStart]. destruct (Js.isSpace c) eqn:Hc; [exact IH|].
  right. now exists c, s.
Qed.

(** Trimming twice is trimming once. *)
Lemma trim_idem (s : string) : Js.trim (Js.trim s) = Js.trim s.
Proof.
  unfold Js.trim. destruct (trimStart_head s) as [-> | (c & t & -> & Hc)].
  - reflexivity.
  - destruct (trimEnd_head c t Hc) as (t' & Ht'). rewrite Ht'.
    cbn [Js.trimStart]. rewrite Hc, <- Ht'. apply trimEnd_idem.
Qed.

End CsvFacts.

Import CsvFacts.

Lemma map_trimmed (l : list string) :
  Forall (fun f => Js.trim f = f) l -> map Js.trim l = l.
Proof.
  induction 1 as [|x l Hx Hl IH]; [reflexivity|].
  cbn [map]. now rewrite Hx, IH.
Qed.

Example awkwardFields_line :
  csvLine "," awkwardFields =
  String Js.quote "Smith, Ann" +:+ String Js.quote "," +:+
  String Js.quote "6" +:+ String Js.quote (String Js.quote " nails") +:+
  String Js.quote "," +:+ String Js.quote (String Js.quote "").
Proof. reflexivity. Qed.

(** X14. [parseCsvLine] undoes the quoted CSV encoding. For a delimiter of
    one character other than the double quote and at least one field, the
    line made of the fields written between double quotes, with every
    double quote inside a field doubled, parses back to the fields,
    whatever delimiters and quotes they contain, as long as no field
    starts or ends with white space (the parser trims every field, quoted
    or not). *)
Theorem X14_quoted_fields_round_trip (d : ascii) (fields : list string) :
  d <> Js.quote ->
  fields <> [] ->
  Forall (fun f => Js.trim f = f) fields ->
  BulkTools.parseCsvLine (csvLine d fields) (String d "") = fields.
Proof.
  intros Hd Hne Htrim. destruct fields as [|f fields]; [now elim Hne|].
  unfold BulkTools.parseCsvLine.
  rewrite scan_csvLine by now apply Ascii.eqb_neq.
  rewrite List.app_nil_l. now apply map_trimmed.
Qed.

Lemma X14_witness :
  BulkTools.parseCsvLine (csvLine "," awkwardFields) "," = awkwardFields.
Proof.
  apply (X14_quoted_fields_round_trip "," awkwardFields).
  - discriminate.
  - discriminate.
  - repeat constructor.
Defined.

(** X15. Every field [parseCsvLine] returns is trimmed, and on a line
    without double quotes the parser is [split] on the delimiter character
    followed by [trim] of every piece. *)
Theorem X15_unquoted_lines_are_split_and_trimmed (d : ascii) (line : string) :
  Forall (fun f => Js.trim f = f)
         (BulkTools.parseCsvLine line (String d "")) /\
  (noQuote line = true ->
   BulkTools.parseCsvLine line (String d "") =
   map Js.trim (Js.split d line)).
Proof.
  split.
  - unfold BulkTools.parseCsvLine. apply Forall_forall. intros f Hf.
    apply list_elem_of_In, in_map_iff in Hf as (x & <- & _).
    apply trim_idem.
  - intros Hline. unfold BulkTools.parseCsvLine.
    rewrite scan_split by exact Hline. rewrite List.app_nil_l.
    pose proof (split_nonempty d line) as Hne.
    destruct (Js.split d line) as [|x l]; [now elim Hne|].
    now rewrite app_nil_l.
Qed.

Lemma X15_witness :
  BulkTools.parseCsvLine " id , name,," "," =
  map Js.trim (Js.split "," " id , name,,").
Proof.
  apply (proj2 (X15_unquoted_lines_are_split_and_trimmed "," " id , name,,")).
  reflexivity.
Defined.

Example unquoted_line :
  BulkTools.parseCsvLine " id , name,," "," = ["id"; "name"; ""; ""].
Proof. reflexivity. Qed.

(** X16. A delimiter that is not exactly one character long never
    separates anything: the comparison [char === delimiter] is between one
    character and the whole delimiter. Every line parses to a single field,
    and a line without double quotes to itself, trimmed. *)
Theorem X16_long_delimiter_never_splits (delimiter line : string) :
  String.length delimiter <> 1 ->
  length (BulkTools.parseCsvLine line delimiter) = 1 /\
  (noQuote line = true ->
   BulkTools.parseCsvLine line delimiter = [Js.trim line]).
Proof.
  intros Hd. unfold BulkTools.parseCsvLine. split.
  - destruct (scan_never_cuts delimiter Hd (String.length line) line
                (le_n _) false "" []) as (field & ->).
    reflexivity.
  - intros Hline. rewrite scan_whole by assumption.
    now rewrite app_nil_l.
Qed.

Lemma X16_witness :
  length (BulkTools.parseCsvLine "1||2||3" "||") = 1 /\
  (noQuote "1||2||3" = true ->
   BulkTools.parseCsvLine "1||2||3" "||" = [Js.trim "1||2||3"]).
Proof.
  apply (X16_long_delimiter_never_splits "||" "1||2||3"). simpl. lia.
Defined.

(** ** CSV files *)

Module CsvFileFacts.

Import BulkTools.

Lemma keys_set (o : Js.Obj) (k : string) (v : Js.Value) :
  Js.keys (Js.set o k v) = insertKey (Js.keys o) k.
Proof.
  induction o as [|[k' v'] o IH]; [reflexivity|].
  cbn [Js.set]. unfold Js.keys in *. cbn [fmap list_fmap fst insertKey].
  destruct (decide (k' = k)) as [Heq | Hne]; [reflexivity|].
  destruct (Js.arrayIndex k) as [n|], (Js.arrayIndex k') as [n'|];
    try destruct (n <? n')%N; cbn [fmap list_fmap fst]; try reflexivity.
  all: now rewrite IH.
Qed.

(** The keys of a row depend on the headers only. *)
Lemma keys_row (step : nat * string -> Js.Value) (l : list (nat * string)) :
  forall o,
    Js.keys (foldl (fun row h => Js.set row h.2 (step h)) o l) =
    foldl insertKey (Js.keys o) l.*2.
Proof.
  induction l as [|h l IH]; intros o; [reflexivity|].
  cbn [foldl fmap list_fmap]. now rewrite IH, keys_set.
Qed.

Lemma snd_imap_pair {A : Type} (l : list A) : (imap pair l).*2 = l.
Proof.
  rewrite fmap_imap.
  rewrite (imap_ext _ (fun _ x => x) l) by reflexivity.
  induction l as [|x l IH]; [reflexivity|].
  rewrite imap_cons. f_equal. exact IH.
Qed.

(** Without a header named [__proto__] every assignment is an ordinary
    one. *)
Lemma cells_ordinary (numeric : string -> option Js.Value)
    (values : list string) (l : list (nat * string)) :
  "__proto__" ∉ l.*2 ->
  forall st,
    foldl (csvCell numeric values) st l =
    (st.1, foldl (fun row h => Js.set row h.2 (csvValue numeric values h.1))
                 st.2 l).
Proof.
  induction l as [|h l IH]; intros Hl st; [now destruct st|].
  cbn [fmap list_fmap] in Hl. apply not_elem_of_cons in Hl as [Hh Hl].
  cbn [foldl]. rewrite IH by exact Hl. unfold csvCell at 1 2.
  cbv zeta. destruct (String.eqb_spec h.2 "__proto__") as [Heq | _];
    [congruence | reflexivity].
Qed.

Lemma csvRow_ordinary (numeric : string -> option Js.Value)
    (headers : list string) (d line : string) :
  "__proto__" ∉ headers ->
  csvRow numeric headers d line =
  foldl (fun row h =>
           Js.set row h.2 (csvValue numeric (parseCsvLine line d) h.1))
        [] (imap pair headers).
Proof.
  intros Hh. unfold csvRow. cbv zeta.
  rewrite cells_ordinary; [reflexivity|]. now rewrite snd_imap_pair.
Qed.

Lemma keys_csvRow (numeric : string -> option Js.Value)
    (headers : list string) (d line : string) :
  "__proto__" ∉ headers ->
  Js.keys (csvRow numeric headers d line) = foldl insertKey [] headers.
Proof.
  intros Hh. rewrite csvRow_ordinary by exact Hh.
  rewrite (keys_row (fun h => csvValue numeric (parseCsvLine line d) h.1)).
  now rewrite snd_imap_pair.
Qed.

Lemma set_plain (o : Js.Obj) (k : string) (v : Js.Value) :
  Js.arrayIndex k = None -> k ∉ Js.keys o -> Js.set o k v = o ++ [(k, v)].
Proof.
  intros Hk. induction o as [|[k' v'] o IH]; intros Hnew; [reflexivity|].
  unfold Js.keys in *. cbn [fmap list_fmap fst] in Hnew.
  apply not_elem_of_cons in Hnew as [Hne Hnew].
  cbn [Js.set]. destruct (decide (k' = k)) as [Heq | _]; [congruence|].
  rewrite Hk. cbn [app]. now rewrite IH.
Qed.

(** Over plain headers a row is the headers paired with their values, in
    header order. *)
Lemma row_plain (step : nat * string -> Js.Value) (l : list (nat * string)) :
  forall o,
    NoDup (Js.keys o ++ l.*2) ->
    Forall (fun h => Js.arrayIndex h = None) l.*2 ->
    foldl (fun row h => Js.set row h.2 (step h)) o l =
    o ++ map (fun h => (h.2, step h)) l.
Proof.
  induction l as [|h l IH]; intros o Hnd Hplain.
  - now rewrite List.app_nil_r.
  - cbn [fmap list_fmap] in Hnd, Hplain.
    apply Forall_cons in Hplain as [Hh Hplain].
    assert (Hnew : h.2 ∉ Js.keys o).
    { apply NoDup_app in Hnd as (_ & Hdisj & _). intros Hin.
      apply (Hdisj _ Hin). now left. }
    cbn [foldl map]. rewrite set_plain by assumption.
    rewrite IH; [now rewrite <- List.app_assoc | | exact Hplain].
    unfold Js.keys in *. rewrite fmap_app. cbn [fmap list_fmap fst].
    rewrite <- List.app_assoc. exact Hnd.
Qed.

Lemma csvRow_plain (numeric : string -> option Js.Value)
    (headers : list string) (d line : string) :
  plainHeaders headers ->
  csvRow numeric headers d line =
  imap (fun index header =>
          (header, csvValue numeric (parseCsvLine line d) index)) headers.
Proof.
  intros (Hnd & Hplain & Hproto). rewrite csvRow_ordinary by exact Hproto.
  rewrite (row_plain (fun h => csvValue numeric (parseCsvLine line d) h.1)).
  - rewrite List.app_nil_l. change (map ?f ?l) with (f <$> l).
    now rewrite fmap_imap.
  - now rewrite snd_imap_pair.
  - now rewrite snd_imap_pair.
Qed.

Lemma generated_imap {A : Type} (fields : list A) :
  imap (fun index _ => "column_" +:+ Js.showNat (index + 1)) fields =
  generatedHeaders (length fields).
Proof.
  apply (imap_seq_0 fields
           (fun index => "column_" +:+ Js.showNat (index + 1))).
Qed.

Lemma generated_plain (n : nat) : plainHeaders (generatedHeaders n).
Proof.
  unfold generatedHeaders. split; [|split].
  - apply (NoDup_fmap_2_strong
             (fun index => "column_" +:+ Js.showNat (index + 1)));
      [|apply NoDup_seq].
    intros a b _ _ H. apply plain_name_inj in H. lia.
  - apply Forall_forall. intros h Hh.
    apply list_elem_of_In, in_map_iff in Hh as (index & <- & _).
    change ("column_" +:+ Js.showNat (index + 1))
      with (String "c" ("olumn_" +:+ Js.showNat (index + 1))).
    reflexivity.
  - intros Hin. apply list_elem_of_In, in_map_iff in Hin as (index & H & _).
    change ("column_" +:+ Js.showNat (index + 1))
      with (String "c" ("olumn_" +:+ Js.showNat (index + 1))) in H.
    discriminate H.
Qed.

End CsvFileFacts.

Import CsvFileFacts.

Example peopleCsv_rows :
  BulkTools.parseCsv decimalNumeric peopleCsv withHeaders =
    [ [("id", Js.Number 1); ("name", Js.Str "Ann"); ("active", Js.Bool true)];
      [("id", Js.Number 2); ("name", Js.Str "Bob"); ("active", Js.Null)] ] /\
  BulkTools.parseCsv decimalNumeric peopleCsv withoutHeaders =
    [ [("column_1", Js.Number 1); ("column_2", Js.Str "Ann");
       ("column_3", Js.Bool true)];
      [("column_1", Js.Number 2); ("column_2", Js.Str "Bob");
       ("column_3", Js.Null)] ].
Proof. split; reflexivity. Qed.

(** Numeric headers are enumerated in ascending order, whatever their order
    in the header row, and a repeated header keeps one column with the last
    value. *)
Example numeric_and_repeated_headers :
  BulkTools.csvRow decimalNumeric ["b"; "2"; "1"; "b"] "," "w,x,y,z" =
  [("1", Js.Str "y"); ("2", Js.Str "x"); ("b", Js.Str "z")].
Proof. reflexivity. Qed.

(** The header list [parseCsv] works with never holds [__proto__] unless
    the header row does. *)
Lemma headers_ordinary (csvData : string) (options : BulkTools.CsvOptions)
    (first : string) (others : list string) :
  BulkTools.csvLines csvData options = first :: others ->
  "__proto__" ∉ headerRow csvData options ->
  "__proto__" ∉
    (if BulkTools.hasHeaders options
     then BulkTools.parseCsvLine first (BulkTools.delimiter options)
     else imap (fun index _ => "column_" +:+ Js.showNat (index + 1))
               (BulkTools.parseCsvLine first (BulkTools.delimiter options))).
Proof.
  intros Hlines Hproto. unfold headerRow in Hproto. rewrite Hlines in Hproto.
  destruct (BulkTools.hasHeaders options); [exact Hproto|].
  rewrite generated_imap. apply generated_plain.
Qed.

(** The rows of a file all have the key list the headers decide. *)
Lemma rows_uniform (numeric : string -> option Js.Value) (csvData : string)
    (options : BulkTools.CsvOptions) :
  "__proto__" ∉ headerRow csvData options ->
  exists columns,
    Forall (fun row => Js.keys row = columns)
           (BulkTools.parseCsv numeric csvData options).
Proof.
  intros Hproto. unfold BulkTools.parseCsv.
  destruct (BulkTools.csvLines csvData options) as [|first others] eqn:Hlines.
  - exists []. constructor.
  - cbv zeta.
    pose proof (headers_ordinary csvData options first others Hlines Hproto)
      as Hheaders.
    set (headers := if BulkTools.hasHeaders options then _ else _) in *.
    exists (foldl insertKey [] headers).
    apply Forall_forall. intros row Hrow.
    apply list_elem_of_In, in_map_iff in Hrow as (line & <- & _).
    now apply keys_csvRow.
Qed.

(** A header row that names [__proto__] twice: the row of a line whose
    first field is empty gets a column the rows of the other lines do not
    have. *)
Example proto_headers :
  BulkTools.csvRow decimalNumeric ["__proto__"; "__proto__"] "," ",x" =
    [("__proto__", Js.Str "x")] /\
  BulkTools.csvRow decimalNumeric ["__proto__"; "__proto__"] "," "a,x" = [].
Proof. split; reflexivity. Qed.



Example numeric_fields :
  Js.numeric "-3" = Some (Js.Number (-3)) /\
  Js.numeric "2.5" = Some (Js.Float (Js.Dyadic 5 (-1))) /\
  Js.numeric "1e3" = Some (Js.Number 1000) /\
  Js.numeric "0x10" = Some (Js.Number 0) /\
  Js.numeric "-0" = Some (Js.Float Js.MinusZero) /\
  Js.numeric "Infinity" = Some (Js.Float (Js.Infinity false)) /\
  Js.numeric "9007199254740993" = Some (Js.Number 9007199254740992) /\
  Js.numeric "12abc" = None /\ Js.numeric "1_000" = None /\
  Js.numeric "true" = None /\ Js.numeric "1e" = None /\
  Js.numeric "." = None.
Proof. repeat split; vm_compute; reflexivity. Qed.

Example measuresCsv_rows :
  BulkTools.parseCsv Js.numeric measuresCsv withHeaders =
    [ [ ("n", Js.Number (-3)); ("x", Js.Float (Js.Dyadic 5 (-1)));
        ("big", Js.Number (10 ^ 21)); ("hex", Js.Number 0);
        ("when", Js.Float (Js.Infinity false)); ("flag", Js.Bool true) ];
      [ ("n", Js.Number 7); ("x", Js.Float (Js.Dyadic 1 (-1)));
        ("big", Js.Float Js.MinusZero); ("hex", Js.Str "12abc");
        ("when", Js.Float (Js.Infinity false)); ("flag", Js.Bool false) ];
      [ ("n", Js.Number 7); ("x", Js.Number 5);
        ("big", Js.Float (Js.Dyadic 3602879701896397 (-55)));
        ("hex", Js.Number 0); ("when", Js.Float Js.MinusZero);
        ("flag", Js.Str "TRUE") ] ].
Proof. vm_compute. reflexivity. Qed.

(** The conversion of [parseCsv] is the one of [cellValue]. *)
Lemma csvValue_cellValue (values : list string) (index : nat) :
  BulkTools.csvValue Js.numeric values index = cellValue (values !! index).
Proof.
  unfold BulkTools.csvValue, cellValue.
  destruct (values !! index) as [[|c field]|]; reflexivity.
Qed.

(** X18. The rows of a CSV file, column by column. Without a header row the
    columns are named [column_1], [column_2], ... after the fields of the
    first line, which is itself a data line. With a header row whose names
    are pairwise distinct and are neither array indices nor [__proto__],
    the columns are the header names. In both cases the row of a line pairs
    the column at index [i] with the value of the line's field [i]: [null]
    when the field is missing or empty; otherwise the number the field
    reads as, when it reads as one ([-3], [2.5], [1e3], and [0] for [0x10],
    of which [parseFloat] reads the first digit only); otherwise a boolean
    for [true] and [false]; otherwise the field itself. Fields beyond the
    last column are dropped. *)
Theorem X18_csv_rows_column_by_column
    (csvData : string) (options : BulkTools.CsvOptions)
    (first : string) (others : list string) :
  BulkTools.csvLines csvData options = first :: others ->
  let d := BulkTools.delimiter options in
  let rowOver headers line :=
    imap (fun index header =>
            (header, cellValue (BulkTools.parseCsvLine line d !! index)))
         headers in
  (BulkTools.hasHeaders options = false ->
   BulkTools.parseCsv Js.numeric csvData options =
   map (rowOver (generatedHeaders
                   (length (BulkTools.parseCsvLine first d))))
       (first :: others)) /\
  (BulkTools.hasHeaders options = true ->
   plainHeaders (BulkTools.parseCsvLine first d) ->
   BulkTools.parseCsv Js.numeric csvData options =
   map (rowOver (BulkTools.parseCsvLine first d)) others).
Proof.
  intros Hlines d rowOver. unfold BulkTools.parseCsv. rewrite Hlines.
  cbv zeta. fold d.
  assert (Hrow : forall headers line,
            plainHeaders headers ->
            BulkTools.csvRow Js.numeric headers d line = rowOver headers line).
  { intros headers line Hplain. rewrite csvRow_plain by exact Hplain.
    apply imap_ext. intros index header _. f_equal.
    apply csvValue_cellValue. }
  split.
  - intros ->. rewrite generated_imap. apply map_ext. intros line.
    apply Hrow, generated_plain.
  - intros -> Hplain. apply map_ext. intros line. now apply Hrow.
Qed.

Lemma X18_witness :
  BulkTools.parseCsv Js.numeric measuresCsv withHeaders =
  map (fun line =>
         imap (fun index header =>
                 (header,
                  cellValue (BulkTools.parseCsvLine line "," !! index)))
              (BulkTools.parseCsvLine "n,x,big,hex,when,flag" ","))
      [ "-3,2.5,1e21,0x10,Infinity,true"; "+7,.5,-0,12abc,1e400,false";
        "007,5.,0.1,1e-400,-1e-400,TRUE" ].
Proof.
  apply (proj2 (X18_csv_rows_column_by_column measuresCsv withHeaders
                  "n,x,big,hex,when,flag"
                  [ "-3,2.5,1e21,0x10,Infinity,true";
                    "+7,.5,-0,12abc,1e400,false";
                    "007,5.,0.1,1e-400,-1e-400,TRUE" ]
                  eq_refl)).
  - reflexivity.
  - replace (BulkTools.parseCsvLine "n,x,big,hex,when,flag"
               (BulkTools.delimiter withHeaders))
      with ["n"; "x"; "big"; "hex"; "when"; "flag"] by reflexivity.
    split; [|split].
    + repeat constructor; set_solver.
    + repeat constructor.
    + set_solver.
Defined.

(** ** CSV import as a whole *)

Lemma bulkInsert_accounted {Db : Type}
    (runQuery : Db -> BulkTools.Request -> Db * (string + Z))
    (typeError : string) (db : Db) (p : BulkTools.BulkInsertParams) :
  0 < BulkTools.insert_batchSize p ->
  exists reqs res,
    BulkTools.bulkInsert p = Some (Some <$> reqs) /\
    BulkTools.bulkInsertRun runQuery typeError p db = Some res /\
    accounted runQuery (BulkTools.insert_batchSize p) reqs db res.
Proof.
  intros Hbs.
  destruct (run_accounted runQuery typeError (BulkTools.insert_data p)
              (BulkTools.insert_batchSize p)
              (BulkTools.insertBatch (BulkTools.insert_table p))
              (fun i batch =>
                 default {| BulkTools.parameters := [];
                            BulkTools.statement := "" |}
                   (BulkTools.insertBatch (BulkTools.insert_table p) i batch))
              db Hbs)
    as (reqs & res & _ & Hopt & Hres & Hacc).
  - intros i Hlt.
    pose proof (slice_nonempty (BulkTools.insert_data p) i
                  (BulkTools.insert_batchSize p) Hlt Hbs) as Hne.
    destruct (BulkTools.slice _ _ _) as [|first rest]; [now elim Hne|].
    reflexivity.
  - now exists reqs, res.
Qed.

Lemma bulkInsert_bindings (columns : list string)
    (p : BulkTools.BulkInsertParams) (reqs : list BulkTools.Request) :
  0 < BulkTools.insert_batchSize p ->
  Forall (fun row => Js.keys row = columns) (BulkTools.insert_data p) ->
  BulkTools.bulkInsert p = Some (Some <$> reqs) ->
  concat (map BulkTools.parameters reqs) =
  concat (imap (rowBindings columns) (BulkTools.insert_data p)).
Proof.
  intros Hbs Hrows Hreqs.
  destruct (forEachBatch_concat (BulkTools.insert_data p)
              (BulkTools.insert_batchSize p)
              (BulkTools.insertBatch (BulkTools.insert_table p))
              requestBindings (rowBindings columns) Hbs)
    as (rs & Hrs & Hflat).
  - intros i _. apply insertBatch_bindings. now apply Forall_slice.
  - unfold BulkTools.bulkInsert in Hreqs. rewrite Hrs in Hreqs.
    injection Hreqs as ->. rewrite <- Hflat.
    change (map ?f ?l) with (f <$> l). now rewrite <- list_fmap_compose.
Qed.

Example importPeople_run :
  BulkTools.importData secondFails "no keys" decimalNumeric importPeople 0 =
  Some (2, BulkTools.Imported false 2 3 (Some 2) 1
             (Some ["Batch 2: Timeout"])).
Proof. reflexivity. Qed.

(** X19. [importData] on CSV text is [parseCsv] followed by [bulkInsert].
    When the text yields no row (nothing but blank lines, or a header row
    alone) the import fails with [Import failed: No data to import] and
    nothing is sent to the server. Otherwise, with a positive batch size
    and no header named [__proto__], the rows are inserted in batches:
    all rows have the same columns, so the column list taken from the
    first row of a batch fits every row;
    the row at position [pos] binds [param_<pos>_<k>] to its value for the
    [k]-th column; every request is sent whatever the requests before it
    answered; [recordsProcessed] is the number of rows and the other
    fields are those of the bulk insert. *)
Theorem X19_csv_import_is_parse_then_bulk_insert {Db : Type}
    (runQuery : Db -> BulkTools.Request -> Db * (string + Z))
    (typeError : string) (numeric : string -> option Js.Value)
    (params : BulkTools.ImportDataParams) (db : Db) :
  let rows :=
    BulkTools.parseCsv numeric (BulkTools.import_data params)
      {| BulkTools.hasHeaders := BulkTools.import_hasHeaders params;
         BulkTools.delimiter := BulkTools.import_delimiter params;
         BulkTools.skipRows := BulkTools.import_skipRows params |} in
  let insert :=
    {| BulkTools.insert_table := BulkTools.import_table params;
       BulkTools.insert_data := rows;
       BulkTools.insert_batchSize := BulkTools.import_batchSize params |} in
  (rows = [] ->
   BulkTools.importData runQuery typeError numeric params db =
   Some (db, BulkTools.ImportFailed false 0 0
               "Import failed: No data to import")) /\
  (rows <> [] -> 0 < BulkTools.import_batchSize params ->
   "__proto__" ∉ headerRow (BulkTools.import_data params)
      {| BulkTools.hasHeaders := BulkTools.import_hasHeaders params;
         BulkTools.delimiter := BulkTools.import_delimiter params;
         BulkTools.skipRows := BulkTools.import_skipRows params |} ->
   exists columns reqs db' res,
     Forall (fun row => Js.keys row = columns) rows /\
     BulkTools.bulkInsert insert = Some (Some <$> reqs) /\
     concat (map BulkTools.parameters reqs) =
       concat (imap (rowBindings columns) rows) /\
     accounted runQuery (BulkTools.import_batchSize params) reqs db
       (db', res) /\
     BulkTools.importData runQuery typeError numeric params db =
     Some (db', BulkTools.Imported (BulkTools.success res) (length rows)
                  (BulkTools.totalRowsAffected res)
                  (BulkTools.batchCount res) (BulkTools.batchSize res)
                  (BulkTools.errors res))).
Proof.
  intros rows insert. unfold BulkTools.importData. fold rows. fold insert.
  split.
  - intros ->. reflexivity.
  - intros Hne Hbs Hproto.
    destruct (rows_uniform numeric (BulkTools.import_data params)
                {| BulkTools.hasHeaders := BulkTools.import_hasHeaders params;
                   BulkTools.delimiter := BulkTools.import_delimiter params;
                   BulkTools.skipRows := BulkTools.import_skipRows params |}
                Hproto)
      as (columns & Hcols).
    fold rows in Hcols.
    destruct (bulkInsert_accounted runQuery typeError db insert Hbs)
      as (reqs & [db' res] & Hreqs & Hrun & Hacc).
    exists columns, reqs, db', res.
    split; [exact Hcols|]. split; [exact Hreqs|].
    split; [exact (bulkInsert_bindings columns insert reqs Hbs Hcols Hreqs)|].
    split; [exact Hacc|].
    destruct rows as [|row rows']; [now elim Hne|].
    cbn [length Nat.eqb]. now rewrite Hrun.
Qed.

Lemma X19_witness :
  let rows := BulkTools.parseCsv decimalNumeric peopleCsv withHeaders in
  exists columns reqs db' res,
    Forall (fun row => Js.keys row = columns) rows /\
    BulkTools.bulkInsert
      {| BulkTools.insert_table := "people";
         BulkTools.insert_data := rows;
         BulkTools.insert_batchSize := 1 |} = Some (Some <$> reqs) /\
    concat (map BulkTools.parameters reqs) =
      concat (imap (rowBindings columns) rows) /\
    accounted secondFails 1 reqs 0 (db', res) /\
    BulkTools.importData secondFails "no keys" decimalNumeric importPeople 0 =
    Some (db', BulkTools.Imported (BulkTools.success res) (length rows)
                 (BulkTools.totalRowsAffected res)
                 (BulkTools.batchCount res) (BulkTools.batchSize res)
                 (BulkTools.errors res)).
Proof.
  apply (proj2 (X19_csv_import_is_parse_then_bulk_insert secondFails "no keys"
                  decimalNumeric importPeople 0)).
  - vm_compute. discriminate.
  - simpl. lia.
  - replace (headerRow _ _) with ["id"; "name"; "active"] by reflexivity.
    set_solver.
Defined.

(** ** Termination of the batched tools *)

Lemma schema_batch_size (n : option nat) (d hi : nat) :
  0 < d ->
  match n with
  | Some n => (1 <=? n)%nat && (n <=? hi)%nat
  | None => true
  end = true ->
  0 < default d n.
Proof.
  intros Hd. destruct n as [n|]; [|simpl; lia].
  change (default d (Some n)) with n.
  intros [H _]%andb_true_iff. now apply Nat.leb_le in H.
Qed.

Lemma forEachBatch_returns {A B : Type} (items : list A) (batchSize : nat)
    (body : nat -> list A -> B) :
  0 < batchSize ->
  exists rs,
    BulkTools.forEachBatch (S (length items)) items batchSize 0 body = Some rs.
Proof.
  intros Hbs.
  destruct (forEachBatch_chunks items batchSize body Hbs) as (chunks & _ & H).
  eexists. exact H.
Qed.

Lemma importData_returns {Db : Type}
    (runQuery : Db -> BulkTools.Request -> Db * (string + Z))
    (typeError : string) (numeric : string -> option Js.Value)
    (params : BulkTools.ImportDataParams) (db : Db) :
  0 < BulkTools.import_batchSize params ->
  exists res,
    BulkTools.importData runQuery typeError numeric params db = Some res.
Proof.
  intros Hbs. unfold BulkTools.importData. cbv zeta.
  destruct (length _ =? 0)%nat; [eexists; reflexivity|].
  match goal with
  | |- context [BulkTools.bulkInsertRun _ _ ?p _] =>
      destruct (bulkInsert_accounted runQuery typeError db p Hbs)
        as (reqs & [db' res] & _ & -> & _)
  end.
  eexists. reflexivity.
Qed.

(** X20. No call of [sql_bulk_insert], [sql_batch_update] or
    [sql_batch_delete], and no call of [sql_import_data] with the format
    [csv], hangs. The schemas let through batch sizes from 1 to 100
    (sql_batch_update, sql_batch_delete) or 1 to 1000 (sql_bulk_insert,
    sql_import_data) and default to 50 or 100, so whatever the other
    arguments and whatever the server answers, the handler either answers
    with an input error or runs its loop to the end. Imports with the format
    [json] are not covered. *)
Theorem X20_batched_tools_always_return {Db : Type}
    (runQuery : Db -> BulkTools.Request -> Db * (string + Z))
    (typeError : string) (numeric : string -> option Js.Value) (db : Db)
    (insertArgs : BulkTools.BulkInsertArgs)
    (importArgs : BulkTools.ImportDataArgs)
    (updateArgs : BulkTools.BatchUpdateArgs)
    (deleteArgs : BulkTools.BatchDeleteArgs) :
  (BulkTools.sql_bulk_insert runQuery typeError insertArgs db =
     BulkTools.InputError \/
   exists res,
     BulkTools.sql_bulk_insert runQuery typeError insertArgs db =
     BulkTools.Ran (Some res)) /\
  (BulkTools.sql_import_data runQuery typeError numeric importArgs db =
     BulkTools.InputError \/
   exists res,
     BulkTools.sql_import_data runQuery typeError numeric importArgs db =
     BulkTools.Ran (Some res)) /\
  (BulkTools.sql_batch_update updateArgs = BulkTools.BatchInputError \/
   exists reqs,
     BulkTools.sql_batch_update updateArgs =
     BulkTools.BatchSent (Some reqs)) /\
  (BulkTools.sql_batch_delete deleteArgs = BulkTools.BatchInputError \/
   exists reqs,
     BulkTools.sql_batch_delete deleteArgs =
     BulkTools.BatchSent (Some reqs)).
Proof.
  split; [|split; [|split]].
  - unfold BulkTools.sql_bulk_insert, BulkTools.BulkInsertSchema.
    destruct (_ && _) eqn:Hschema; [right | now left].
    apply andb_true_iff in Hschema as [Hschema _].
    apply andb_true_iff in Hschema as [_ Hbs].
    apply (schema_batch_size _ 100) in Hbs; [|lia].
    match goal with
    | |- context [BulkTools.bulkInsertRun _ _ ?p _] =>
        destruct (bulkInsert_accounted runQuery typeError db p Hbs)
          as (reqs & res & _ & -> & _)
    end.
    now exists res.
  - unfold BulkTools.sql_import_data, BulkTools.ImportDataSchema.
    destruct (_ && _) eqn:Hschema; [right | now left].
    apply andb_true_iff in Hschema as [_ Hbs].
    apply (schema_batch_size _ 100) in Hbs; [|lia].
    match goal with
    | |- context [BulkTools.importData _ _ _ ?p _] =>
        destruct (importData_returns runQuery typeError numeric p db Hbs)
          as (res & ->)
    end.
    now exists res.
  - unfold BulkTools.sql_batch_update, BulkTools.BatchUpdateSchema. cbv zeta.
    destruct (_ && _) eqn:Hschema; [right | now left].
    apply andb_true_iff in Hschema as [_ Hbs].
    apply (schema_batch_size _ 50) in Hbs; [|lia].
    unfold BulkTools.batchUpdate.
    cbn [BulkTools.updates BulkTools.update_batchSize BulkTools.update_table].
    match goal with
    | |- context [BulkTools.forEachBatch _ ?items _ _ _] =>
        destruct (forEachBatch_returns items _
                    (BulkTools.updateBatch
                       (BulkTools.args_update_table updateArgs)) Hbs)
          as (reqs & ->)
    end.
    now exists reqs.
  - unfold BulkTools.sql_batch_delete, BulkTools.BatchDeleteSchema.
    destruct (_ && _) eqn:Hschema; [right | now left].
    apply andb_true_iff in Hschema as [_ Hbs].
    apply (schema_batch_size _ 50) in Hbs; [|lia].
    unfold BulkTools.batchDelete.
    cbn [BulkTools.delete_conditions BulkTools.delete_batchSize
         BulkTools.delete_table].
    destruct (forEachBatch_returns (BulkTools.args_conditions deleteArgs) _
                (BulkTools.deleteBatch
                   (BulkTools.args_delete_table deleteArgs)) Hbs)
      as (reqs & ->).
    now exists reqs.
Qed.

Lemma forEachBatch_stuck {A B : Type} (items : list A)
    (body : nat -> list A -> B) (fuel : nat) :
  items <> [] -> BulkTools.forEachBatch fuel items 0 0 body = None.
Proof.
  intros Hne. induction fuel as [|fuel IH]; [reflexivity|].
  cbn [BulkTools.forEachBatch]. destruct items as [|x items]; [now elim Hne|].
  cbn [length Nat.ltb Nat.leb]. change (0 + 0) with 0. now rewrite IH.
Qed.

Lemma runBatches_stuck {A Db : Type}
    (runQuery : Db -> BulkTools.Request -> Db * (string + Z))
    (typeError : string) (items : list A)
    (build : nat -> list A -> option BulkTools.Request) (fuel : nat) :
  items <> [] ->
  forall st,
    BulkTools.runBatches runQuery typeError fuel items 0 0 build st = None.
Proof.
  intros Hne. induction fuel as [|fuel IH]; intros st; [reflexivity|].
  cbn [BulkTools.runBatches]. destruct items as [|x items]; [now elim Hne|].
  cbn [length Nat.ltb Nat.leb]. change (0 + 0) with 0. apply IH.
Qed.

(** X21. Called directly with a batch size of [0] on a non-empty input, the
    loop of a batched operation never advances: no number of iterations
    brings it to its end, whatever the server answers. The schemas are the
    only guard. *)
Theorem X21_zero_batch_size_never_returns {A Db : Type}
    (runQuery : Db -> BulkTools.Request -> Db * (string + Z))
    (typeError : string) (items : list A)
    (build : nat -> list A -> option BulkTools.Request)
    (st : BulkTools.RunState) (fuel : nat) :
  items <> [] ->
  BulkTools.forEachBatch fuel items 0 0 build = None /\
  BulkTools.runBatches runQuery typeError fuel items 0 0 build st = None.
Proof.
  intros Hne. split.
  - now apply forEachBatch_stuck.
  - now apply runBatches_stuck.
Qed.

Lemma X21_witness :
  BulkTools.forEachBatch 1000 (BulkTools.insert_data zeroBatch) 0 0
    (BulkTools.insertBatch "users") = None /\
  BulkTools.runBatches secondFails "no keys" 1000
    (BulkTools.insert_data zeroBatch) 0 0 (BulkTools.insertBatch "users")
    (0, 0%Z, []) = None.
Proof.
  apply (X21_zero_batch_size_never_returns secondFails "no keys"
           (BulkTools.insert_data zeroBatch) (BulkTools.insertBatch "users")
           (0, 0%Z, []) 1000).
  discriminate.
Defined.

(** ** Line endings *)

Module LineFacts.

Lemma split_line (a b : string) :
  noLineFeed a = true ->
  Js.split Js.lineFeed (a +:+ String Js.lineFeed b) =
  a :: Js.split Js.lineFeed b.
Proof.
  induction a as [|c a IH]; intros Ha.
  - now rewrite app_nil_l.
  - simpl in Ha. apply andb_true_iff in Ha as [Hc Ha].
    apply negb_true_iff in Hc.
    rewrite app_cons. cbn [Js.split]. rewrite Hc, IH by exact Ha.
    reflexivity.
Qed.

Lemma split_last (a : string) :
  noLineFeed a = true -> Js.split Js.lineFeed a = [a].
Proof.
  induction a as [|c a IH]; intros Ha; [reflexivity|].
  simpl in Ha. apply andb_true_iff in Ha as [Hc Ha].
  apply negb_true_iff in Hc.
  cbn [Js.split]. rewrite Hc, IH by exact Ha. reflexivity.
Qed.

Lemma noLineFeed_app (a b : string) :
  noLineFeed (a +:+ b) = noLineFeed a && noLineFeed b.
Proof.
  induction a as [|c a IH]; [reflexivity|].
  rewrite app_cons. simpl. rewrite IH. now rewrite andb_assoc.
Qed.

Lemma trimEnd_space (x : string) (c : ascii) :
  Js.isSpace c = true -> Js.trimEnd (x +:+ String c "") = Js.trimEnd x.
Proof.
  intros Hc. induction x as [|a x IH].
  - rewrite app_nil_l. cbn [Js.trimEnd]. now rewrite Hc.
  - rewrite app_cons, !trimEnd_cons, IH. reflexivity.
Qed.

Lemma trim_space (l : string) (c : ascii) :
  Js.isSpace c = true -> Js.trim (l +:+ String c "") = Js.trim l.
Proof.
  intros Hc. unfold Js.trim. induction l as [|a l IH].
  - rewrite app_nil_l. cbn [Js.trimStart]. now rewrite Hc.
  - rewrite app_cons. cbn [Js.trimStart].
    destruct (Js.isSpace a); [exact IH|].
    rewrite <- app_cons. now apply trimEnd_space.
Qed.

(** The lines of a text, trimmed, are the same for both line endings. *)
Lemma trimmed_lines (lines : list string) :
  Forall (fun l => noLineFeed l = true) lines ->
  map Js.trim (Js.split Js.lineFeed (windowsText lines)) =
  map Js.trim (Js.split Js.lineFeed (unixText lines)).
Proof.
  unfold windowsText, unixText.
  induction 1 as [|l lines Hl Hlines IH]; [reflexivity|].
  destruct lines as [|l2 lines]; [reflexivity|].
  rewrite (join_cons (String carriageReturn (String Js.lineFeed "")) l)
    by discriminate.
  rewrite (join_cons (String Js.lineFeed "") l) by discriminate.
  set (w := Js.join (String carriageReturn (String Js.lineFeed ""))
              (l2 :: lines)) in *.
  set (u := Js.join (String Js.lineFeed "") (l2 :: lines)) in *.
  change (l +:+ String Js.lineFeed "" +:+ u) with (l +:+ String Js.lineFeed u).
  replace (l +:+ String carriageReturn (String Js.lineFeed "") +:+ w)
    with ((l +:+ String carriageReturn "") +:+ String Js.lineFeed w)
    by (rewrite app_assoc; reflexivity).
  rewrite !split_line.
  - cbn [map]. rewrite IH. f_equal. now apply trim_space.
  - exact Hl.
  - rewrite noLineFeed_app, Hl. reflexivity.
Qed.

End LineFacts.

Import LineFacts.

(** X22. [parseCsv] reads a file with Windows line endings as it reads the
    same lines with Unix line endings: the text is cut at line feeds and
    every line is trimmed, which removes the carriage return left at its
    end. *)
Theorem X22_line_endings_do_not_matter
    (numeric : string -> option Js.Value) (lines : list string)
    (options : BulkTools.CsvOptions) :
  Forall (fun l => noLineFeed l = true) lines ->
  BulkTools.parseCsv numeric (windowsText lines) options =
  BulkTools.parseCsv numeric (unixText lines) options.
Proof.
  intros Hlines. unfold BulkTools.parseCsv, BulkTools.csvLines.
  change (map Js.trim (drop ?k ?l)) with (Js.trim <$> drop k l).
  rewrite !fmap_drop.
  change (Js.trim <$> ?l) with (map Js.trim l).
  now rewrite (trimmed_lines lines Hlines).
Qed.

Lemma X22_witness :
  BulkTools.parseCsv decimalNumeric (windowsText ["id,name"; "1,Ann"; "2,Bob"])
    withHeaders =
  BulkTools.parseCsv decimalNumeric (unixText ["id,name"; "1,Ann"; "2,Bob"])
    withHeaders.
Proof.
  apply (X22_line_endings_do_not_matter decimalNumeric
           ["id,name"; "1,Ann"; "2,Bob"] withHeaders).
  repeat constructor.
Defined.

(** ** The text of the top-N form *)

Lemma startsWith_from_overlap (s b : string) :
  s <> "" -> Js.startsWith " FROM" s = false ->
  Js.startsWith " FROM" (s +:+ " FROM" +:+ b) = false.
Proof.
  intros Hne H.
  destruct s as [|c1 s]; [now elim Hne|]. rewrite app_cons.
  cbn [Js.startsWith] in *. destruct (Ascii.eqb " " c1); [|reflexivity].
  destruct s as [|c2 s]; [reflexivity|]. rewrite app_cons.
  cbn [Js.startsWith] in *. destruct (Ascii.eqb "F" c2); [|reflexivity].
  destruct s as [|c3 s]; [reflexivity|]. rewrite app_cons.
  cbn [Js.startsWith] in *. destruct (Ascii.eqb "R" c3); [|reflexivity].
  destruct s as [|c4 s]; [reflexivity|]. rewrite app_cons.
  cbn [Js.startsWith] in *. destruct (Ascii.eqb "O" c4); [|reflexivity].
  destruct s as [|c5 s]; [reflexivity|]. rewrite app_cons.
  cbn [Js.startsWith] in *. destruct (Ascii.eqb "M" c5); [|reflexivity].
  discriminate H.
Qed.

Lemma indexOfFrom_nonneg (needle s : string) (i : nat) (k : Z) :
  Js.indexOfFrom needle s i = k -> (k = -1 \/ Z.of_nat i <= k)%Z.
Proof.
  revert i; induction s as [|c s IH]; intros i.
  - simpl. destruct (Js.startsWith needle ""); intros <-; lia.
  - simpl. destruct (Js.startsWith needle (String c s)); [intros <-; lia|].
    intros H. apply IH in H. lia.
Qed.

(** The first [ FROM] of a text that has none before its own. *)
Lemma indexOfFrom_exact (a b : string) :
  forall i,
    Js.indexOfFrom " FROM" a i = (-1)%Z ->
    Js.indexOfFrom " FROM" (a +:+ " FROM" +:+ b) i =
    Z.of_nat (i + String.length a).
Proof.
  induction a as [|c a IH]; intros i Hnone.
  - rewrite app_nil_l. simpl. f_equal. lia.
  - assert (Hstart : Js.startsWith " FROM" (String c a) = false).
    { destruct (Js.startsWith " FROM" (String c a)) eqn:Hs; [|reflexivity].
      cbn [Js.indexOfFrom] in Hnone. rewrite Hs in Hnone. lia. }
    pose proof (startsWith_from_overlap (String c a) b
                  ltac:(discriminate) Hstart) as Hover.
    cbn [Js.indexOfFrom] in Hnone. rewrite Hstart in Hnone.
    rewrite app_cons in *. cbn [Js.indexOfFrom]. rewrite Hover.
    rewrite IH by exact Hnone. simpl String.length. f_equal. lia.
Qed.

Example latestOrder_query :
  query (buildSelectQuery latestOrder) =
  "SELECT TOP 5 (SELECT MAX(id) FROM orders) AS latest FROM [users]orders) AS latest FROM [users]".
Proof. reflexivity. Qed.

(** X23. The text of the top-N form. For a non-zero limit and no offset (or
    offset [0]), when the column list does not contain [ FROM], the
    statement is [SELECT TOP <limit> <columns> FROM [<table>]] followed by
    the whole of the old text from its table on: [[<table>]] a second time,
    then the JOIN, WHERE and ORDER BY clauses. The cut
    [query.indexOf(' FROM') + 6] lands on the opening bracket of the table,
    not after the table. *)
Theorem X23_top_form_repeats_the_table (p : QueryParams) (l : Z) :
  limit p = Some l -> l <> 0%Z ->
  offset p = None \/ offset p = Some 0%Z ->
  Js.indexOf ("SELECT " +:+ Js.join ", " (default ["*"] (columns p))) " FROM" =
    (-1)%Z ->
  query (buildSelectQuery p) =
  topHead p l +:+ "[" +:+ table p +:+ "]" +:+ selectTail p.
Proof.
  intros Hl Hnz Hoff Hcols.
  assert (Htl : Js.truthy (limit p) = true).
  { rewrite Hl. simpl. now apply negb_true_iff, Z.eqb_neq. }
  assert (Hto : Js.truthy (offset p) = false)
    by (now destruct Hoff as [-> | ->]).
  rewrite select_query. cbv zeta. rewrite Htl, Hto, Hl.
  change (default 0%Z (Some l)) with l.
  unfold topHead, selectHead.
  set (cols := Js.join ", " (default ["*"] (columns p))) in *.
  set (tail := selectTail p).
  replace (("SELECT " +:+ cols +:+ " FROM [" +:+ table p +:+ "]") +:+ tail)
    with (("SELECT " +:+ cols) +:+ " FROM" +:+
          (" [" +:+ table p +:+ "]" +:+ tail))
    by now rewrite !app_assoc.
  unfold Js.indexOf in *. rewrite indexOfFrom_exact by exact Hcols.
  unfold Js.substring.
  replace (Z.to_nat (Z.of_nat (0 + String.length ("SELECT " +:+ cols)) + 6))
    with (String.length (("SELECT " +:+ cols) +:+ " FROM "))
    by (rewrite length_app; simpl String.length; lia).
  replace (("SELECT " +:+ cols) +:+ " FROM" +:+
           (" [" +:+ table p +:+ "]" +:+ tail))
    with ((("SELECT " +:+ cols) +:+ " FROM ") +:+
          "[" +:+ table p +:+ "]" +:+ tail)
    by now rewrite !app_assoc.
  rewrite dropChars_app by lia.
  assert (Hall : forall s, Js.dropChars (String.length s) s = "").
  { induction s as [|c s IH]; [reflexivity | exact IH]. }
  rewrite Hall, app_nil_l. now rewrite !app_assoc.
Qed.

Lemma X23_witness :
  query (buildSelectQuery firstPage) =
  topHead firstPage 10 +:+ "[" +:+ table firstPage +:+ "]" +:+
  selectTail firstPage.
Proof.
  apply (X23_top_form_repeats_the_table firstPage 10).
  - reflexivity.
  - lia.
  - vm_compute. tauto.
  - reflexivity.
Defined.
